(** * Storefront core: catalogue listing and cart/checkout records

    A shallow embedding of the data-access layer of the storefront
    (the [firebase-service] module: [getAllItems], [getItemsByCategory],
    [searchItems], [getItemById], [getCartItems], [addToCart],
    [updateCartItemQuantity], [removeFromCart], [updateCheckoutStep],
    [completeCheckout]) and of the order history of the profile page
    ([fetchOrders]), followed by the pages that call the layer: the cart
    page, the checkout page, the listing page with its pager, the page of
    one item, and the delete and status handlers of the administration.

    Conventions of the embedding:
    - a price is held as the rational ([Q]) that the stored number is
      exactly; a comparator result is [option Q], [None] standing for
      [NaN]; quantities, indices and limits are integers ([Z]); the
      totals that the pages add up are IEEE 754 doubles ([Number.t],
      the binary64 format of the library's [SpecFloat]), added and
      multiplied with the rounding of the language;
    - a string is a byte string ([string]); the document store compares
      strings bytewise;
    - a [Promise] is either resolved with a value or rejected with the
      store's error; [await] inside [try { .. } catch (e) { throw e }]
      is the bind of that monad;
    - the [items] collection is the list of its documents, in the order in
      which the store hands them out when no order is requested; the
      [checkouts] collection is a finite map from document id to document
      data;
    - the document store is a service outside the repository; its
      queries are data ([Query]) interpreted by [runQuery] the way the
      store documents them: filters select, [orderBy] orders by the field
      and then by document id, [startAfter] resumes behind the position of
      a snapshot, [limit] keeps the first documents and refuses a count
      that is not positive; whether the store serves a query or fails it
      is a [Policy];
    - [new Date().toISOString()] and the identifier minted by [addDoc] are
      inputs of the operation that reads them; [Date] parsing and
      [toLocaleDateString] are parameters of the development;
    - the state of a page is a record of the React state its handlers read
      and write; a handler is a function on that state and on the
      database, and it runs to its end, with the fetch it triggers, before
      the next one starts. *)

From Stdlib Require Import ZArith QArith List Permutation Sorted Lia Lqa Bool.
From Stdlib Require Import Floats.SpecFloat.
From Stdlib Require Import Strings.String Strings.Ascii.
From stdpp Require Import base option list gmap strings fin_maps.

Local Open Scope string_scope.
Local Open Scope list_scope.
Local Open Scope Z_scope.

(** ** JavaScript arrays *)

Section JsArray.
Context {A : Type}.

(** [Array.prototype.findIndex]: position of the first element that
    satisfies [p], counted from [i]; [-1] when there is none. *)
Fixpoint findIndexFrom (i : Z) (p : A -> bool) (l : list A) : Z :=
  match l with
  | [] => -1
  | x :: t => if p x then i else findIndexFrom (i + 1) p t
  end.

Definition findIndex (p : A -> bool) (l : list A) : Z := findIndexFrom 0 p l.

(** A relative index of [slice]: negative counts from the end, and the
    result is clamped to [0 .. len]. *)
Definition relativeIndex (len i : Z) : Z :=
  if i <? 0 then Z.max (len + i) 0 else Z.min i len.

(** [Array.prototype.slice(start, end)]. *)
Definition slice (l : list A) (start end_ : Z) : list A :=
  let len := Z.of_nat (length l) in
  let k := relativeIndex len start in
  let final := relativeIndex len end_ in
  firstn (Z.to_nat (final - k)) (skipn (Z.to_nat k) l).

(** [arr[arr.length - 1]], when [arr.length > 0]. *)
Definition lastElement (l : list A) : option A := List.last (List.map Some l) None.

(** [Array.prototype.sort(comparefn)].  The comparator's [NaN] counts as
    [+0].  The sort is stable: an element stays in front of the later
    elements it does not compare greater than.  For a comparator that
    orders its arguments consistently this is the one result the language
    allows; for another comparator the language leaves the order to the
    engine, and this is one of the orders it may produce. *)
Definition notGreater (comparefn : A -> A -> option Q) (a b : A) : bool :=
  match comparefn a b with
  | Some v => Qle_bool v 0
  | None => true
  end.

Fixpoint insertSorted (le : A -> A -> bool) (x : A) (l : list A) : list A :=
  match l with
  | [] => [x]
  | y :: t => if le x y then x :: y :: t else y :: insertSorted le x t
  end.

Definition stableSort (le : A -> A -> bool) (l : list A) : list A :=
  List.fold_right (insertSorted le) [] l.

Definition sort (comparefn : A -> A -> option Q) (l : list A) : list A :=
  stableSort (notGreater comparefn) l.
End JsArray.

(** ** Records of the store *)

Module Item.
Record t : Type := mk {
  id : string;
  name : string;
  description : string;
  price : Q;
  bannerImage : string;
  images : list string;
  category_id : string;
  createdAt : string
}.
End Item.

Module Checkout.
(** The stored fields of a checkout document. *)
Record data : Type := mkData {
  user_id : string;
  item_id : string;
  quantity : Z;
  is_done : bool;
  last_step : string;
  reason : string;
  createdAt : string;
  updatedAt : string
}.

(** [{ id: doc.id, ...doc.data() }] *)
Record t : Type := mk { id : string; fields : data }.
End Checkout.

Module Number.
(** A JavaScript [number] in arithmetic: an IEEE 754 binary64 value, with
    the operations of the language, which round to nearest, ties to
    even. *)
Definition prec : Z := 53.
Definition emax : Z := 1024.

Definition t : Set := spec_float.

Definition zero : t := S754_zero false.

Definition add : t -> t -> t := SFadd prec emax.
Definition mul : t -> t -> t := SFmul prec emax.
Definition div : t -> t -> t := SFdiv prec emax.

(** The number that holds an integer. *)
Definition ofZ (z : Z) : t := binary_normalize prec emax z 0 false.

(** The number that holds a price: the price itself when it is a double,
    and for a decimal of up to fifteen digits the double that the decimal
    denotes. *)
Definition ofQ (q : Q) : t := div (ofZ (Qnum q)) (ofZ (Zpos (Qden q))).

(** The exact value of a finite number. *)
Definition toQ (x : t) : option Q :=
  match x with
  | S754_zero _ => Some 0%Q
  | S754_finite negative m e =>
      let magnitude :=
        if 0 <=? e then inject_Z (Zpos m * 2 ^ e) else Zpos m # Z.to_pos (2 ^ (- e)) in
      Some (if negative then Qopp magnitude else magnitude)
  | S754_infinity _ => None
  | S754_nan => None
  end.
End Number.

Module OrderItem.
(** [{ id: itemDoc.id, ...itemDoc.data(), quantity }] *)
Record t : Type := mk { item : Item.t; quantity : Z }.
End OrderItem.

Module Order.
(** An order of the profile page: not stored, derived on display. *)
Record t : Type := mk {
  id : string;
  items : list OrderItem.t;
  total : Number.t;
  date : string;
  status : string
}.
End Order.

(** ** Promises and store errors *)

Inductive FirestoreErrorCode : Type :=
| failed_precondition
| not_found
| invalid_argument
| permission_denied
| unavailable.

Inductive Promise (A : Type) : Type :=
| Resolved (a : A)
| Rejected (e : FirestoreErrorCode).
Arguments Resolved {A} a.
Arguments Rejected {A} e.

(** [await m] followed by the rest of the [async] body: a rejection of
    [m] leaves the body at once. *)
#[global] Instance Promise_bind : MBind Promise :=
  fun A B (k : A -> Promise B) (m : Promise A) =>
    match m with
    | Resolved a => k a
    | Rejected e => Rejected e
    end.

#[global] Instance Promise_ret : MRet Promise := fun A a => Resolved a.

(** [try { body } catch (error) { console.error(..); throw error; }] *)
Definition catchRethrow {A : Type} (body : Promise A) : Promise A :=
  match body with
  | Resolved a => Resolved a
  | Rejected error => Rejected error
  end.

(** ** The document store's queries over the [items] collection *)

Inductive Field : Type := f_name | f_price | f_category_id | f_createdAt.
Inductive Value : Type := VString (s : string) | VNumber (q : Q).
Inductive OrderByDirection : Type := asc | desc.
Inductive WhereOp : Type := op_eq | op_ge | op_le.

Record Query : Type := mkQuery {
  q_where : list (Field * WhereOp * Value);
  q_orderBy : option (Field * OrderByDirection);
  q_startAfter : option Item.t;
  q_limit : option Z
}.

Definition fieldOf (f : Field) (d : Item.t) : Value :=
  match f with
  | f_name => VString (Item.name d)
  | f_price => VNumber (Item.price d)
  | f_category_id => VString (Item.category_id d)
  | f_createdAt => VString (Item.createdAt d)
  end.

(** Value order of the store: numbers sort before strings, numbers by
    magnitude, strings bytewise. *)
Definition compareValue (a b : Value) : comparison :=
  match a, b with
  | VNumber x, VNumber y => Qcompare x y
  | VNumber _, VString _ => Lt
  | VString _, VNumber _ => Gt
  | VString x, VString y => String.compare x y
  end.

Definition satisfies (d : Item.t) (c : Field * WhereOp * Value) : bool :=
  let '(f, op, v) := c in
  match op, compareValue (fieldOf f d) v with
  | op_eq, Eq => true
  | op_ge, (Eq | Gt) => true
  | op_le, (Eq | Lt) => true
  | _, _ => false
  end.

(** Document order under [orderBy(f, dir)]: by the field, then by
    document id, both in the direction [dir]. *)
Definition compareDocs (f : Field) (dir : OrderByDirection) (a b : Item.t) : comparison :=
  let c := match compareValue (fieldOf f a) (fieldOf f b) with
           | Eq => String.compare (Item.id a) (Item.id b)
           | c => c
           end in
  match dir with
  | asc => c
  | desc => CompOpp c
  end.

Definition docLe (f : Field) (dir : OrderByDirection) (a b : Item.t) : bool :=
  match compareDocs f dir a b with Gt => false | _ => true end.

Definition docLt (f : Field) (dir : OrderByDirection) (a b : Item.t) : bool :=
  match compareDocs f dir a b with Lt => true | _ => false end.

(** The documents a query selects from the collection [docs]. A cursor
    only has a position under an [orderBy]. *)
Definition runQuery (q : Query) (docs : list Item.t) : list Item.t :=
  let matched := List.filter (fun d => forallb (satisfies d) (q_where q)) docs in
  let ordered :=
    match q_orderBy q with
    | Some (f, dir) => stableSort (docLe f dir) matched
    | None => matched
    end in
  let resumed :=
    match q_startAfter q, q_orderBy q with
    | Some cursor, Some (f, dir) => List.filter (docLt f dir cursor) ordered
    | _, _ => ordered
    end in
  match q_limit q with
  | Some n => firstn (Z.to_nat n) resumed
  | None => resumed
  end.

(** What the store answers to a query besides its documents: [None] when
    it serves the query, [Some e] when it fails it with [e]. *)
Definition Policy : Type := Query -> option FirestoreErrorCode.

Definition healthy : Policy := fun _ => None.

(** A store without composite indexes: a query that combines an equality
    filter with an order-by is refused with [failed-precondition]. *)
Definition hasEqualityFilter (q : Query) : bool :=
  existsb (fun c => match c with (_, op_eq, _) => true | _ => false end) (q_where q).



Definition getDocs (store : Policy) (q : Query) (docs : list Item.t) : Promise (list Item.t) :=
  match store q with
  | Some e => Rejected e
  | None => Resolved (runQuery q docs)
  end.

(** Query builders. [limit] refuses a count that is not positive. *)
Definition collectionItems : Query :=
  {| q_where := []; q_orderBy := None; q_startAfter := None; q_limit := None |}.

Definition where_ (f : Field) (op : WhereOp) (v : Value) (q : Query) : Query :=
  {| q_where := q_where q ++ [(f, op, v)]; q_orderBy := q_orderBy q;
     q_startAfter := q_startAfter q; q_limit := q_limit q |}.

Definition orderBy (f : Field) (dir : OrderByDirection) (q : Query) : Query :=
  {| q_where := q_where q; q_orderBy := Some (f, dir);
     q_startAfter := q_startAfter q; q_limit := q_limit q |}.

Definition startAfter (cursor : Item.t) (q : Query) : Query :=
  {| q_where := q_where q; q_orderBy := q_orderBy q;
     q_startAfter := Some cursor; q_limit := q_limit q |}.

Definition limit (n : Z) (q : Query) : Promise Query :=
  if n <=? 0 then Rejected invalid_argument
  else Resolved {| q_where := q_where q; q_orderBy := q_orderBy q;
                   q_startAfter := q_startAfter q; q_limit := Some n |}.

(** ** Catalogue service *)

Inductive SortBy : Type := price_asc | price_desc | newest.

Module Page.
(** [{ items, lastVisible }]; [lastVisible] is a document snapshot or
    [null]. *)
Record t : Type := mk { items : list Item.t; lastVisible : option Item.t }.
End Page.

(** [if (categoryId)]: [null], [undefined] and the empty string are falsy. *)
Definition truthy (s : option string) : option string :=
  match s with
  | Some c => if String.eqb c EmptyString then None else Some c
  | None => None
  end.

(** The bound [""] of [searchItems], in UTF-8. *)
Definition uF8FF : string :=
  String (ascii_of_nat 239) (String (ascii_of_nat 163) (String (ascii_of_nat 191) EmptyString)).

Definition sameId (a b : Item.t) : bool := String.eqb (Item.id a) (Item.id b).

Module CartItem.
(** A row of the cart page and of the checkout page. *)
Record t : Type := mk {
  id : string;
  item_id : string;
  quantity : Z;
  item : Item.t
}.
End CartItem.

Module ItemsView.
(** The state of the listing page that its pager reads and writes. *)
Record t : Type := mk {
  items : list Item.t;
  lastVisible : option Item.t;
  hasMore : bool;
  currentPage : Z;
  selectedCategory : option string;
  sortBy : SortBy
}.
End ItemsView.

Module Category.
Record t : Type := mk {
  id : string;
  name : string;
  description : string;
  image : string;
  parent_category_id : option string;
  createdAt : string
}.
End Category.

Module DetailView.
(** The state of the page of one item that its cart button reads. *)
Record t : Type := mk { item : option Item.t; quantity : Z }.
End DetailView.

Section Platform.
(** [new Date(s).getTime()]; [None] is the [NaN] of an invalid date. *)
Variable Date_getTime : string -> option Z.
(** [new Date(s).toLocaleDateString()] in the viewer's locale and zone. *)
Variable toLocaleDateString : string -> string.

Definition subtract (x y : option Z) : option Q :=
  match x, y with
  | Some a, Some b => Some (inject_Z (a - b))
  | _, _ => None
  end.

(** The comparators handed to [items.sort] by [getItemsByCategory]. *)
Definition compareItems (sortBy : SortBy) (a b : Item.t) : option Q :=
  match sortBy with
  | price_asc => Some (Item.price a - Item.price b)%Q
  | price_desc => Some (Item.price b - Item.price a)%Q
  | newest =>
      let dateA := Date_getTime (Item.createdAt a) in
      let dateB := Date_getTime (Item.createdAt b) in
      subtract dateB dateA
  end.

Definition categoryQuery (categoryId : string) : Query :=
  where_ f_category_id op_eq (VString categoryId) collectionItems.

(** [getItemsByCategory].  The look-up of the category document that
    follows an empty snapshot only logs, and swallows its own errors. *)
Definition getItemsByCategory (store : Policy) (docs : list Item.t)
    (categoryId : string) (sortBy : SortBy) (limitCount : Z)
    (lastVisible : option Item.t) : Promise Page.t :=
  catchRethrow (
    categorySnapshot ← getDocs store (categoryQuery categoryId) docs;
    let items := sort (compareItems sortBy) categorySnapshot in
    let startIndex :=
      match lastVisible with
      | Some cursor =>
          let lastVisibleIndex := findIndex (fun item => sameId item cursor) items in
          if lastVisibleIndex =? -1 then 0 else lastVisibleIndex + 1
      | None => 0
      end in
    let paginatedItems := slice items startIndex (startIndex + limitCount) in
    let newLastVisible :=
      match lastElement paginatedItems with
      | Some lastItem => List.find (fun doc => sameId doc lastItem) categorySnapshot
      | None => None
      end in
    mret {| Page.items := paginatedItems; Page.lastVisible := newLastVisible |}).

Definition orderOf (sortBy : SortBy) : Field * OrderByDirection :=
  match sortBy with
  | price_asc => (f_price, asc)
  | price_desc => (f_price, desc)
  | newest => (f_createdAt, desc)
  end.

Definition listQuery (sortBy : SortBy) (lastVisible : option Item.t) : Query :=
  let '(orderByField, orderByDirection) := orderOf sortBy in
  let itemsQuery := orderBy orderByField orderByDirection collectionItems in
  match lastVisible with
  | Some cursor => startAfter cursor itemsQuery
  | None => itemsQuery
  end.

(** [getAllItems] *)
Definition getAllItems (store : Policy) (docs : list Item.t)
    (categoryId : option string) (sortBy : SortBy) (limitCount : Z)
    (lastVisible : option Item.t) : Promise Page.t :=
  catchRethrow (
    match truthy categoryId with
    | Some c => getItemsByCategory store docs c sortBy limitCount lastVisible
    | None =>
        itemsQuery ← limit limitCount (listQuery sortBy lastVisible);
        itemsSnapshot ← getDocs store itemsQuery docs;
        let newLastVisible := lastElement itemsSnapshot in
        mret {| Page.items := itemsSnapshot; Page.lastVisible := newLastVisible |}
    end).

Definition searchQueryOf (searchQuery : string) : Query :=
  where_ f_name op_le (VString (searchQuery ++ uF8FF))
    (where_ f_name op_ge (VString searchQuery)
      (orderBy f_name asc collectionItems)).

(** [searchItems] *)
Definition searchItems (store : Policy) (docs : list Item.t)
    (searchQuery : string) (limitCount : Z) : Promise (list Item.t) :=
  catchRethrow (
    itemsQuery ← limit limitCount (searchQueryOf searchQuery);
    getDocs store itemsQuery docs).

(** A client that walks a listing to its end: it asks for the next page
    with the cursor of the previous one until no cursor comes back, and
    appends the pages.  [fuel] bounds the number of requests. *)
Fixpoint walk (fetch : option Item.t -> Promise Page.t) (fuel : nat)
    (cursor : option Item.t) : Promise (list Item.t) :=
  match fuel with
  | O => Resolved []
  | S fuel' =>
      page ← fetch cursor;
      match Page.lastVisible page with
      | None => mret (Page.items page)
      | Some next =>
          rest ← walk fetch fuel' (Some next);
          mret (Page.items page ++ rest)
      end
  end.

Definition collectPages (fuel : nat) (store : Policy) (docs : list Item.t)
    (categoryId : option string) (sortBy : SortBy) (limitCount : Z)
    : Promise (list Item.t) :=
  walk (getAllItems store docs categoryId sortBy limitCount) fuel None.

(** The listing page ([fetchItems]): whether a next page is offered
    after a result. *)
Definition ITEMS_PER_PAGE : Z := 8.

Definition hasMore (result : Page.t) : bool :=
  Z.of_nat (length (Page.items result)) =? ITEMS_PER_PAGE.

(** The whole listing at once: every matching item, sorted the way the
    pages are. *)
Definition wholeListing (docs : list Item.t) (categoryId : option string)
    (sortBy : SortBy) : list Item.t :=
  match truthy categoryId with
  | Some c => sort (compareItems sortBy) (runQuery (categoryQuery c) docs)
  | None => runQuery (listQuery sortBy None) docs
  end.

(** ** The database: both collections *)

Record Db : Type := mkDb {
  db_items : list Item.t;
  db_checkouts : gmap string Checkout.data
}.

Definition withCheckouts (db : Db) (cs : gmap string Checkout.data) : Db :=
  {| db_items := db_items db; db_checkouts := cs |}.

(** [getDoc(doc(db, "items", id))]: the snapshot exists or not. *)
Definition getItemDoc (db : Db) (itemId : string) : option Item.t :=
  List.find (fun d => String.eqb (Item.id d) itemId) (db_items db).

(** [getItemById] *)
Definition getItemById (db : Db) (itemId : string) : Promise (option Item.t) :=
  catchRethrow (mret (getItemDoc db itemId)).

(** [addDoc(collection(db, "checkouts"), data)] under the minted id
    [docId]. *)
Definition addDoc (docId : string) (data : Checkout.data) (db : Db) : Promise string * Db :=
  (Resolved docId, withCheckouts db (<[docId := data]> (db_checkouts db))).

(** [updateDoc(doc(db, "checkouts", id), patch)]: one write of the named
    fields; a document that does not exist is not created. *)
Definition updateDoc (docId : string) (patch : Checkout.data -> Checkout.data)
    (db : Db) : Promise unit * Db :=
  match db_checkouts db !! docId with
  | Some d => (Resolved tt, withCheckouts db (<[docId := patch d]> (db_checkouts db)))
  | None => (Rejected not_found, db)
  end.

(** [deleteDoc(doc(db, "checkouts", id))] *)
Definition deleteDoc (docId : string) (db : Db) : Promise unit * Db :=
  (Resolved tt, withCheckouts db (delete docId (db_checkouts db))).

(** [getDocs] of [checkouts] with [user_id == userId] and
    [is_done == done]. *)
Definition checkoutsOf (db : Db) (userId : string) (done : bool) : list Checkout.t :=
  List.map (fun kv => Checkout.mk (fst kv) (snd kv))
    (List.filter
       (fun kv => String.eqb (Checkout.user_id (snd kv)) userId
                  && Bool.eqb (Checkout.is_done (snd kv)) done)
       (map_to_list (db_checkouts db))).

(** ** Cart and checkout service *)

(** [getCartItems] *)
Definition getCartItems (db : Db) (userId : string) : Promise (list Checkout.t) :=
  catchRethrow (mret (checkoutsOf db userId false)).

(** [addToCart]; [createdAt] and [updatedAt] each read the clock. *)
Definition addToCart (docId nowCreated nowUpdated : string)
    (userId itemId : string) (quantity : Z) (db : Db) : Promise string * Db :=
  let checkoutData :=
    {| Checkout.user_id := userId;
       Checkout.item_id := itemId;
       Checkout.quantity := quantity;
       Checkout.is_done := false;
       Checkout.last_step := "added_to_cart";
       Checkout.reason := EmptyString;
       Checkout.createdAt := nowCreated;
       Checkout.updatedAt := nowUpdated |} in
  let '(docRef, db') := addDoc docId checkoutData db in
  (catchRethrow docRef, db').

(** [updateCartItemQuantity] *)
Definition updateCartItemQuantity (now : string) (checkoutId : string)
    (quantity : Z) (db : Db) : Promise unit * Db :=
  let '(r, db') :=
    updateDoc checkoutId
      (fun d =>
         {| Checkout.user_id := Checkout.user_id d;
            Checkout.item_id := Checkout.item_id d;
            Checkout.quantity := quantity;
            Checkout.is_done := Checkout.is_done d;
            Checkout.last_step := Checkout.last_step d;
            Checkout.reason := Checkout.reason d;
            Checkout.createdAt := Checkout.createdAt d;
            Checkout.updatedAt := now |}) db in
  (catchRethrow r, db').

(** [removeFromCart] *)
Definition removeFromCart (checkoutId : string) (db : Db) : Promise unit * Db :=
  let '(r, db') := deleteDoc checkoutId db in
  (catchRethrow r, db').

(** [updateCheckoutStep] *)
Definition updateCheckoutStep (now : string) (checkoutId lastStep : string)
    (db : Db) : Promise unit * Db :=
  let '(r, db') :=
    updateDoc checkoutId
      (fun d =>
         {| Checkout.user_id := Checkout.user_id d;
            Checkout.item_id := Checkout.item_id d;
            Checkout.quantity := Checkout.quantity d;
            Checkout.is_done := Checkout.is_done d;
            Checkout.last_step := lastStep;
            Checkout.reason := Checkout.reason d;
            Checkout.createdAt := Checkout.createdAt d;
            Checkout.updatedAt := now |}) db in
  (catchRethrow r, db').

(** [completeCheckout] *)
Definition completeCheckout (now : string) (checkoutId : string)
    (db : Db) : Promise unit * Db :=
  let '(r, db') :=
    updateDoc checkoutId
      (fun d =>
         {| Checkout.user_id := Checkout.user_id d;
            Checkout.item_id := Checkout.item_id d;
            Checkout.quantity := Checkout.quantity d;
            Checkout.is_done := true;
            Checkout.last_step := "completed";
            Checkout.reason := Checkout.reason d;
            Checkout.createdAt := Checkout.createdAt d;
            Checkout.updatedAt := now |}) db in
  (catchRethrow r, db').

(** Calls of the cart and checkout service, with what each reads from
    its environment. *)
Inductive CartCall : Type :=
| CallAddToCart (docId nowCreated nowUpdated userId itemId : string) (quantity : Z)
| CallUpdateCartItemQuantity (now checkoutId : string) (quantity : Z)
| CallUpdateCheckoutStep (now checkoutId lastStep : string)
| CallCompleteCheckout (now checkoutId : string).

(** The database after a call; a rejected call leaves it as it was. *)
Definition afterCall (c : CartCall) (db : Db) : Db :=
  match c with
  | CallAddToCart docId t1 t2 u i q => snd (addToCart docId t1 t2 u i q db)
  | CallUpdateCartItemQuantity t cid q => snd (updateCartItemQuantity t cid q db)
  | CallUpdateCheckoutStep t cid s => snd (updateCheckoutStep t cid s db)
  | CallCompleteCheckout t cid => snd (completeCheckout t cid db)
  end.

Definition afterCalls (cs : list CartCall) (db : Db) : Db :=
  List.fold_left (fun d c => afterCall c d) cs db.

(** Position of a step in [added_to_cart -> payment -> completed]. *)
Definition stepRank (s : string) : option nat :=
  if String.eqb s "added_to_cart" then Some 0%nat
  else if String.eqb s "payment" then Some 1%nat
  else if String.eqb s "completed" then Some 2%nat
  else None.

(** [a] is a step of the sequence and [b] is the same or a later one. *)
Definition notBefore (a b : string) : bool :=
  match stepRank a, stepRank b with
  | Some x, Some y => (x <=? y)%nat
  | _, _ => false
  end.

(** What the callers respect: an id minted by [addDoc] is new, and
    [updateCheckoutStep] is asked for a step that is not behind the one
    the record is at. *)
Definition respectful (c : CartCall) (db : Db) : bool :=
  match c with
  | CallAddToCart docId _ _ _ _ _ =>
      match db_checkouts db !! docId with Some _ => false | None => true end
  | CallUpdateCheckoutStep _ cid s =>
      match db_checkouts db !! cid with
      | Some d => notBefore (Checkout.last_step d) s
      | None => true
      end
  | _ => true
  end.

Fixpoint respectfulCalls (cs : list CartCall) (db : Db) : bool :=
  match cs with
  | [] => true
  | c :: rest => respectful c db && respectfulCalls rest (afterCall c db)
  end.

Definition emptyDb (items : list Item.t) : Db :=
  {| db_items := items; db_checkouts := ∅ |}.

(** ** Order history of the profile page *)

(** [q || 1] on a quantity: [0] is falsy. *)
Definition orOne (q : Z) : Z := if q =? 0 then 1 else q.

(** [acc[date].push(checkout)], creating the key when it is new; the
    keys keep the order in which they were created. *)
Fixpoint pushGroup (date : string) (checkout : Checkout.t)
    (acc : list (string * list Checkout.t)) : list (string * list Checkout.t) :=
  match acc with
  | [] => [(date, [checkout])]
  | (d, cs) :: rest =>
      if String.eqb d date then (d, cs ++ [checkout]) :: rest
      else (d, cs) :: pushGroup date checkout rest
  end.

Definition dateOf (checkout : Checkout.t) : string :=
  toLocaleDateString (Checkout.updatedAt (Checkout.fields checkout)).

Definition groupedCheckouts (checkouts : list Checkout.t) : list (string * list Checkout.t) :=
  List.fold_left (fun acc checkout => pushGroup (dateOf checkout) checkout acc) checkouts [].

(** The item of one line, or [null] when the item document is gone. *)
Definition hydrate (db : Db) (checkout : Checkout.t) : option OrderItem.t :=
  match getItemDoc db (Checkout.item_id (Checkout.fields checkout)) with
  | Some itemDoc =>
      Some {| OrderItem.item := itemDoc;
              OrderItem.quantity := orOne (Checkout.quantity (Checkout.fields checkout)) |}
  | None => None
  end.

Definition sumTotal (validItems : list OrderItem.t) : Number.t :=
  List.fold_left
    (fun sum item =>
       Number.add sum
         (Number.mul (Number.ofQ (Item.price (OrderItem.item item)))
            (Number.ofZ (OrderItem.quantity item))))
    validItems Number.zero.

Definition orderOfGroup (db : Db) (group : string * list Checkout.t) : Order.t :=
  let '(date, checkouts) := group in
  let items := List.map (hydrate db) checkouts in
  let validItems := omap (fun x => x) items in
  {| Order.id := date;
     Order.items := validItems;
     Order.total := sumTotal validItems;
     Order.date := date;
     Order.status := "Completed" |}.

(** [fetchOrders] of the profile page, for the signed-in user [uid]:
    the value it hands to [setOrders]. *)
Definition fetchOrders (db : Db) (uid : string) : list Order.t :=
  let checkouts := checkoutsOf db uid true in
  match checkouts with
  | [] => []
  | _ => List.map (orderOfGroup db) (groupedCheckouts checkouts)
  end.


(** ** What the listing promises *)

(** A [createdAt] that [Date] can read. *)
Definition validDate (d : Item.t) : Prop :=
  is_Some (Date_getTime (Item.createdAt d)).

(** [a] may stand in front of [b] in a listing sorted by [sortBy]. *)
Definition inOrder (sortBy : SortBy) (a b : Item.t) : Prop :=
  match sortBy with
  | price_asc => (Item.price a <= Item.price b)%Q
  | price_desc => (Item.price b <= Item.price a)%Q
  | newest =>
      exists ta tb,
        Date_getTime (Item.createdAt a) = Some ta /\
        Date_getTime (Item.createdAt b) = Some tb /\ tb <= ta
  end.

(** The sort key of [d] is a number. *)
Definition sortable (sortBy : SortBy) (d : Item.t) : Prop :=
  match sortBy with
  | newest => validDate d
  | _ => True
  end.

Definition inCategory (categoryId : string) (d : Item.t) : bool :=
  String.eqb (Item.category_id d) categoryId.

(** Position of the cursor's id in the sorted list; [-1] without a cursor
    or when the id is not there. *)
Definition cursorIndex (lastVisible : option Item.t) (sorted : list Item.t) : Z :=
  match lastVisible with
  | Some cursor => findIndex (fun item => sameId item cursor) sorted
  | None => -1
  end.

(** The documents of a request without a category, before the limit. *)
Definition resumedFrom (sortBy : SortBy) (lastVisible : option Item.t)
    (docs : list Item.t) : list Item.t :=
  let ordered := stableSort (docLe (fst (orderOf sortBy)) (snd (orderOf sortBy))) docs in
  match lastVisible with
  | Some cursor => List.filter (docLt (fst (orderOf sortBy)) (snd (orderOf sortBy)) cursor) ordered
  | None => ordered
  end.

(** The items a listing is about: those of the category, or all of them. *)
Definition matchingItems (categoryId : option string) (docs : list Item.t) : list Item.t :=
  match truthy categoryId with
  | Some c => List.filter (inCategory c) docs
  | None => docs
  end.

(** The largest code point, U+10FFFF, in UTF-8. *)
Definition maxCodePoint : string :=
  String (ascii_of_nat 244) (String (ascii_of_nat 143)
    (String (ascii_of_nat 191) (String (ascii_of_nat 191) EmptyString))).

(** The names [searchItems] asks the store for. *)
Definition inSearchRange (searchQuery : string) (d : Item.t) : bool :=
  String.leb searchQuery (Item.name d) && String.leb (Item.name d) (searchQuery ++ uF8FF).

(** ** What the checkout records promise *)

(** A record is at a step of the sequence, and is done only at its end. *)
Definition onTrack (d : Checkout.data) : Prop :=
  is_Some (stepRank (Checkout.last_step d)) /\
  (Checkout.is_done d = true -> Checkout.last_step d = "completed").

Definition allOnTrack (db : Db) : Prop :=
  forall id d, db_checkouts db !! id = Some d -> onTrack d.

(** Every record of [db] is still in [db'], at the same step or a later
    one. *)
Definition neverBackward (db db' : Db) : Prop :=
  forall id d,
    db_checkouts db !! id = Some d ->
    exists d',
      db_checkouts db' !! id = Some d' /\
      notBefore (Checkout.last_step d) (Checkout.last_step d') = true.

(** ** What the order history promises *)

(** The completed lines of one calendar date. *)
Definition onDate (date : string) (checkout : Checkout.t) : bool :=
  String.eqb (dateOf checkout) date.

(** What a line shows in its order: its item at today's price with the
    quantity of the line, a quantity of 0 shown as 1, or nothing when the
    item is gone. *)
Definition lineItems (db : Db) (checkout : Checkout.t) : list OrderItem.t :=
  match getItemDoc db (Checkout.item_id (Checkout.fields checkout)) with
  | Some itemDoc =>
      [ {| OrderItem.item := itemDoc;
           OrderItem.quantity := orOne (Checkout.quantity (Checkout.fields checkout)) |} ]
  | None => []
  end.

(** What a line adds to the total of its order: the product, in doubles,
    of today's price and that quantity; nothing when the item is gone. *)
Definition lineTotal (db : Db) (checkout : Checkout.t) : option Number.t :=
  match getItemDoc db (Checkout.item_id (Checkout.fields checkout)) with
  | Some itemDoc =>
      Some (Number.mul (Number.ofQ (Item.price itemDoc))
              (Number.ofZ (orOne (Checkout.quantity (Checkout.fields checkout)))))
  | None => None
  end.

(** The sum in doubles, from 0 and in the order of the lines, of what the
    lines add. *)
Definition sumOver (f : Checkout.t -> option Number.t) (lines : list Checkout.t) : Number.t :=
  List.fold_left
    (fun acc line => match f line with Some x => Number.add acc x | None => acc end)
    lines Number.zero.

(** The sum of price times quantity as a sum of rationals, with the
    quantity as it is stored: what the total would be without rounding
    and without the default of the quantity. *)
Definition exactSum (db : Db) (lines : list Checkout.t) : Q :=
  List.fold_right
    (fun line acc =>
       match getItemDoc db (Checkout.item_id (Checkout.fields line)) with
       | Some itemDoc =>
           (Item.price itemDoc * inject_Z (Checkout.quantity (Checkout.fields line)) + acc)%Q
       | None => acc
       end)
    0%Q lines.

(** ** A small shop

    The catalogue of the seed script, with ids and dates filled in, for
    evaluating the services on concrete inputs. *)

Definition seedItem (id name : string) (price : Q) (category createdAt : string) : Item.t :=
  {| Item.id := id; Item.name := name; Item.description := EmptyString;
     Item.price := price; Item.bannerImage := EmptyString; Item.images := [];
     Item.category_id := category; Item.createdAt := createdAt |}.

Definition iPhone : Item.t :=
  seedItem "item1" "iPhone 15 Pro" (99999 # 100) "phones" "2024-01-01T00:00:00.000Z".
Definition galaxy : Item.t :=
  seedItem "item2" "Samsung Galaxy S24" (89999 # 100) "phones" "2024-01-02T00:00:00.000Z".
Definition macBook : Item.t :=
  seedItem "item3" "MacBook Pro 16" (249999 # 100) "laptops" "2024-01-03T00:00:00.000Z".
Definition dellXps : Item.t :=
  seedItem "item4" "Dell XPS 15" (189999 # 100) "laptops" "2024-01-04T00:00:00.000Z".

Definition seedItems : list Item.t := [iPhone; galaxy; macBook; dellXps].

(** [Date.getTime] on the dates of the seed, in milliseconds. *)
Definition seedGetTime (s : string) : option Z :=
  if String.eqb s "2024-01-01T00:00:00.000Z" then Some 1704067200000
  else if String.eqb s "2024-01-02T00:00:00.000Z" then Some 1704153600000
  else if String.eqb s "2024-01-03T00:00:00.000Z" then Some 1704240000000
  else if String.eqb s "2024-01-04T00:00:00.000Z" then Some 1704326400000
  else None.

(** [toLocaleDateString] of a viewer whose locale writes [YYYY-MM-DD], in
    UTC. *)
Definition seedLocaleDate (s : string) : string := String.substring 0 10 s.

(** A store whose index on the filtered field is switched off: it refuses
    every query that has an equality filter with [failed-precondition]. *)
Definition filterIndexOff : Policy :=
  fun q => if hasEqualityFilter q then Some failed_precondition else None.

(** A visit of the shop: two phones go into the cart, the cart proceeds
    to payment, and the payment completes. *)
Definition visit : list CartCall :=
  [ CallAddToCart "line1" "2024-02-01T10:00:00.000Z" "2024-02-01T10:00:00.001Z"
      "alice" "item1" 2;
    CallAddToCart "line2" "2024-02-01T10:01:00.000Z" "2024-02-01T10:01:00.000Z"
      "alice" "item2" 1;
    CallUpdateCartItemQuantity "2024-02-01T10:02:00.000Z" "line2" 3;
    CallUpdateCheckoutStep "2024-02-01T10:03:00.000Z" "line1" "payment";
    CallUpdateCheckoutStep "2024-02-01T10:03:00.000Z" "line2" "payment" ].

Definition payment : list CartCall :=
  [ CallCompleteCheckout "2024-02-01T10:05:00.000Z" "line1";
    CallCompleteCheckout "2024-02-01T10:05:00.000Z" "line2" ].

(** A completed line is sent back to the first step. *)
Definition rewind : list CartCall :=
  [ CallAddToCart "line1" "2024-02-01T10:00:00.000Z" "2024-02-01T10:00:00.000Z"
      "alice" "item1" 2;
    CallCompleteCheckout "2024-02-01T10:05:00.000Z" "line1";
    CallUpdateCheckoutStep "2024-02-01T10:06:00.000Z" "line1" "added_to_cart" ].

(** A line is added with the quantity 0 and paid. *)
Definition gift : list CartCall :=
  [ CallAddToCart "line1" "2024-02-01T10:00:00.000Z" "2024-02-01T10:00:00.000Z"
      "alice" "item1" 0;
    CallCompleteCheckout "2024-02-01T10:05:00.000Z" "line1" ].

(** * More of the storefront *)

(** ** Reading the checkouts collection *)

(** Every document of the collection, in the order of the store. *)
Definition allCheckouts (db : Db) : list Checkout.t :=
  List.map (fun kv => Checkout.mk (fst kv) (snd kv)) (map_to_list (db_checkouts db)).

(** The document [docId] rewritten by [patch], any other left alone. *)
Definition patched (docId : string) (patch : Checkout.data -> Checkout.data)
    (line : Checkout.t) : Checkout.t :=
  if String.eqb (Checkout.id line) docId
  then Checkout.mk (Checkout.id line) (patch (Checkout.fields line))
  else line.

(** ** The cart page *)

(** The row of one line: [getItemById] finds the item, or the line is
    dropped. *)
Definition cartRow (db : Db) (checkout : Checkout.t) : option CartItem.t :=
  match getItemDoc db (Checkout.item_id (Checkout.fields checkout)) with
  | Some item =>
      Some {| CartItem.id := Checkout.id checkout;
              CartItem.item_id := Checkout.item_id (Checkout.fields checkout);
              CartItem.quantity := orOne (Checkout.quantity (Checkout.fields checkout));
              CartItem.item := item |}
  | None => None
  end.

(** [fetchCartItems] of the cart page: the rows it hands to
    [setCartItems]; after a failure the rows stay as they are. *)
Definition fetchCartItems (db : Db) (user : option string)
    (cartItems : list CartItem.t) : list CartItem.t :=
  match user with
  | None => []
  | Some uid =>
      match getCartItems db uid with
      | Resolved checkouts => omap (cartRow db) checkouts
      | Rejected _ => cartItems
      end
  end.

(** [fetchCartCount] of the header: the number on the cart badge. *)
Definition fetchCartCount (db : Db) (uid : string) : nat :=
  length (checkoutsOf db uid false).

(** [calculateTotal] of the cart page and of the checkout page. *)
Definition calculateTotal (cartItems : list CartItem.t) : Number.t :=
  List.fold_left
    (fun total item =>
       Number.add total
         (Number.mul (Number.ofQ (Item.price (CartItem.item item)))
            (Number.ofZ (CartItem.quantity item))))
    cartItems Number.zero.

Definition withQuantity (newQuantity : Z) (item : CartItem.t) : CartItem.t :=
  {| CartItem.id := CartItem.id item;
     CartItem.item_id := CartItem.item_id item;
     CartItem.quantity := newQuantity;
     CartItem.item := CartItem.item item |}.

(** [handleQuantityChange]: the database and the rows afterwards. *)
Definition handleQuantityChange (now cartItemId : string) (newQuantity : Z)
    (db : Db) (cartItems : list CartItem.t) : Db * list CartItem.t :=
  if newQuantity <? 1 then (db, cartItems)
  else
    match updateCartItemQuantity now cartItemId newQuantity db with
    | (Resolved _, db') =>
        (db', List.map
                (fun item =>
                   if String.eqb (CartItem.id item) cartItemId
                   then withQuantity newQuantity item else item)
                cartItems)
    | (Rejected _, db') => (db', cartItems)
    end.

(** [handleRemoveItem] *)
Definition handleRemoveItem (cartItemId : string)
    (db : Db) (cartItems : list CartItem.t) : Db * list CartItem.t :=
  match removeFromCart cartItemId db with
  | (Resolved _, db') =>
      (db', List.filter (fun item => negb (String.eqb (CartItem.id item) cartItemId))
              cartItems)
  | (Rejected _, db') => (db', cartItems)
  end.

(** [Promise.all] over writes to the store: every write is issued; the
    whole is rejected when one of them is, and the others stay written.
    The writes of a batch go to different documents, so the order in which
    the store takes them does not show. *)
Definition promiseAll (writes : list (Db -> Promise unit * Db)) (db : Db)
    : Promise unit * Db :=
  List.fold_left
    (fun acc write =>
       let '(settled, d) := acc in
       let '(r, d') := write d in
       (match settled with Rejected e => Rejected e | Resolved _ => r end, d'))
    writes (Resolved tt, db).

(** [handleProceedToCheckout]; [now] is the clock reading of the write to
    each line. *)
Definition handleProceedToCheckout (now : string -> string)
    (cartItems : list CartItem.t) (db : Db) : Promise unit * Db :=
  promiseAll
    (List.map (fun item => updateCheckoutStep (now (CartItem.id item)) (CartItem.id item) "payment")
       cartItems)
    db.

(** ** The checkout page *)

(** The lines the checkout page asks for: of the user, not done, at the
    step [payment]. *)
Definition paymentLines (db : Db) (uid : string) : list Checkout.t :=
  List.filter
    (fun line => String.eqb (Checkout.last_step (Checkout.fields line)) "payment")
    (checkoutsOf db uid false).

(** [fetchCartItems] of the checkout page. *)
Definition fetchCheckoutItems (db : Db) (uid : string) : list CartItem.t :=
  omap (cartRow db) (paymentLines db uid).

(** [onSubmit] of the checkout page, after the pause that stands for the
    payment. *)
Definition onSubmit (now : string -> string) (cartItems : list CartItem.t) (db : Db)
    : Promise unit * Db :=
  promiseAll
    (List.map
       (fun item =>
          updateDoc (CartItem.id item)
            (fun d =>
               {| Checkout.user_id := Checkout.user_id d;
                  Checkout.item_id := Checkout.item_id d;
                  Checkout.quantity := Checkout.quantity d;
                  Checkout.is_done := true;
                  Checkout.last_step := "completed";
                  Checkout.reason := Checkout.reason d;
                  Checkout.createdAt := Checkout.createdAt d;
                  Checkout.updatedAt := now (CartItem.id item) |}))
       cartItems)
    db.

(** The documents named in [ids] rewritten, each by the patch for its
    id. *)
Definition patchedAll (ids : list string) (patch : string -> Checkout.data -> Checkout.data)
    (line : Checkout.t) : Checkout.t :=
  if existsb (String.eqb (Checkout.id line)) ids
  then Checkout.mk (Checkout.id line) (patch (Checkout.id line) (Checkout.fields line))
  else line.

(** The line of an order that a row of the checkout page becomes. *)
Definition orderItemOfRow (row : CartItem.t) : OrderItem.t :=
  {| OrderItem.item := CartItem.item row; OrderItem.quantity := CartItem.quantity row |}.

(** The outcome of two awaited writes: the first rejection wins. *)
Definition settle (first rest : Promise unit) : Promise unit :=
  match first with Rejected e => Rejected e | Resolved _ => rest end.

(** [updateCheckoutStep] and the submit of the checkout page, as patches
    of a document. *)
Definition stepPatch (now : string -> string) (lastStep : string) (docId : string)
    (d : Checkout.data) : Checkout.data :=
  {| Checkout.user_id := Checkout.user_id d;
     Checkout.item_id := Checkout.item_id d;
     Checkout.quantity := Checkout.quantity d;
     Checkout.is_done := Checkout.is_done d;
     Checkout.last_step := lastStep;
     Checkout.reason := Checkout.reason d;
     Checkout.createdAt := Checkout.createdAt d;
     Checkout.updatedAt := now docId |}.

Definition submitPatch (now : string -> string) (docId : string)
    (d : Checkout.data) : Checkout.data :=
  {| Checkout.user_id := Checkout.user_id d;
     Checkout.item_id := Checkout.item_id d;
     Checkout.quantity := Checkout.quantity d;
     Checkout.is_done := true;
     Checkout.last_step := "completed";
     Checkout.reason := Checkout.reason d;
     Checkout.createdAt := Checkout.createdAt d;
     Checkout.updatedAt := now docId |}.

(** ** The listing page *)

(** The state the page is mounted with. *)
Definition firstView (categoryId : option string) (sortBy : SortBy) : ItemsView.t :=
  {| ItemsView.items := [];
     ItemsView.lastVisible := None;
     ItemsView.hasMore := true;
     ItemsView.currentPage := 1;
     ItemsView.selectedCategory := categoryId;
     ItemsView.sortBy := sortBy |}.

(** What [fetchItems] does with a result. *)
Definition shownResult (v : ItemsView.t) (result : Page.t) : ItemsView.t :=
  if Z.of_nat (length (Page.items result)) =? 0 then
    {| ItemsView.items := [];
       ItemsView.lastVisible := ItemsView.lastVisible v;
       ItemsView.hasMore := false;
       ItemsView.currentPage := ItemsView.currentPage v;
       ItemsView.selectedCategory := ItemsView.selectedCategory v;
       ItemsView.sortBy := ItemsView.sortBy v |}
  else
    {| ItemsView.items :=
         if ItemsView.currentPage v =? 1 then Page.items result
         else ItemsView.items v ++ Page.items result;
       ItemsView.lastVisible := Page.lastVisible result;
       ItemsView.hasMore := hasMore result;
       ItemsView.currentPage := ItemsView.currentPage v;
       ItemsView.selectedCategory := ItemsView.selectedCategory v;
       ItemsView.sortBy := ItemsView.sortBy v |}.

(** The page once [setSelectedCategory(null)] has been rendered: the
    effect that resets the pagination has run. *)
Definition withoutCategory (v : ItemsView.t) : ItemsView.t :=
  {| ItemsView.items := [];
     ItemsView.lastVisible := None;
     ItemsView.hasMore := ItemsView.hasMore v;
     ItemsView.currentPage := 1;
     ItemsView.selectedCategory := None;
     ItemsView.sortBy := ItemsView.sortBy v |}.

(** [fetchItems]: the state once the page has settled, on a page that is
    still mounted.  After a failure with a category selected the category
    is cleared; the page renders again, the pagination is reset, and the
    fetch runs once more, now without a category (a fetch that was started
    before the reset is discarded by its clean-up).  After a failure
    without a category nothing changes. *)
Definition fetchItems (store : Policy) (docs : list Item.t) (v : ItemsView.t)
    : ItemsView.t :=
  match getAllItems store docs (ItemsView.selectedCategory v) (ItemsView.sortBy v)
          ITEMS_PER_PAGE
          (if 1 <? ItemsView.currentPage v then ItemsView.lastVisible v else None) with
  | Resolved result => shownResult v result
  | Rejected _ =>
      match truthy (ItemsView.selectedCategory v) with
      | Some _ =>
          match getAllItems store docs None (ItemsView.sortBy v) ITEMS_PER_PAGE None with
          | Resolved result => shownResult (withoutCategory v) result
          | Rejected _ => withoutCategory v
          end
      | None => v
      end
  end.

Definition setPage (currentPage : Z) (lastVisible : option Item.t) (v : ItemsView.t)
    : ItemsView.t :=
  {| ItemsView.items := ItemsView.items v;
     ItemsView.lastVisible := lastVisible;
     ItemsView.hasMore := ItemsView.hasMore v;
     ItemsView.currentPage := currentPage;
     ItemsView.selectedCategory := ItemsView.selectedCategory v;
     ItemsView.sortBy := ItemsView.sortBy v |}.

(** [loadNextPage] *)
Definition loadNextPage (v : ItemsView.t) : ItemsView.t :=
  if ItemsView.hasMore v
  then setPage (ItemsView.currentPage v + 1) (ItemsView.lastVisible v) v
  else v.

(** [loadPreviousPage] *)
Definition loadPreviousPage (v : ItemsView.t) : ItemsView.t :=
  if 1 <? ItemsView.currentPage v then setPage 1 None v else v.

(** [goToPage] *)
Definition goToPage (page : Z) (v : ItemsView.t) : ItemsView.t :=
  if page =? 1 then setPage 1 None v
  else if ItemsView.currentPage v <? page
       then setPage (ItemsView.currentPage v + 1) (ItemsView.lastVisible v) v
       else setPage 1 None v.

(** A click on the pager and what follows it: the effect that holds
    [fetchItems] runs again when [currentPage] has changed (a click changes
    neither the category nor the sort, the other two of its dependencies).
    The click waits for the fetch before it to settle. *)
Definition turnPage (store : Policy) (docs : list Item.t)
    (click : ItemsView.t -> ItemsView.t) (v : ItemsView.t) : ItemsView.t :=
  let v' := click v in
  if ItemsView.currentPage v' =? ItemsView.currentPage v then v'
  else fetchItems store docs v'.

(** The page after its first fetch and [clicks] clicks on next. *)
Fixpoint browse (store : Policy) (docs : list Item.t) (categoryId : option string)
    (sortBy : SortBy) (clicks : nat) : ItemsView.t :=
  match clicks with
  | O => fetchItems store docs (firstView categoryId sortBy)
  | S n => turnPage store docs loadNextPage (browse store docs categoryId sortBy n)
  end.

(** The page with the first [pages] pages of [whole] on it and the pager
    on the last of them. *)
Definition shown (whole : list Item.t) (pages : nat) (categoryId : option string)
    (sortBy : SortBy) : ItemsView.t :=
  let loaded := firstn (Z.to_nat ITEMS_PER_PAGE * pages) whole in
  {| ItemsView.items := loaded;
     ItemsView.lastVisible := lastElement loaded;
     ItemsView.hasMore := (Z.to_nat ITEMS_PER_PAGE * pages <=? length whole)%nat;
     ItemsView.currentPage := Z.of_nat pages;
     ItemsView.selectedCategory := categoryId;
     ItemsView.sortBy := sortBy |}.

(** The page after a fetch that found nothing: the list is emptied and no
    next page is offered; the cursor stays. *)
Definition emptied (currentPage : Z) (lastVisible : option Item.t)
    (categoryId : option string) (sortBy : SortBy) : ItemsView.t :=
  {| ItemsView.items := [];
     ItemsView.lastVisible := lastVisible;
     ItemsView.hasMore := false;
     ItemsView.currentPage := currentPage;
     ItemsView.selectedCategory := categoryId;
     ItemsView.sortBy := sortBy |}.

(** ** The administration pages *)

(** [getDocs] of [checkouts] with [item_id == itemId] and
    [is_done == false]. *)
Definition activeCheckoutsOfItem (db : Db) (itemId : string) : list Checkout.t :=
  List.filter
    (fun line => String.eqb (Checkout.item_id (Checkout.fields line)) itemId
                 && Bool.eqb (Checkout.is_done (Checkout.fields line)) false)
    (allCheckouts db).

(** [deleteDoc(doc(db, "items", id))] *)
Definition deleteItemDoc (itemId : string) (db : Db) : Db :=
  {| db_items := List.filter (fun d => negb (String.eqb (Item.id d) itemId)) (db_items db);
     db_checkouts := db_checkouts db |}.

(** [handleDeleteItem] of the items administration: the database
    afterwards. *)
Definition handleDeleteItem (selectedItem : option Item.t) (db : Db) : Db :=
  match selectedItem with
  | None => db
  | Some item =>
      match activeCheckoutsOfItem db (Item.id item) with
      | [] => deleteItemDoc (Item.id item) db
      | _ :: _ => db
      end
  end.

(** [handleUpdateOrderStatus] of the orders administration: the database
    afterwards; a rejected write is reported and changes nothing. *)
Definition handleUpdateOrderStatus (now orderId : string) (isDone : bool) (db : Db) : Db :=
  snd (updateDoc orderId
         (fun d =>
            {| Checkout.user_id := Checkout.user_id d;
               Checkout.item_id := Checkout.item_id d;
               Checkout.quantity := Checkout.quantity d;
               Checkout.is_done := isDone;
               Checkout.last_step := if isDone then "completed" else "processing";
               Checkout.reason := Checkout.reason d;
               Checkout.createdAt := Checkout.createdAt d;
               Checkout.updatedAt := now |})
         db).

(** [getDocs] of [categories] with [parent_category_id == parentId]; a
    category without a parent holds [null] there. *)
Definition subcategoriesOf (categories : list Category.t) (parentId : string)
    : list Category.t :=
  List.filter
    (fun c => match Category.parent_category_id c with
              | Some p => String.eqb p parentId
              | None => false
              end)
    categories.

(** [handleDeleteCategory] of the categories administration: the
    categories afterwards. *)
Definition handleDeleteCategory (selectedCategory : option Category.t)
    (items : list Item.t) (categories : list Category.t) : list Category.t :=
  match selectedCategory with
  | None => categories
  | Some selected =>
      match List.filter (inCategory (Category.id selected)) items with
      | _ :: _ => categories
      | [] =>
          match subcategoriesOf categories (Category.id selected) with
          | _ :: _ => categories
          | [] =>
              List.filter (fun c => negb (String.eqb (Category.id c) (Category.id selected)))
                categories
          end
      end
  end.

(** The category document [categoryId] exists. *)
Definition categoryExists (categories : list Category.t) (categoryId : string) : Prop :=
  exists c, In c categories /\ Category.id c = categoryId.

(** ** The page of one item *)

(** The state the page is mounted with. *)
Definition detailView : DetailView.t :=
  {| DetailView.item := None; DetailView.quantity := 1 |}.

(** [fetchItemDetails] for the [id] of the address: without an id
    nothing is fetched; an item that is not found, or a failure, leaves
    the state as it is. *)
Definition fetchItemDetails (db : Db) (paramsId : option string) (v : DetailView.t)
    : DetailView.t :=
  match truthy paramsId with
  | None => v
  | Some itemId =>
      match getItemById db itemId with
      | Resolved (Some itemData) =>
          {| DetailView.item := Some itemData; DetailView.quantity := DetailView.quantity v |}
      | Resolved None => v
      | Rejected _ => v
      end
  end.

(** [handleQuantityChange] of the page of one item. *)
Definition setQuantity (value : Z) (v : DetailView.t) : DetailView.t :=
  if value <? 1 then v
  else {| DetailView.item := DetailView.item v; DetailView.quantity := value |}.

(** [handleAddToCart]: the database afterwards. *)
Definition handleAddToCart (docId nowCreated nowUpdated : string) (user : option string)
    (v : DetailView.t) (db : Db) : Db :=
  match user with
  | None => db
  | Some uid =>
      match DetailView.item v with
      | None => db
      | Some item =>
          snd (addToCart docId nowCreated nowUpdated uid (Item.id item)
                 (DetailView.quantity v) db)
      end
  end.

(** ** More sample data *)

(** The shop after the visit: both lines of the cart are at the step
    [payment]. *)
Definition atPayment : Db := afterCalls visit (emptyDb seedItems).

(** The first line of the cart at that point. *)
Definition line1AtPayment : Checkout.data :=
  {| Checkout.user_id := "alice";
     Checkout.item_id := "item1";
     Checkout.quantity := 2;
     Checkout.is_done := false;
     Checkout.last_step := "payment";
     Checkout.reason := EmptyString;
     Checkout.createdAt := "2024-02-01T10:00:00.000Z";
     Checkout.updatedAt := "2024-02-01T10:03:00.000Z" |}.

(** The shop after the payment, and the first line as an order. *)
Definition afterPayment : Db := afterCalls (visit ++ payment) (emptyDb seedItems).

Definition line1Completed : Checkout.data :=
  {| Checkout.user_id := "alice";
     Checkout.item_id := "item1";
     Checkout.quantity := 2;
     Checkout.is_done := true;
     Checkout.last_step := "completed";
     Checkout.reason := EmptyString;
     Checkout.createdAt := "2024-02-01T10:00:00.000Z";
     Checkout.updatedAt := "2024-02-01T10:05:00.000Z" |}.

(** A catalogue of exactly one full page. *)
Definition eightItems : list Item.t :=
  seedItems ++
  [ seedItem "item5" "Pixel 8" (69999 # 100) "phones" "2024-01-05T00:00:00.000Z";
    seedItem "item6" "ThinkPad X1" (159999 # 100) "laptops" "2024-01-06T00:00:00.000Z";
    seedItem "item7" "OnePlus 12" (79999 # 100) "phones" "2024-01-07T00:00:00.000Z";
    seedItem "item8" "Surface Laptop" (129999 # 100) "laptops" "2024-01-08T00:00:00.000Z" ].

(** A listing page on its second page. *)
Definition onPageTwo : ItemsView.t :=
  {| ItemsView.items := seedItems;
     ItemsView.lastVisible := Some dellXps;
     ItemsView.hasMore := false;
     ItemsView.currentPage := 2;
     ItemsView.selectedCategory := None;
     ItemsView.sortBy := price_asc |}.

(** * Properties *)

Set Default Proof Using "Type".

(** ** Arrays *)

Lemma findIndexFrom_absent {A : Type} (i : Z) (p : A -> bool) (l : list A) :
  (forall x, In x l -> p x = false) -> findIndexFrom i p l = -1.
Proof.
  revert i. induction l as [|x t IH]; intros i Hall; simpl; [reflexivity|].
  rewrite (Hall x (or_introl eq_refl)). apply IH.
  intros y Hy. apply Hall. now right.
Qed.

Lemma findIndexFrom_first {A : Type} (i : Z) (p : A -> bool) (l1 l2 : list A) (x : A) :
  (forall y, In y l1 -> p y = false) -> p x = true ->
  findIndexFrom i p (l1 ++ x :: l2) = i + Z.of_nat (length l1).
Proof.
  revert i. induction l1 as [|y t IH]; intros i Hall Hx; simpl.
  - rewrite Hx. lia.
  - rewrite (Hall y (or_introl eq_refl)).
    rewrite IH; [lia| |assumption].
    intros z Hz. apply Hall. now right.
Qed.

Lemma findIndexFrom_range {A : Type} (i : Z) (p : A -> bool) (l : list A) :
  findIndexFrom i p l = -1 \/
  i <= findIndexFrom i p l < i + Z.of_nat (length l).
Proof.
  revert i. induction l as [|x t IH]; intros i; simpl; [now left|].
  destruct (p x); [right; lia|].
  destruct (IH (i + 1)) as [H|H]; [now left|right; lia].
Qed.

Lemma slice_window {A : Type} (l : list A) (s n : Z) :
  0 <= s -> 0 <= n ->
  slice l s (s + n) = firstn (Z.to_nat n) (skipn (Z.to_nat s) l).
Proof.
  intros Hs Hn. unfold slice, relativeIndex.
  destruct (Z.ltb_spec s 0) as [?|_]; [lia|].
  destruct (Z.ltb_spec (s + n) 0) as [?|_]; [lia|].
  set (len := Z.of_nat (length l)).
  destruct (Z.le_gt_cases s len) as [Hle|Hgt].
  - rewrite (Z.min_l s len) by lia.
    destruct (Z.le_gt_cases (s + n) len) as [Hle'|Hgt'].
    + rewrite Z.min_l by lia. f_equal. lia.
    + rewrite Z.min_r by lia.
      rewrite !firstn_all2; [reflexivity| |]; rewrite length_skipn; subst len; lia.
  - rewrite !Z.min_r by lia. rewrite Z.sub_diag. simpl.
    rewrite !skipn_all2 by (subst len; lia). now rewrite !firstn_nil.
Qed.

Lemma lastElement_snoc {A : Type} (l : list A) (x : A) :
  lastElement (l ++ [x]) = Some x.
Proof.
  unfold lastElement. rewrite List.map_app. simpl. apply List.last_last.
Qed.

Lemma lastElement_empty {A : Type} (l : list A) :
  lastElement l = None <-> l = [].
Proof.
  split; [|intros ->; reflexivity].
  destruct l as [|x t] using rev_ind; [reflexivity|].
  rewrite lastElement_snoc. discriminate.
Qed.

Lemma lastElement_some {A : Type} (l : list A) (x : A) :
  lastElement l = Some x -> exists l', l = l' ++ [x].
Proof.
  destruct l as [|y t] using rev_ind; [discriminate|].
  rewrite lastElement_snoc. intros [= ->]. now exists t.
Qed.

(** ** Sorting *)

Lemma insertSorted_Permutation {A : Type} (le : A -> A -> bool) (x : A) (l : list A) :
  Permutation (insertSorted le x l) (x :: l).
Proof.
  induction l as [|y t IH]; simpl; [reflexivity|].
  destruct (le x y); [reflexivity|].
  rewrite IH. apply perm_swap.
Qed.

Lemma stableSort_Permutation {A : Type} (le : A -> A -> bool) (l : list A) :
  Permutation (stableSort le l) l.
Proof.
  induction l as [|x t IH]; simpl; [reflexivity|].
  fold (stableSort le t). rewrite insertSorted_Permutation. now constructor.
Qed.

Lemma stableSort_In {A : Type} (le : A -> A -> bool) (l : list A) (x : A) :
  In x (stableSort le l) <-> In x l.
Proof.
  split; apply Permutation_in;
    [apply stableSort_Permutation | symmetry; apply stableSort_Permutation].
Qed.

Lemma stableSort_length {A : Type} (le : A -> A -> bool) (l : list A) :
  length (stableSort le l) = length l.
Proof. apply Permutation_length, stableSort_Permutation. Qed.

(** A list that is in order already is left as it is. *)
Lemma stableSort_fixed {A : Type} (le : A -> A -> bool) (l : list A) :
  StronglySorted (fun a b => le a b = true) l -> stableSort le l = l.
Proof.
  induction 1 as [|x t Ht IH Hx]; [reflexivity|].
  cbn. fold (stableSort le t). rewrite IH.
  destruct t as [|y t']; [reflexivity|]. cbn.
  now rewrite (Forall_inv Hx).
Qed.

Section SortedOutput.
Context {A : Type} (le : A -> A -> bool) (R : A -> A -> Prop) (P : A -> Prop).
(** On the elements that satisfy [P], [le] decides a total preorder [R]. *)
Hypothesis le_sound : forall a b, P a -> P b -> le a b = true -> R a b.
Hypothesis le_total : forall a b, P a -> P b -> le a b = false -> R b a.
Hypothesis R_trans : forall a b c, P a -> P b -> P c -> R a b -> R b c -> R a c.

Lemma insertSorted_StronglySorted (x : A) (l : list A) :
  P x -> Forall P l -> StronglySorted R l -> StronglySorted R (insertSorted le x l).
Proof using le_sound le_total R_trans.
  intros Px Pl Hs. induction Hs as [|y t Ht IH Hy]; simpl.
  - repeat constructor.
  - apply Forall_cons_1 in Pl as [Py Pt].
    destruct (le x y) eqn:Hxy.
    + constructor; [now constructor|].
      constructor; [now apply le_sound|].
      rewrite List.Forall_forall in Hy, Pt |- *. intros z Hz.
      apply (R_trans x y z); auto.
    + constructor; [now apply IH|].
      rewrite List.Forall_forall in Hy |- *. intros z Hz.
      apply (Permutation_in _ (insertSorted_Permutation le x t)) in Hz.
      destruct Hz as [<-|Hz]; [now apply le_total|now apply Hy].
Qed.

Lemma stableSort_StronglySorted (l : list A) :
  Forall P l -> StronglySorted R (stableSort le l).
Proof using le_sound le_total R_trans.
  induction l as [|x t IH]; intros Pl; simpl; [constructor|].
  apply Forall_cons_1 in Pl as [Px Pt]. fold (stableSort le t).
  apply insertSorted_StronglySorted; auto.
  rewrite List.Forall_forall in Pt |- *. intros z Hz.
  apply Pt. now apply stableSort_In in Hz.
Qed.
End SortedOutput.

Lemma In_firstn_elim {A : Type} (n : nat) (l : list A) (x : A) :
  In x (firstn n l) -> In x l.
Proof.
  intros H. rewrite <- (firstn_skipn n l). apply in_or_app. now left.
Qed.

Lemma In_skipn_elim {A : Type} (n : nat) (l : list A) (x : A) :
  In x (skipn n l) -> In x l.
Proof.
  intros H. rewrite <- (firstn_skipn n l). apply in_or_app. now right.
Qed.

(** A window of a sorted list is sorted. *)
Lemma StronglySorted_window {A : Type} (R : A -> A -> Prop) (l : list A) (s n : nat) :
  StronglySorted R l -> StronglySorted R (firstn n (skipn s l)).
Proof.
  intros Hs.
  assert (Hd : StronglySorted R (skipn s l)).
  { revert l Hs. induction s as [|s IH]; intros l Hs; [assumption|].
    destruct l as [|x t]; [constructor|]. simpl. apply IH.
    now inversion Hs. }
  revert Hd. generalize (skipn s l). clear. intros l. revert n.
  induction l as [|x t IH]; intros n Hs; destruct n; simpl; try constructor.
  - apply IH. now inversion Hs.
  - inversion Hs as [|? ? _ Hx]; subst.
    rewrite List.Forall_forall in Hx |- *. intros z Hz. apply Hx.
    eapply In_firstn_elim; eauto.
Qed.

(** ** Promises *)

Lemma catchRethrow_id {A : Type} (m : Promise A) : catchRethrow m = m.
Proof. now destruct m. Qed.

(** ** Strings and values of the store *)

Lemma String_compare_refl (s : string) : String.compare s s = Eq.
Proof.
  pose proof (String.compare_antisym s s) as H.
  destruct (String.compare s s); simpl in H; congruence.
Qed.

Lemma String_compare_Eq (s t : string) : String.compare s t = Eq <-> s = t.
Proof.
  split; [apply String.compare_eq_iff|intros ->; apply String_compare_refl].
Qed.

Lemma satisfies_category (c : string) (d : Item.t) :
  satisfies d (f_category_id, op_eq, VString c) = inCategory c d.
Proof.
  unfold satisfies, inCategory; simpl.
  destruct (String.eqb_spec (Item.category_id d) c) as [->|Hne].
  - now rewrite String_compare_refl.
  - destruct (String.compare (Item.category_id d) c) eqn:E; try reflexivity.
    now apply String_compare_Eq in E.
Qed.

Lemma runQuery_categoryQuery (c : string) (docs : list Item.t) :
  runQuery (categoryQuery c) docs = List.filter (inCategory c) docs.
Proof.
  unfold runQuery, categoryQuery, where_, collectionItems.
  cbn [q_where q_orderBy q_startAfter q_limit app].
  apply List.filter_ext. intros d. cbn [forallb].
  rewrite satisfies_category. apply andb_true_r.
Qed.

(** ** Order of the in-memory sort *)

Lemma notGreater_sound (sortBy : SortBy) (a b : Item.t) :
  sortable sortBy a -> sortable sortBy b ->
  notGreater (compareItems sortBy) a b = true -> inOrder sortBy a b.
Proof.
  unfold notGreater, compareItems, inOrder, sortable, validDate.
  destruct sortBy; intros Ha Hb H.
  - apply Qle_bool_iff in H. lra.
  - apply Qle_bool_iff in H. lra.
  - destruct Ha as [ta Ha], Hb as [tb Hb]. rewrite Ha, Hb in H |- *. simpl in H.
    apply Qle_bool_iff in H. exists ta, tb. repeat split.
    change 0%Q with (inject_Z 0) in H. rewrite <- Zle_Qle in H. lia.
Qed.

Lemma notGreater_total (sortBy : SortBy) (a b : Item.t) :
  sortable sortBy a -> sortable sortBy b ->
  notGreater (compareItems sortBy) a b = false -> inOrder sortBy b a.
Proof.
  unfold notGreater, compareItems, inOrder, sortable, validDate.
  destruct sortBy; intros Ha Hb H.
  - destruct (Qlt_le_dec 0 (Item.price a - Item.price b)) as [Hlt|Hle]; [lra|].
    apply Qle_bool_iff in Hle. congruence.
  - destruct (Qlt_le_dec 0 (Item.price b - Item.price a)) as [Hlt|Hle]; [lra|].
    apply Qle_bool_iff in Hle. congruence.
  - destruct Ha as [ta Ha], Hb as [tb Hb]. rewrite Ha, Hb in H |- *. simpl in H.
    exists tb, ta. repeat split.
    destruct (Z.le_gt_cases ta tb) as [Hle|Hgt]; [assumption|].
    assert (Hq : (inject_Z (tb - ta) <= 0)%Q).
    { change 0%Q with (inject_Z 0). rewrite <- Zle_Qle. lia. }
    apply Qle_bool_iff in Hq. congruence.
Qed.

Lemma inOrder_trans (sortBy : SortBy) (a b c : Item.t) :
  inOrder sortBy a b -> inOrder sortBy b c -> inOrder sortBy a c.
Proof.
  unfold inOrder. destruct sortBy.
  - intros; lra.
  - intros; lra.
  - intros (ta & tb & Ha & Hb & Hab) (tb' & tc & Hb' & Hc & Hbc).
    exists ta, tc. repeat split; try assumption.
    rewrite Hb in Hb'. injection Hb' as <-. lia.
Qed.

Lemma sort_compareItems_sorted (sortBy : SortBy) (l : list Item.t) :
  Forall (sortable sortBy) l ->
  StronglySorted (inOrder sortBy) (sort (compareItems sortBy) l).
Proof.
  intros Hl. unfold sort.
  apply (stableSort_StronglySorted _ (inOrder sortBy) (sortable sortBy)); try assumption.
  - apply notGreater_sound.
  - apply notGreater_total.
  - intros a b c _ _ _. apply inOrder_trans.
Qed.

(** ** Listing a category *)

Lemma cursorIndex_range (lastVisible : option Item.t) (sorted : list Item.t) :
  -1 <= cursorIndex lastVisible sorted < Z.of_nat (length sorted).
Proof.
  destruct lastVisible as [cursor|]; simpl; [|lia].
  unfold findIndex.
  destruct (findIndexFrom_range 0 (fun item => sameId item cursor) sorted); lia.
Qed.

(** The page of [getItemsByCategory] when the store serves its query. *)
Lemma getItemsByCategory_served (store : Policy) (docs : list Item.t)
    (c : string) (sortBy : SortBy) (limitCount : Z) (lastVisible : option Item.t) :
  store (categoryQuery c) = None ->
  0 <= limitCount ->
  let snapshot := List.filter (inCategory c) docs in
  let sorted := sort (compareItems sortBy) snapshot in
  let page := firstn (Z.to_nat limitCount)
                (skipn (Z.to_nat (cursorIndex lastVisible sorted + 1)) sorted) in
  getItemsByCategory store docs c sortBy limitCount lastVisible =
  Resolved {| Page.items := page;
              Page.lastVisible :=
                match lastElement page with
                | Some lastItem => List.find (fun doc => sameId doc lastItem) snapshot
                | None => None
                end |}.
Proof.
  intros Hserved Hn snapshot sorted page.
  unfold getItemsByCategory, getDocs. rewrite Hserved, catchRethrow_id.
  rewrite runQuery_categoryQuery. fold snapshot. cbn [mbind Promise_bind mret Promise_ret].
  fold sorted.
  assert (Hstart :
    match lastVisible with
    | Some cursor =>
        let lastVisibleIndex := findIndex (fun item => sameId item cursor) sorted in
        if lastVisibleIndex =? -1 then 0 else lastVisibleIndex + 1
    | None => 0
    end = cursorIndex lastVisible sorted + 1).
  { destruct lastVisible as [cursor|]; simpl; [|reflexivity].
    destruct (Z.eqb_spec (findIndex (fun item => sameId item cursor) sorted) (-1)) as [->|_];
      reflexivity. }
  cbv zeta in Hstart. rewrite Hstart.
  pose proof (cursorIndex_range lastVisible sorted) as Hrange.
  rewrite slice_window by lia. reflexivity.
Qed.

Lemma getAllItems_category (store : Policy) (docs : list Item.t)
    (categoryId : option string) (c : string) (sortBy : SortBy) (limitCount : Z)
    (lastVisible : option Item.t) :
  truthy categoryId = Some c ->
  getAllItems store docs categoryId sortBy limitCount lastVisible =
  getItemsByCategory store docs c sortBy limitCount lastVisible.
Proof.
  intros Hc. unfold getAllItems. now rewrite Hc, catchRethrow_id.
Qed.

(** C1: a call of [getAllItems] with a category goes to
    [getItemsByCategory]; its page is the window
    [cursorIndex+1, cursorIndex+1+pageSize) of the items of the category
    sorted in memory.  The sorted list is a rearrangement of all the items
    of the category, in the requested order (price ascending, price
    descending, or parsed [createdAt] descending), and so is every page. *)
Theorem C1_category_page_is_window_of_sorted (store : Policy) (docs : list Item.t)
    (categoryId : option string) (c : string) (sortBy : SortBy) (limitCount : Z)
    (lastVisible : option Item.t) :
  truthy categoryId = Some c ->
  store (categoryQuery c) = None ->
  0 <= limitCount ->
  Forall (sortable sortBy) (List.filter (inCategory c) docs) ->
  let sorted := sort (compareItems sortBy) (List.filter (inCategory c) docs) in
  Permutation sorted (List.filter (inCategory c) docs) /\
  StronglySorted (inOrder sortBy) sorted /\
  exists page,
    getAllItems store docs categoryId sortBy limitCount lastVisible = Resolved page /\
    Page.items page =
      firstn (Z.to_nat limitCount)
        (skipn (Z.to_nat (cursorIndex lastVisible sorted + 1)) sorted) /\
    StronglySorted (inOrder sortBy) (Page.items page).
Proof.
  intros Hc Hserved Hn Hkeys sorted.
  assert (Hsorted : StronglySorted (inOrder sortBy) sorted)
    by now apply sort_compareItems_sorted.
  split; [apply stableSort_Permutation|].
  split; [assumption|].
  eexists. split.
  - rewrite (getAllItems_category _ _ _ c) by assumption.
    now apply getItemsByCategory_served.
  - split; [reflexivity|]. cbn [Page.items].
    now apply StronglySorted_window.
Qed.

Lemma In_sorted_category (sortBy : SortBy) (c : string) (docs : list Item.t) (d : Item.t) :
  In d (sort (compareItems sortBy) (List.filter (inCategory c) docs)) <->
  In d docs /\ inCategory c d = true.
Proof.
  unfold sort. rewrite stableSort_In. apply filter_In.
Qed.

(** C10: a category listing whose cursor names an item that is not in the
    sorted category any more still resolves, with the first [pageSize]
    items of the sorted list; and a call that returns an empty page
    returns no cursor. *)
Theorem C10_unknown_cursor_restarts (store : Policy) (docs : list Item.t)
    (categoryId : option string) (c : string) (sortBy : SortBy) (limitCount : Z)
    (lastVisible : option Item.t) :
  truthy categoryId = Some c ->
  store (categoryQuery c) = None ->
  0 <= limitCount ->
  let sorted := sort (compareItems sortBy) (List.filter (inCategory c) docs) in
  exists page,
    getAllItems store docs categoryId sortBy limitCount lastVisible = Resolved page /\
    (Page.items page = [] -> Page.lastVisible page = None) /\
    (forall cursor,
        lastVisible = Some cursor ->
        (forall d, In d sorted -> Item.id d <> Item.id cursor) ->
        Page.items page = firstn (Z.to_nat limitCount) sorted).
Proof.
  intros Hc Hserved Hn sorted.
  eexists. split.
  - rewrite (getAllItems_category _ _ _ c) by assumption.
    now apply getItemsByCategory_served.
  - cbn [Page.items Page.lastVisible]. split.
    + intros ->. reflexivity.
    + intros cursor -> Hunknown. fold sorted.
      assert (Hidx : cursorIndex (Some cursor) sorted = -1).
      { apply findIndexFrom_absent. intros d Hd.
        apply String.eqb_neq. now apply Hunknown. }
      rewrite Hidx. reflexivity.
Qed.

(** ** Walking a listing page by page *)

Lemma window_then_rest {A : Type} (n : nat) (l : list A) :
  firstn n l ++ skipn (length (firstn n l)) l = l.
Proof.
  rewrite length_firstn.
  destruct (Nat.le_gt_cases n (length l)) as [Hle|Hgt].
  - rewrite Nat.min_l by assumption. apply firstn_skipn.
  - rewrite Nat.min_r by lia. rewrite skipn_all, firstn_all2 by lia.
    apply app_nil_r.
Qed.

Section Walk.
Variable fetch : option Item.t -> Promise Page.t.
Variable whole : list Item.t.
Variable pageSize : nat.
(** [position cursor s]: a request with [cursor] starts at index [s]. *)
Variable position : option Item.t -> nat -> Prop.

Hypothesis pageSize_positive : (1 <= pageSize)%nat.
Hypothesis fetch_window : forall cursor s,
  position cursor s ->
  fetch cursor =
  Resolved {| Page.items := firstn pageSize (skipn s whole);
              Page.lastVisible := lastElement (firstn pageSize (skipn s whole)) |}.
Hypothesis position_after : forall l1 x l2,
  whole = l1 ++ x :: l2 -> position (Some x) (S (length l1)).

Lemma walk_from (fuel : nat) :
  forall cursor s,
    position cursor s ->
    (length whole - s < fuel)%nat ->
    walk fetch fuel cursor = Resolved (skipn s whole).
Proof using pageSize_positive fetch_window position_after.
  induction fuel as [|fuel IH]; intros cursor s Hpos Hfuel; [lia|].
  cbn [walk]. rewrite (fetch_window _ _ Hpos).
  cbn [mbind Promise_bind Page.lastVisible Page.items].
  set (page := firstn pageSize (skipn s whole)).
  destruct (lastElement page) as [x|] eqn:Hlast.
  - apply lastElement_some in Hlast as [front Hpage].
    assert (Hsplit : whole = (firstn s whole ++ front) ++ x :: skipn (length page) (skipn s whole)).
    { rewrite <- app_assoc.
      change (x :: ?r) with ([x] ++ r).
      rewrite (app_assoc front), <- Hpage. unfold page.
      rewrite window_then_rest. symmetry. apply firstn_skipn. }
    assert (Hlen : (length page <= length whole - s)%nat).
    { unfold page. rewrite length_firstn, length_skipn. lia. }
    assert (Hpos' : position (Some x) (s + length page)).
    { replace (s + length page)%nat with (S (length (firstn s whole ++ front))).
      - now apply (position_after _ _ _ Hsplit).
      - rewrite Hpage, !length_app, length_firstn. simpl.
        rewrite Hpage, length_app in Hlen. simpl in Hlen. lia. }
    rewrite (IH _ _ Hpos').
    + cbn [mbind Promise_bind mret Promise_ret]. f_equal.
      replace (s + length page)%nat with (length page + s)%nat by lia.
      rewrite <- skipn_skipn. unfold page. apply window_then_rest.
    + rewrite Hpage, length_app in Hlen |- *. simpl in Hlen |- *. lia.
  - apply lastElement_empty in Hlast. cbn [mret Promise_ret]. f_equal.
    rewrite Hlast. unfold page in Hlast.
    destruct (skipn s whole) as [|y t]; [reflexivity|].
    destruct pageSize; [lia|discriminate].
Qed.
End Walk.

(** ** Documents with distinct ids *)

Lemma NoDup_ids_filter (p : Item.t -> bool) (l : list Item.t) :
  List.NoDup (List.map Item.id l) -> List.NoDup (List.map Item.id (List.filter p l)).
Proof.
  induction l as [|x t IH]; simpl; intros Hnd; [constructor|].
  inversion Hnd as [|? ? Hx Ht]; subst.
  destruct (p x); simpl; [constructor|]; auto.
  intros Hin. apply Hx. apply in_map_iff in Hin as (y & Hy & Hin).
  apply in_map_iff. exists y. split; [assumption|].
  now apply filter_In in Hin.
Qed.

Lemma NoDup_ids_stableSort (le : Item.t -> Item.t -> bool) (l : list Item.t) :
  List.NoDup (List.map Item.id l) -> List.NoDup (List.map Item.id (stableSort le l)).
Proof.
  apply Permutation_NoDup, Permutation_map. symmetry. apply stableSort_Permutation.
Qed.

Lemma sameId_refl (x : Item.t) : sameId x x = true.
Proof. apply String.eqb_refl. Qed.

Lemma NoDup_ids_before (l1 l2 : list Item.t) (x y : Item.t) :
  List.NoDup (List.map Item.id (l1 ++ x :: l2)) -> In y l1 -> sameId y x = false.
Proof.
  intros Hnd Hy. apply String.eqb_neq. intros Heq.
  rewrite List.map_app in Hnd. simpl in Hnd.
  apply NoDup_remove_2 in Hnd. apply Hnd, in_or_app. left.
  rewrite <- Heq. now apply in_map.
Qed.

Lemma NoDup_ids_after (l1 l2 : list Item.t) (x z : Item.t) :
  List.NoDup (List.map Item.id (l1 ++ x :: l2)) -> In z l2 -> Item.id x <> Item.id z.
Proof.
  intros Hnd Hz Heq.
  rewrite List.map_app in Hnd. simpl in Hnd.
  apply NoDup_remove_2 in Hnd. apply Hnd, in_or_app. right.
  rewrite Heq. now apply in_map.
Qed.

Lemma findIndex_of_member (l1 l2 : list Item.t) (x : Item.t) :
  List.NoDup (List.map Item.id (l1 ++ x :: l2)) ->
  findIndex (fun item => sameId item x) (l1 ++ x :: l2) = Z.of_nat (length l1).
Proof.
  intros Hnd. unfold findIndex. rewrite findIndexFrom_first.
  - lia.
  - intros y Hy. now apply (NoDup_ids_before l1 l2).
  - apply sameId_refl.
Qed.

Lemma find_of_member (l : list Item.t) (x : Item.t) :
  List.NoDup (List.map Item.id l) -> In x l ->
  List.find (fun doc => sameId doc x) l = Some x.
Proof.
  intros Hnd Hin. apply in_split in Hin as (l1 & l2 & ->).
  induction l1 as [|y t IH]; simpl.
  - now rewrite sameId_refl.
  - rewrite (NoDup_ids_before (y :: t) l2 x y Hnd (or_introl eq_refl)).
    apply IH. simpl in Hnd. now inversion Hnd.
Qed.

(** Walking a category: every request lands on the window that follows
    the cursor. *)
Lemma walk_category (store : Policy) (docs : list Item.t)
    (categoryId : option string) (c : string)
    (sortBy : SortBy) (limitCount : Z) (fuel : nat) :
  List.NoDup (List.map Item.id docs) ->
  truthy categoryId = Some c ->
  store (categoryQuery c) = None ->
  0 < limitCount ->
  (length docs < fuel)%nat ->
  walk (getAllItems store docs categoryId sortBy limitCount) fuel None =
  Resolved (sort (compareItems sortBy) (List.filter (inCategory c) docs)).
Proof.
  intros Hnd Hc Hserved Hn Hfuel.
  set (snapshot := List.filter (inCategory c) docs).
  set (sorted := sort (compareItems sortBy) snapshot).
  assert (Hnd_snapshot : List.NoDup (List.map Item.id snapshot)) by now apply NoDup_ids_filter.
  assert (Hnd_sorted : List.NoDup (List.map Item.id sorted)) by now apply NoDup_ids_stableSort.
  change (Resolved sorted) with (Resolved (skipn 0 sorted)).
  apply (walk_from _ sorted (Z.to_nat limitCount)
           (fun cursor s => cursorIndex cursor sorted + 1 = Z.of_nat s)).
  - lia.
  - intros cursor s Hpos.
    rewrite (getAllItems_category _ _ _ c) by assumption.
    rewrite getItemsByCategory_served by (assumption || lia).
    fold snapshot sorted. rewrite Hpos, Nat2Z.id. f_equal. f_equal.
    destruct (lastElement _) as [x|] eqn:Hlast; [|reflexivity].
    apply find_of_member; [assumption|].
    apply lastElement_some in Hlast as [front Hpage].
    assert (Hin : In x (firstn (Z.to_nat limitCount) (skipn s sorted))).
    { rewrite Hpage. apply in_or_app. right. now left. }
    apply In_firstn_elim, In_skipn_elim in Hin.
    subst sorted. unfold sort in Hin. now apply stableSort_In in Hin.
  - intros l1 x l2 Hsplit. simpl. rewrite Hsplit in Hnd_sorted |- *.
    rewrite findIndex_of_member by assumption. lia.
  - reflexivity.
  - subst sorted. unfold sort. rewrite stableSort_length.
    pose proof (filter_length_le (inCategory c) docs). fold snapshot in H. lia.
Qed.

(** ** The store's order on values and documents *)

Lemma Ascii_compare_trans_Lt (a b c : ascii) :
  Ascii.compare a b = Lt -> Ascii.compare b c = Lt -> Ascii.compare a c = Lt.
Proof.
  unfold Ascii.compare. rewrite !N.compare_lt_iff. lia.
Qed.

Lemma Ascii_compare_refl (a : ascii) : Ascii.compare a a = Eq.
Proof. unfold Ascii.compare. apply N.compare_refl. Qed.

Lemma String_compare_trans_Lt (a b c : string) :
  String.compare a b = Lt -> String.compare b c = Lt -> String.compare a c = Lt.
Proof.
  revert b c. induction a as [|x a IH]; intros [|y b] [|z c]; simpl;
    try discriminate; try reflexivity.
  destruct (Ascii.compare x y) eqn:Exy; try discriminate.
  - apply Ascii.compare_eq_iff in Exy as ->.
    destruct (Ascii.compare y z); try discriminate; [apply IH|reflexivity].
  - intros _. destruct (Ascii.compare y z) eqn:Eyz; try discriminate.
    + apply Ascii.compare_eq_iff in Eyz as <-. now rewrite Exy.
    + now rewrite (Ascii_compare_trans_Lt x y z).
Qed.

Lemma String_compare_trans_le (a b c : string) :
  String.compare a b <> Gt -> String.compare b c <> Gt -> String.compare a c <> Gt.
Proof.
  intros Hab Hbc.
  destruct (String.compare a b) eqn:Eab; [| |congruence].
  - apply String.compare_eq_iff in Eab as ->. assumption.
  - destruct (String.compare b c) eqn:Ebc; [| |congruence].
    + apply String.compare_eq_iff in Ebc as <-. now rewrite Eab.
    + now rewrite (String_compare_trans_Lt a b c).
Qed.

Lemma String_compare_app (p a b : string) :
  String.compare (p ++ a) (p ++ b) = String.compare a b.
Proof.
  induction p as [|x p IH]; simpl; [reflexivity|].
  now rewrite Ascii_compare_refl.
Qed.

Lemma compareValue_antisym (a b : Value) :
  compareValue b a = CompOpp (compareValue a b).
Proof.
  destruct a, b; simpl; try reflexivity.
  - apply String.compare_antisym.
  - symmetry. apply Qcompare_antisym.
Qed.

Lemma compareValue_trans_Lt (a b c : Value) :
  compareValue a b = Lt -> compareValue b c = Lt -> compareValue a c = Lt.
Proof.
  destruct a, b, c; simpl; try discriminate; try reflexivity.
  - apply String_compare_trans_Lt.
  - rewrite <- !Qlt_alt. apply Qlt_trans.
Qed.

Lemma compareValue_Eq_l (a b c : Value) :
  compareValue a b = Eq -> compareValue a c = compareValue b c.
Proof.
  destruct a, b, c; simpl; try discriminate; try reflexivity.
  - intros H. now apply String.compare_eq_iff in H as ->.
  - intros H. apply Qeq_alt in H. now rewrite H.
Qed.

Lemma compareValue_Eq_r (a b c : Value) :
  compareValue b c = Eq -> compareValue a b = compareValue a c.
Proof.
  intros H.
  rewrite (compareValue_antisym b a), (compareValue_antisym c a). f_equal.
  apply compareValue_Eq_l. assumption.
Qed.

Lemma compareDocs_antisym (f : Field) (dir : OrderByDirection) (a b : Item.t) :
  compareDocs f dir b a = CompOpp (compareDocs f dir a b).
Proof.
  unfold compareDocs.
  rewrite (compareValue_antisym (fieldOf f a) (fieldOf f b)).
  rewrite (String.compare_antisym (Item.id b) (Item.id a)).
  destruct (compareValue (fieldOf f a) (fieldOf f b)), dir; simpl;
    try reflexivity.
Qed.

Lemma compareDocs_desc (f : Field) (a b : Item.t) :
  compareDocs f desc a b = compareDocs f asc b a.
Proof.
  rewrite (compareDocs_antisym f asc a b). reflexivity.
Qed.

Lemma compareDocs_Eq_id (f : Field) (dir : OrderByDirection) (a b : Item.t) :
  compareDocs f dir a b = Eq -> Item.id a = Item.id b.
Proof.
  unfold compareDocs.
  destruct (compareValue (fieldOf f a) (fieldOf f b)), dir; simpl;
    try discriminate;
    destruct (String.compare (Item.id a) (Item.id b)) eqn:E; simpl;
    try discriminate; intros _; now apply String.compare_eq_iff.
Qed.

Lemma compareDocs_asc_trans_le (f : Field) (a b c : Item.t) :
  compareDocs f asc a b <> Gt -> compareDocs f asc b c <> Gt ->
  compareDocs f asc a c <> Gt.
Proof.
  unfold compareDocs.
  destruct (compareValue (fieldOf f a) (fieldOf f b)) eqn:Eab;
    destruct (compareValue (fieldOf f b) (fieldOf f c)) eqn:Ebc;
    try congruence; intros Hab Hbc.
  - rewrite (compareValue_Eq_l _ _ _ Eab), Ebc.
    now apply (String_compare_trans_le _ (Item.id b)).
  - now rewrite (compareValue_Eq_l _ _ _ Eab), Ebc.
  - now rewrite <- (compareValue_Eq_r _ _ _ Ebc), Eab.
  - now rewrite (compareValue_trans_Lt _ _ _ Eab Ebc).
Qed.

Lemma docLe_trans (f : Field) (dir : OrderByDirection) (a b c : Item.t) :
  docLe f dir a b = true -> docLe f dir b c = true -> docLe f dir a c = true.
Proof.
  unfold docLe. destruct dir.
  - intros Hab Hbc.
    assert (H : compareDocs f asc a c <> Gt).
    { apply (compareDocs_asc_trans_le f a b c).
      - destruct (compareDocs f asc a b); congruence.
      - destruct (compareDocs f asc b c); congruence. }
    destruct (compareDocs f asc a c); congruence.
  - rewrite !compareDocs_desc. intros Hab Hbc.
    assert (H : compareDocs f asc c a <> Gt).
    { apply (compareDocs_asc_trans_le f c b a).
      - destruct (compareDocs f asc c b); congruence.
      - destruct (compareDocs f asc b a); congruence. }
    destruct (compareDocs f asc c a); congruence.
Qed.

Lemma docLe_total (f : Field) (dir : OrderByDirection) (a b : Item.t) :
  docLe f dir a b = false -> docLe f dir b a = true.
Proof.
  unfold docLe. rewrite (compareDocs_antisym f dir a b).
  destruct (compareDocs f dir a b); simpl; congruence.
Qed.

Lemma docLt_irrefl (f : Field) (dir : OrderByDirection) (a : Item.t) :
  docLt f dir a a = false.
Proof.
  unfold docLt. pose proof (compareDocs_antisym f dir a a) as H.
  destruct (compareDocs f dir a a); simpl in H; congruence.
Qed.

Lemma docLt_of_docLe (f : Field) (dir : OrderByDirection) (a b : Item.t) :
  docLe f dir a b = true -> Item.id a <> Item.id b -> docLt f dir a b = true.
Proof.
  unfold docLe, docLt. intros Hle Hne.
  destruct (compareDocs f dir a b) eqn:E; try congruence.
  now apply compareDocs_Eq_id in E.
Qed.

Lemma docLt_false_of_docLe (f : Field) (dir : OrderByDirection) (a b : Item.t) :
  docLe f dir a b = true -> docLt f dir b a = false.
Proof.
  unfold docLe, docLt. rewrite (compareDocs_antisym f dir a b).
  destruct (compareDocs f dir a b); simpl; congruence.
Qed.

Lemma stableSort_docLe_sorted (f : Field) (dir : OrderByDirection) (docs : list Item.t) :
  StronglySorted (fun a b => docLe f dir a b = true) (stableSort (docLe f dir) docs).
Proof.
  apply (stableSort_StronglySorted _ _ (fun _ => True)).
  - auto.
  - intros a b _ _. apply docLe_total.
  - intros a b c _ _ _. apply docLe_trans.
  - apply List.Forall_forall. auto.
Qed.

Lemma StronglySorted_middle {A : Type} (R : A -> A -> Prop) (l1 l2 : list A) (x : A) :
  StronglySorted R (l1 ++ x :: l2) ->
  Forall (fun y => R y x) l1 /\ Forall (R x) l2.
Proof.
  induction l1 as [|y t IH]; simpl; intros Hs; inversion Hs as [|? ? Ht Hy]; subst.
  - split; [constructor|assumption].
  - destruct (IH Ht) as [H1 H2]. split; [|assumption].
    constructor; [|assumption].
    rewrite List.Forall_forall in Hy. apply Hy, in_or_app. right. now left.
Qed.

Lemma filter_none {A : Type} (p : A -> bool) (l : list A) :
  (forall x, In x l -> p x = false) -> List.filter p l = [].
Proof.
  induction l as [|x t IH]; simpl; intros H; [reflexivity|].
  rewrite (H x (or_introl eq_refl)). apply IH. intros y Hy. apply H. now right.
Qed.

Lemma filter_all {A : Type} (p : A -> bool) (l : list A) :
  (forall x, In x l -> p x = true) -> List.filter p l = l.
Proof.
  induction l as [|x t IH]; simpl; intros H; [reflexivity|].
  rewrite (H x (or_introl eq_refl)). f_equal. apply IH. intros y Hy. apply H. now right.
Qed.

(** In an ordered snapshot of documents with distinct ids, the documents
    after the cursor are the ones that follow it in the list. *)
Lemma startAfter_suffix (f : Field) (dir : OrderByDirection)
    (l1 l2 : list Item.t) (x : Item.t) :
  StronglySorted (fun a b => docLe f dir a b = true) (l1 ++ x :: l2) ->
  List.NoDup (List.map Item.id (l1 ++ x :: l2)) ->
  List.filter (docLt f dir x) (l1 ++ x :: l2) = l2.
Proof.
  intros Hs Hnd. apply StronglySorted_middle in Hs as [Hbefore Hafter].
  rewrite List.Forall_forall in Hbefore, Hafter.
  rewrite List.filter_app. simpl. rewrite docLt_irrefl.
  rewrite filter_none, filter_all; [reflexivity| |].
  - intros z Hz. apply docLt_of_docLe; [now apply Hafter|].
    now apply (NoDup_ids_after l1 l2).
  - intros y Hy. apply docLt_false_of_docLe. now apply Hbefore.
Qed.

(** ** Listing without a category *)

Lemma runQuery_listQuery (sortBy : SortBy) (lastVisible : option Item.t)
    (limitCount : Z) (docs : list Item.t) (q : Query) :
  limit limitCount (listQuery sortBy lastVisible) = Resolved q ->
  0 < limitCount /\
  runQuery q docs = firstn (Z.to_nat limitCount) (resumedFrom sortBy lastVisible docs).
Proof.
  unfold limit. destruct (Z.leb_spec limitCount 0) as [|Hpos]; [discriminate|].
  intros [= <-]. split; [assumption|].
  unfold runQuery, resumedFrom, listQuery.
  destruct sortBy, lastVisible as [cursor|]; cbn;
    rewrite (filter_all (fun _ => true)); auto.
Qed.

Lemma getAllItems_uncategorised (store : Policy) (docs : list Item.t)
    (categoryId : option string) (sortBy : SortBy) (limitCount : Z)
    (lastVisible : option Item.t) (q : Query) :
  truthy categoryId = None ->
  limit limitCount (listQuery sortBy lastVisible) = Resolved q ->
  store q = None ->
  let page := firstn (Z.to_nat limitCount) (resumedFrom sortBy lastVisible docs) in
  getAllItems store docs categoryId sortBy limitCount lastVisible =
  Resolved {| Page.items := page; Page.lastVisible := lastElement page |}.
Proof.
  intros Hc Hq Hserved page. unfold getAllItems.
  rewrite Hc, catchRethrow_id, Hq. cbn [mbind Promise_bind].
  unfold getDocs. rewrite Hserved. cbn [mbind Promise_bind mret Promise_ret].
  destruct (runQuery_listQuery _ _ _ docs _ Hq) as [_ ->]. reflexivity.
Qed.

Lemma limit_positive (n : Z) (q : Query) :
  0 < n -> exists q', limit n q = Resolved q'.
Proof.
  intros Hn. unfold limit. destruct (Z.leb_spec n 0); [lia|]. eauto.
Qed.

Lemma walk_uncategorised (store : Policy) (docs : list Item.t)
    (categoryId : option string) (sortBy : SortBy) (limitCount : Z) (fuel : nat) :
  List.NoDup (List.map Item.id docs) ->
  truthy categoryId = None ->
  (forall q, store q = None) ->
  0 < limitCount ->
  (length docs < fuel)%nat ->
  walk (getAllItems store docs categoryId sortBy limitCount) fuel None =
  Resolved (runQuery (listQuery sortBy None) docs).
Proof.
  intros Hnd Hc Hserved Hn Hfuel.
  set (f := fst (orderOf sortBy)). set (dir := snd (orderOf sortBy)).
  set (ordered := stableSort (docLe f dir) docs).
  assert (Hwhole : runQuery (listQuery sortBy None) docs = ordered).
  { unfold runQuery, listQuery, ordered, f, dir.
    destruct sortBy; cbn; rewrite (filter_all (fun _ => true)); auto. }
  rewrite Hwhole.
  assert (Hsorted : StronglySorted (fun a b => docLe f dir a b = true) ordered)
    by apply stableSort_docLe_sorted.
  assert (Hnd' : List.NoDup (List.map Item.id ordered)) by now apply NoDup_ids_stableSort.
  change (Resolved ordered) with (Resolved (skipn 0 ordered)).
  apply (walk_from _ ordered (Z.to_nat limitCount)
           (fun cursor s => resumedFrom sortBy cursor docs = skipn s ordered)).
  - lia.
  - intros cursor s Hpos.
    destruct (limit_positive limitCount (listQuery sortBy cursor) Hn) as [q Hq].
    rewrite (getAllItems_uncategorised _ _ _ _ _ _ q) by auto.
    now rewrite Hpos.
  - intros l1 x l2 Hsplit. unfold resumedFrom. fold f dir ordered.
    rewrite Hsplit in Hsorted, Hnd' |- *.
    rewrite startAfter_suffix by assumption.
    change (x :: l2) with ([x] ++ l2). rewrite app_assoc.
    rewrite skipn_app.
    rewrite skipn_all2 by (rewrite length_app; simpl; lia).
    rewrite length_app. simpl.
    replace (S (length l1) - (length l1 + 1))%nat with 0%nat by lia. reflexivity.
  - reflexivity.
  - unfold ordered. rewrite stableSort_length. lia.
Qed.

Lemma wholeListing_Permutation (docs : list Item.t) (categoryId : option string)
    (sortBy : SortBy) :
  Permutation (wholeListing docs categoryId sortBy) (matchingItems categoryId docs).
Proof.
  unfold wholeListing, matchingItems. destruct (truthy categoryId) as [c|].
  - rewrite runQuery_categoryQuery. apply stableSort_Permutation.
  - unfold runQuery, listQuery.
    destruct sortBy; cbn; rewrite (filter_all (fun _ => true)); auto;
      apply stableSort_Permutation.
Qed.

(** C2: over a store of items with distinct ids that serves its queries,
    and for a positive page size, the pages obtained by handing each
    returned cursor to the next call, appended in turn, are exactly the
    whole listing: all the matching items sorted the same way, each once;
    a single call with a page size above the number of items returns that
    same list. *)
Theorem C2_pages_concatenate_to_whole_listing (store : Policy) (docs : list Item.t)
    (categoryId : option string) (sortBy : SortBy) (limitCount : Z) (fuel : nat) :
  List.NoDup (List.map Item.id docs) ->
  (forall q, store q = None) ->
  0 < limitCount ->
  (length docs < fuel)%nat ->
  collectPages fuel store docs categoryId sortBy limitCount =
    Resolved (wholeListing docs categoryId sortBy) /\
  List.NoDup (List.map Item.id (wholeListing docs categoryId sortBy)) /\
  Permutation (wholeListing docs categoryId sortBy) (matchingItems categoryId docs) /\
  exists page,
    getAllItems store docs categoryId sortBy (Z.of_nat (S (length docs))) None =
      Resolved page /\
    Page.items page = wholeListing docs categoryId sortBy.
Proof.
  intros Hnd Hserved Hn Hfuel.
  pose proof (wholeListing_Permutation docs categoryId sortBy) as Hperm.
  assert (Hlen : (length (wholeListing docs categoryId sortBy) <= length docs)%nat).
  { rewrite (Permutation_length Hperm). unfold matchingItems.
    destruct (truthy categoryId); [apply filter_length_le|lia]. }
  split; [|split; [|split; [assumption|]]].
  - unfold collectPages, wholeListing.
    destruct (truthy categoryId) as [c|] eqn:Hc.
    + rewrite runQuery_categoryQuery. now apply (walk_category _ _ _ c).
    + now apply walk_uncategorised.
  - apply (Permutation_NoDup (l := List.map Item.id (matchingItems categoryId docs))).
    + symmetry. now apply Permutation_map.
    + unfold matchingItems. destruct (truthy categoryId); [now apply NoDup_ids_filter|assumption].
  - unfold wholeListing in *. destruct (truthy categoryId) as [c|] eqn:Hc.
    + rewrite runQuery_categoryQuery in *. eexists. split.
      * rewrite (getAllItems_category _ _ _ c) by assumption.
        apply getItemsByCategory_served; [apply Hserved|lia].
      * cbn [Page.items cursorIndex]. simpl skipn.
        apply firstn_all2. rewrite Nat2Z.id. lia.
    + destruct (limit_positive (Z.of_nat (S (length docs))) (listQuery sortBy None))
        as [q Hq]; [lia|].
      assert (Hwhole : runQuery (listQuery sortBy None) docs = resumedFrom sortBy None docs).
      { unfold runQuery, listQuery, resumedFrom.
        destruct sortBy; cbn; rewrite (filter_all (fun _ => true)); auto. }
      rewrite Hwhole in *. eexists. split.
      * apply (getAllItems_uncategorised _ _ _ _ _ _ q); auto.
      * cbn [Page.items]. rewrite Nat2Z.id. apply firstn_all2. lia.
Qed.

(** C3, as the code has it: without a category, the returned cursor is
    the last item of the returned page whenever the page is not empty,
    however short the page is, and it is absent exactly when the page is
    empty; the page holds at most [pageSize] items. *)
Theorem C3_cursor_is_last_item_of_page (store : Policy) (docs : list Item.t)
    (categoryId : option string) (sortBy : SortBy) (limitCount : Z)
    (lastVisible : option Item.t) :
  truthy categoryId = None ->
  0 < limitCount ->
  (forall q, store q = None) ->
  exists page,
    getAllItems store docs categoryId sortBy limitCount lastVisible = Resolved page /\
    Page.lastVisible page = lastElement (Page.items page) /\
    (Page.lastVisible page = None <-> Page.items page = []) /\
    Z.of_nat (length (Page.items page)) <= limitCount.
Proof.
  intros Hc Hn Hserved.
  destruct (limit_positive limitCount (listQuery sortBy lastVisible) Hn) as [q Hq].
  eexists. split; [apply (getAllItems_uncategorised _ _ _ _ _ _ q); auto|].
  cbn [Page.items Page.lastVisible].
  split; [reflexivity|]. split; [apply lastElement_empty|].
  pose proof (firstn_le_length (Z.to_nat limitCount) (resumedFrom sortBy lastVisible docs)).
  lia.
Qed.

(** ** Searching by prefix *)

Lemma String_leb_compare (a b : string) :
  String.leb a b = match String.compare b a with Lt => false | _ => true end.
Proof.
  unfold String.leb. rewrite (String.compare_antisym b a).
  now destruct (String.compare a b).
Qed.

Lemma String_leb_refl (a : string) : String.leb a a = true.
Proof. unfold String.leb. now rewrite String_compare_refl. Qed.

Lemma String_leb_trans (a b c : string) :
  String.leb a b = true -> String.leb b c = true -> String.leb a c = true.
Proof.
  unfold String.leb. intros Hab Hbc.
  assert (H : String.compare a c <> Gt).
  { apply (String_compare_trans_le a b c).
    - destruct (String.compare a b); congruence.
    - destruct (String.compare b c); congruence. }
  destruct (String.compare a c); congruence.
Qed.

Lemma String_leb_ltb_trans (a b c : string) :
  String.leb a b = true -> String.ltb b c = true -> String.ltb a c = true.
Proof.
  unfold String.leb, String.ltb. intros Hab Hbc.
  destruct (String.compare b c) eqn:Ebc; try discriminate.
  destruct (String.compare a b) eqn:Eab; try discriminate.
  - apply String.compare_eq_iff in Eab as ->. now rewrite Ebc.
  - now rewrite (String_compare_trans_Lt a b c).
Qed.

Lemma String_append_empty (p : string) : (p ++ EmptyString)%string = p.
Proof.
  induction p as [|x p IH]; [reflexivity|].
  change (String x (p ++ EmptyString)%string = String x p). now rewrite IH.
Qed.

Lemma String_leb_prefix (p s : string) : String.leb p (p ++ s) = true.
Proof.
  unfold String.leb. rewrite <- (String_append_empty p) at 1.
  rewrite String_compare_app. now destruct s.
Qed.

Lemma String_append_assoc (a b c : string) : ((a ++ b) ++ c = a ++ (b ++ c))%string.
Proof.
  induction a as [|x a IH]; [reflexivity|].
  change (String x ((a ++ b) ++ c)%string = String x (a ++ (b ++ c))%string).
  now rewrite IH.
Qed.

Lemma below_maxCodePoint (p : string) :
  String.ltb (p ++ uF8FF) (p ++ maxCodePoint) = true.
Proof.
  unfold String.ltb. rewrite String_compare_app. reflexivity.
Qed.

Lemma satisfies_search (searchQuery : string) (d : Item.t) :
  forallb (satisfies d)
    [(f_name, op_ge, VString searchQuery); (f_name, op_le, VString (searchQuery ++ uF8FF))] =
  inSearchRange searchQuery d.
Proof.
  unfold inSearchRange. cbn [forallb satisfies fieldOf compareValue].
  rewrite andb_true_r, String_leb_compare. unfold String.leb.
  destruct (String.compare (Item.name d) searchQuery);
    destruct (String.compare (Item.name d) (searchQuery ++ uF8FF)); reflexivity.
Qed.

Lemma searchItems_served (store : Policy) (docs : list Item.t)
    (searchQuery : string) (limitCount : Z) :
  0 < limitCount ->
  (forall q, store q = None) ->
  searchItems store docs searchQuery limitCount =
  Resolved (firstn (Z.to_nat limitCount)
              (stableSort (docLe f_name asc)
                 (List.filter (inSearchRange searchQuery) docs))).
Proof.
  intros Hn Hserved. unfold searchItems, limit, getDocs.
  destruct (Z.leb_spec limitCount 0); [lia|].
  rewrite catchRethrow_id. cbn [mbind Promise_bind]. rewrite Hserved.
  unfold runQuery, searchQueryOf, where_, orderBy, collectionItems.
  cbn [q_where q_orderBy q_startAfter q_limit app].
  do 3 f_equal. apply List.filter_ext. intros d. apply satisfies_search.
Qed.

Lemma docLe_name (a b : Item.t) :
  docLe f_name asc a b = true -> String.leb (Item.name a) (Item.name b) = true.
Proof.
  unfold docLe, compareDocs, String.leb. cbn [fieldOf compareValue].
  destruct (String.compare (Item.name a) (Item.name b)); congruence.
Qed.

Lemma StronglySorted_impl {A : Type} (R S : A -> A -> Prop) (l : list A) :
  (forall a b, R a b -> S a b) -> StronglySorted R l -> StronglySorted S l.
Proof.
  intros HRS Hs. induction Hs as [|x t Ht IH Hx]; constructor; [assumption|].
  rewrite List.Forall_forall in Hx |- *. auto.
Qed.

Lemma search_excludes_greater_byte (p rest : string) (c c' : ascii) :
  Ascii.ltb c c' = true ->
  String.leb (p ++ String c' rest) ((p ++ String c EmptyString) ++ uF8FF) = false.
Proof.
  intros Hlt. unfold String.leb.
  rewrite String_append_assoc, String_compare_app.
  change (String c EmptyString ++ uF8FF)%string with (String c uF8FF).
  cbn [String.compare]. rewrite (Ascii.compare_antisym c' c).
  unfold Ascii.ltb in Hlt. now destruct (Ascii.compare c c').
Qed.

(** C7: for a positive limit, [searchItems] resolves with at most [limit]
    items, ordered by name, all of them items of the store whose name is
    between the prefix and the prefix followed by U+F8FF, hence below the
    prefix followed by the largest code point.  An item named exactly as
    the prefix is in that range: when some item bears that name the first
    result does, and when the range holds no more than [limit] items every
    such item is returned.  A name that differs from the prefix by a
    greater last byte is never returned. *)
Theorem C7_search_returns_prefix_range (store : Policy) (docs : list Item.t)
    (searchQuery : string) (limitCount : Z) :
  0 < limitCount ->
  (forall q, store q = None) ->
  exists found,
    searchItems store docs searchQuery limitCount = Resolved found /\
    Z.of_nat (length found) <= limitCount /\
    StronglySorted (fun a b => String.leb (Item.name a) (Item.name b) = true) found /\
    (forall d, In d found ->
       In d docs /\
       String.leb searchQuery (Item.name d) = true /\
       String.leb (Item.name d) (searchQuery ++ uF8FF) = true /\
       String.ltb (Item.name d) (searchQuery ++ maxCodePoint) = true) /\
    (forall d, In d docs -> Item.name d = searchQuery ->
       inSearchRange searchQuery d = true /\
       (exists first, hd_error found = Some first /\ Item.name first = searchQuery) /\
       (Z.of_nat (length (List.filter (inSearchRange searchQuery) docs)) <= limitCount ->
        In d found)) /\
    (forall d p rest c c',
       searchQuery = (p ++ String c EmptyString)%string ->
       Item.name d = (p ++ String c' rest)%string ->
       Ascii.ltb c c' = true ->
       ~ In d found).
Proof.
  intros Hn Hserved.
  set (matched := List.filter (inSearchRange searchQuery) docs).
  set (ordered := stableSort (docLe f_name asc) matched).
  assert (Hin : forall d, In d (firstn (Z.to_nat limitCount) ordered) ->
                          In d docs /\ inSearchRange searchQuery d = true).
  { intros d Hd. apply In_firstn_elim in Hd. apply stableSort_In in Hd.
    now apply filter_In in Hd. }
  assert (Hsorted : StronglySorted (fun a b => docLe f_name asc a b = true) ordered)
    by apply stableSort_docLe_sorted.
  exists (firstn (Z.to_nat limitCount) ordered).
  split; [now apply searchItems_served|].
  split; [pose proof (firstn_le_length (Z.to_nat limitCount) ordered); lia|].
  split.
  { apply (StronglySorted_impl (fun a b => docLe f_name asc a b = true)).
    - apply docLe_name.
    - apply (StronglySorted_window _ ordered 0 (Z.to_nat limitCount) Hsorted). }
  split.
  { intros d Hd. destruct (Hin d Hd) as [Hdocs Hrange].
    unfold inSearchRange in Hrange. apply andb_true_iff in Hrange as [Hlo Hhi].
    repeat split; try assumption.
    apply (String_leb_ltb_trans _ (searchQuery ++ uF8FF)); [assumption|].
    apply below_maxCodePoint. }
  split.
  { intros d Hd Hname.
    assert (Hrange : inSearchRange searchQuery d = true).
    { unfold inSearchRange. rewrite Hname, String_leb_refl. apply String_leb_prefix. }
    assert (Hd' : In d ordered).
    { apply stableSort_In, filter_In. now split. }
    split; [assumption|]. split.
    - destruct ordered as [|first rest] eqn:Hordered; [contradiction|].
      exists first. destruct (Z.to_nat limitCount) eqn:Hlimit; [lia|].
      split; [reflexivity|].
      assert (Hfirst : In first (first :: rest)) by now left.
      rewrite <- Hordered in Hfirst. apply stableSort_In, filter_In in Hfirst.
      destruct Hfirst as [_ Hfirst]. unfold inSearchRange in Hfirst.
      apply andb_true_iff in Hfirst as [Hlo _].
      apply String.leb_antisym; [|assumption].
      rewrite <- Hname. destruct Hd' as [<-|Hd']; [apply String_leb_refl|].
      apply docLe_name. inversion Hsorted as [|? ? _ Hall]; subst.
      rewrite List.Forall_forall in Hall. now apply Hall.
    - intros Hfits. rewrite firstn_all2; [assumption|].
      unfold ordered. rewrite stableSort_length. fold matched in Hfits. lia. }
  intros d p rest c c' Hprefix Hname Hlt Hd.
  destruct (Hin d Hd) as [_ Hrange]. unfold inSearchRange in Hrange.
  apply andb_true_iff in Hrange as [_ Hhi].
  rewrite Hprefix, Hname, search_excludes_greater_byte in Hhi by assumption.
  discriminate.
Qed.

(** ** Errors of the store *)


(** Nothing is caught and retried: an error that the store reports for
    the query of a category is rethrown to the caller as it is. *)
Lemma category_query_error_is_rethrown (store : Policy) (docs : list Item.t)
    (categoryId : option string) (c : string) (sortBy : SortBy) (limitCount : Z)
    (lastVisible : option Item.t) (e : FirestoreErrorCode) :
  truthy categoryId = Some c ->
  store (categoryQuery c) = Some e ->
  getAllItems store docs categoryId sortBy limitCount lastVisible = Rejected e.
Proof.
  intros Hc Hrefused. rewrite (getAllItems_category _ _ _ c) by assumption.
  unfold getItemsByCategory, getDocs. now rewrite Hrefused.
Qed.


(** ** Writes to the cart *)

(** C9: [updateCartItemQuantity] leaves the items collection and every
    other checkout record as they were; in the record it names it sets
    [quantity] and [updatedAt] and keeps [user_id], [item_id], [is_done],
    [last_step], [reason] and [createdAt]; when there is no such record
    the call is rejected and nothing is written. *)
Theorem C9_updateCartItemQuantity_frame (now checkoutId : string) (quantity : Z) (db : Db) :
  let r := fst (updateCartItemQuantity now checkoutId quantity db) in
  let db' := snd (updateCartItemQuantity now checkoutId quantity db) in
  db_items db' = db_items db /\
  (forall other, other <> checkoutId ->
     db_checkouts db' !! other = db_checkouts db !! other) /\
  match db_checkouts db !! checkoutId with
  | Some d =>
      r = Resolved tt /\
      exists d',
        db_checkouts db' !! checkoutId = Some d' /\
        Checkout.quantity d' = quantity /\
        Checkout.updatedAt d' = now /\
        Checkout.user_id d' = Checkout.user_id d /\
        Checkout.item_id d' = Checkout.item_id d /\
        Checkout.is_done d' = Checkout.is_done d /\
        Checkout.last_step d' = Checkout.last_step d /\
        Checkout.reason d' = Checkout.reason d /\
        Checkout.createdAt d' = Checkout.createdAt d
  | None => r = Rejected not_found /\ db' = db
  end.
Proof.
  unfold updateCartItemQuantity, updateDoc.
  destruct (db_checkouts db !! checkoutId) as [d|] eqn:Hd; cbn.
  - split; [reflexivity|]. split.
    + intros other Hother. now apply lookup_insert_ne.
    + split; [reflexivity|]. eexists. split; [apply lookup_insert_eq|].
      cbn. repeat split.
  - repeat split.
Qed.

(** ** The checkout steps *)

Lemma stepRank_completed (s : string) : stepRank s = Some 2%nat -> s = "completed".
Proof.
  unfold stepRank.
  destruct (String.eqb_spec s "added_to_cart"); [discriminate|].
  destruct (String.eqb_spec s "payment"); [discriminate|].
  destruct (String.eqb_spec s "completed"); [auto|discriminate].
Qed.

Lemma stepRank_bound (s : string) (r : nat) : stepRank s = Some r -> (r <= 2)%nat.
Proof.
  unfold stepRank.
  destruct (String.eqb s "added_to_cart"); [intros [= <-]; lia|].
  destruct (String.eqb s "payment"); [intros [= <-]; lia|].
  destruct (String.eqb s "completed"); [intros [= <-]; lia|discriminate].
Qed.

Lemma notBefore_refl (s : string) : is_Some (stepRank s) -> notBefore s s = true.
Proof.
  intros [r Hr]. unfold notBefore. rewrite Hr. apply Nat.leb_refl.
Qed.

Lemma notBefore_trans (a b c : string) :
  notBefore a b = true -> notBefore b c = true -> notBefore a c = true.
Proof.
  unfold notBefore.
  destruct (stepRank a), (stepRank b), (stepRank c); try discriminate.
  rewrite !Nat.leb_le. lia.
Qed.

Lemma notBefore_completed (s : string) :
  is_Some (stepRank s) -> notBefore s "completed" = true.
Proof.
  intros [r Hr]. unfold notBefore. rewrite Hr.
  change (stepRank "completed") with (Some 2%nat).
  apply Nat.leb_le. now apply (stepRank_bound s).
Qed.

Lemma notBefore_ranked (a b : string) :
  notBefore a b = true -> is_Some (stepRank b).
Proof.
  unfold notBefore. destruct (stepRank a), (stepRank b); try discriminate. eauto.
Qed.

Lemma notBefore_after_completed (s : string) :
  notBefore "completed" s = true -> s = "completed".
Proof.
  unfold notBefore. change (stepRank "completed") with (Some 2%nat).
  destruct (stepRank s) as [r|] eqn:Hr; [|discriminate].
  intros H. apply Nat.leb_le in H. apply stepRank_completed.
  pose proof (stepRank_bound s r Hr). rewrite Hr. f_equal. lia.
Qed.

Lemma neverBackward_refl (db : Db) : allOnTrack db -> neverBackward db db.
Proof.
  intros Hdb id d Hd. exists d. split; [assumption|].
  apply notBefore_refl. now apply (Hdb id d).
Qed.

Lemma neverBackward_trans (db1 db2 db3 : Db) :
  neverBackward db1 db2 -> neverBackward db2 db3 -> neverBackward db1 db3.
Proof.
  intros H12 H23 id d Hd.
  destruct (H12 id d Hd) as (d2 & Hd2 & Hstep12).
  destruct (H23 id d2 Hd2) as (d3 & Hd3 & Hstep23).
  exists d3. split; [assumption|]. now apply (notBefore_trans _ (Checkout.last_step d2)).
Qed.

(** One write of [updateDoc] that keeps the record on track and does not
    move its step backward. *)
Lemma updateDoc_step (docId : string) (patch : Checkout.data -> Checkout.data) (db : Db) :
  allOnTrack db ->
  (forall d, db_checkouts db !! docId = Some d ->
     onTrack (patch d) /\
     notBefore (Checkout.last_step d) (Checkout.last_step (patch d)) = true) ->
  allOnTrack (snd (updateDoc docId patch db)) /\
  neverBackward db (snd (updateDoc docId patch db)).
Proof.
  intros Hdb Hpatch. unfold updateDoc.
  destruct (db_checkouts db !! docId) as [d|] eqn:Hd; cbn [snd].
  - destruct (Hpatch d eq_refl) as [Htrack Hstep]. split.
    + intros id d'. cbn. rewrite lookup_insert.
      case_decide; [intros [= <-]; assumption|apply Hdb].
    + intros id d0 Hd0. cbn. rewrite lookup_insert. case_decide.
      * subst id. rewrite Hd in Hd0. injection Hd0 as <-. eauto.
      * exists d0. split; [assumption|]. apply notBefore_refl. now apply (Hdb id d0).
  - split; [assumption|now apply neverBackward_refl].
Qed.

Lemma afterCall_step (c : CartCall) (db : Db) :
  allOnTrack db ->
  respectful c db = true ->
  allOnTrack (afterCall c db) /\ neverBackward db (afterCall c db).
Proof.
  intros Hdb Hc. destruct c as [docId t1 t2 u i q|t cid q|t cid s|t cid]; cbn [afterCall].
  - cbn in Hc. destruct (db_checkouts db !! docId) eqn:Hfresh; [discriminate|].
    unfold addToCart, addDoc. cbn. split.
    + intros id d. cbn. rewrite lookup_insert. case_decide; [|apply Hdb].
      intros [= <-]. split; cbn; [eauto|discriminate].
    + intros id d Hd. cbn. rewrite lookup_insert. case_decide; [congruence|].
      exists d. split; [assumption|]. apply notBefore_refl. now apply (Hdb id d).
  - unfold updateCartItemQuantity.
    destruct (updateDoc cid _ db) as [r db'] eqn:Hupd. cbn [snd].
    change db' with (snd (r, db')). rewrite <- Hupd.
    apply updateDoc_step; [assumption|]. intros d Hd. cbn.
    split; [now apply (Hdb cid d)|]. apply notBefore_refl. now apply (Hdb cid d).
  - unfold updateCheckoutStep.
    destruct (updateDoc cid _ db) as [r db'] eqn:Hupd. cbn [snd].
    change db' with (snd (r, db')). rewrite <- Hupd.
    apply updateDoc_step; [assumption|]. intros d Hd. cbn.
    cbn in Hc. rewrite Hd in Hc. split; [|assumption].
    split; cbn; [now apply (notBefore_ranked (Checkout.last_step d))|].
    intros Hdone. destruct (Hdb cid d Hd) as [_ Hcompleted].
    rewrite (Hcompleted Hdone) in Hc. now apply notBefore_after_completed.
  - unfold completeCheckout.
    destruct (updateDoc cid _ db) as [r db'] eqn:Hupd. cbn [snd].
    change db' with (snd (r, db')). rewrite <- Hupd.
    apply updateDoc_step; [assumption|]. intros d Hd. cbn.
    split; [split; cbn; eauto|].
    apply notBefore_completed. now apply (Hdb cid d).
Qed.

Lemma afterCalls_steps (cs : list CartCall) (db : Db) :
  allOnTrack db ->
  respectfulCalls cs db = true ->
  allOnTrack (afterCalls cs db) /\ neverBackward db (afterCalls cs db).
Proof.
  revert db. induction cs as [|c rest IH]; intros db Hdb Hcs; cbn.
  - split; [assumption|now apply neverBackward_refl].
  - cbn in Hcs. apply andb_true_iff in Hcs as [Hc Hrest].
    destruct (afterCall_step c db Hdb Hc) as [Hdb' Hstep].
    destruct (IH _ Hdb' Hrest) as [Hfinal Hsteps].
    split; [assumption|]. now apply (neverBackward_trans _ (afterCall c db)).
Qed.

Lemma respectfulCalls_app (cs1 cs2 : list CartCall) (db : Db) :
  respectfulCalls (cs1 ++ cs2) db =
  respectfulCalls cs1 db && respectfulCalls cs2 (afterCalls cs1 db).
Proof.
  revert db. induction cs1 as [|c rest IH]; intros db; cbn; [reflexivity|].
  now rewrite IH, andb_assoc.
Qed.

(** C4, as the code has it: [updateCheckoutStep] writes whatever step it
    is given.  Along calls of [addToCart], [updateCartItemQuantity],
    [updateCheckoutStep] and [completeCheckout] in which every
    [updateCheckoutStep] asks for a step of the sequence that is not
    behind the one the record is at, every record is done only when its
    step is [completed], and no record ever moves to an earlier step. *)
Theorem C4_steps_forward_when_callers_ask_forward (db : Db)
    (before after : list CartCall) :
  allOnTrack db ->
  respectfulCalls (before ++ after) db = true ->
  (forall id d,
      db_checkouts (afterCalls (before ++ after) db) !! id = Some d ->
      Checkout.is_done d = true -> Checkout.last_step d = "completed") /\
  neverBackward (afterCalls before db) (afterCalls (before ++ after) db).
Proof.
  intros Hdb Hcalls. rewrite respectfulCalls_app in Hcalls.
  apply andb_true_iff in Hcalls as [Hbefore Hafter].
  destruct (afterCalls_steps before db Hdb Hbefore) as [Hmid _].
  destruct (afterCalls_steps after _ Hmid Hafter) as [Hfinal Hsteps].
  unfold afterCalls in *. rewrite fold_left_app. split; [|assumption].
  intros id d Hd. now apply (Hfinal id d).
Qed.

(** ** Adding to the cart *)

Lemma Permutation_List_filter {A : Type} (p : A -> bool) (l l' : list A) :
  Permutation l l' -> Permutation (List.filter p l) (List.filter p l').
Proof.
  induction 1 as [|x l l' _ IH|x y l|l l' l'' _ IH1 _ IH2]; simpl.
  - constructor.
  - destruct (p x); [now constructor|assumption].
  - destruct (p x), (p y); try reflexivity. apply perm_swap.
  - now transitivity (List.filter p l').
Qed.

Lemma In_checkoutsOf (db : Db) (userId : string) (done : bool) (c : Checkout.t) :
  In c (checkoutsOf db userId done) <->
  db_checkouts db !! Checkout.id c = Some (Checkout.fields c) /\
  Checkout.user_id (Checkout.fields c) = userId /\
  Checkout.is_done (Checkout.fields c) = done.
Proof.
  unfold checkoutsOf. rewrite in_map_iff. split.
  - intros ([id d] & <- & Hin). apply filter_In in Hin as [Hin Hp].
    apply list_elem_of_In, elem_of_map_to_list in Hin. cbn in *.
    apply andb_true_iff in Hp as [Hu Hd].
    apply String.eqb_eq in Hu. apply Bool.eqb_prop in Hd. auto.
  - intros (Hlookup & Hu & Hd). exists (Checkout.id c, Checkout.fields c).
    split; [now destruct c|]. apply filter_In. split.
    + now apply list_elem_of_In, elem_of_map_to_list.
    + cbn. rewrite Hu, Hd, String.eqb_refl. now destruct done.
Qed.

(** C5: when the user has no active line for the item, [addToCart]
    followed by [getCartItems] shows exactly one line for that item: the
    new one, with the given quantity, step [added_to_cart], not done, an
    empty reason, and the two clock readings of the call as [createdAt]
    and [updatedAt]. *)
Theorem C5_addToCart_then_getCartItems (docId nowCreated nowUpdated : string)
    (userId itemId : string) (quantity : Z) (db : Db) :
  db_checkouts db !! docId = None ->
  (forall id d,
      db_checkouts db !! id = Some d ->
      Checkout.user_id d = userId -> Checkout.is_done d = false ->
      Checkout.item_id d <> itemId) ->
  let db' := snd (addToCart docId nowCreated nowUpdated userId itemId quantity db) in
  fst (addToCart docId nowCreated nowUpdated userId itemId quantity db) = Resolved docId /\
  exists cart,
    getCartItems db' userId = Resolved cart /\
    List.filter (fun line => String.eqb (Checkout.item_id (Checkout.fields line)) itemId) cart =
      [ {| Checkout.id := docId;
           Checkout.fields :=
             {| Checkout.user_id := userId;
                Checkout.item_id := itemId;
                Checkout.quantity := quantity;
                Checkout.is_done := false;
                Checkout.last_step := "added_to_cart";
                Checkout.reason := EmptyString;
                Checkout.createdAt := nowCreated;
                Checkout.updatedAt := nowUpdated |} |} ].
Proof.
  intros Hfresh Hnone db'. split; [reflexivity|].
  exists (checkoutsOf db' userId false). split; [reflexivity|].
  set (line := Checkout.mk docId _).
  set (ofItem := fun l : Checkout.t => String.eqb (Checkout.item_id (Checkout.fields l)) itemId).
  apply Permutation_length_1_inv.
  assert (Hold : List.filter ofItem (checkoutsOf db userId false) = []).
  { apply filter_none. intros c Hc. apply In_checkoutsOf in Hc as (Hlookup & Hu & Hd).
    apply String.eqb_neq. now apply (Hnone (Checkout.id c)). }
  symmetry. transitivity (List.filter ofItem (line :: checkoutsOf db userId false)).
  - apply Permutation_List_filter.
    unfold checkoutsOf. subst db'. unfold addToCart, addDoc.
    cbn [snd db_checkouts withCheckouts].
    etransitivity.
    { apply Permutation_map, Permutation_List_filter.
      apply (map_to_list_insert _ _ _ Hfresh). }
    cbn [List.filter fst snd Checkout.user_id Checkout.is_done].
    rewrite String.eqb_refl. reflexivity.
  - cbn [List.filter]. rewrite Hold. unfold ofItem, line.
    cbn [Checkout.fields Checkout.item_id]. rewrite String.eqb_refl. reflexivity.
Qed.

(** ** Order history *)

Lemma pushGroup_keys_known (date : string) (c : Checkout.t)
    (acc : list (string * list Checkout.t)) :
  In date (List.map fst acc) ->
  List.map fst (pushGroup date c acc) = List.map fst acc.
Proof.
  induction acc as [|[d cs] rest IH]; cbn; [contradiction|].
  destruct (String.eqb_spec d date) as [->|Hne]; [reflexivity|].
  intros [Heq|Hin]; [contradiction|]. cbn. now rewrite IH.
Qed.

Lemma pushGroup_keys_new (date : string) (c : Checkout.t)
    (acc : list (string * list Checkout.t)) :
  ~ In date (List.map fst acc) ->
  List.map fst (pushGroup date c acc) = List.map fst acc ++ [date].
Proof.
  induction acc as [|[d cs] rest IH]; cbn; [reflexivity|].
  intros Hnot. destruct (String.eqb_spec d date) as [->|Hne].
  - exfalso. apply Hnot. now left.
  - cbn. rewrite IH; [reflexivity|]. intros Hin. apply Hnot. now right.
Qed.

Lemma filter_onDate_snoc (d : string) (processed : list Checkout.t) (c : Checkout.t) :
  List.filter (onDate d) (processed ++ [c]) =
  List.filter (onDate d) processed ++ (if onDate d c then [c] else []).
Proof. rewrite List.filter_app. reflexivity. Qed.

Lemma pushGroup_groups (processed : list Checkout.t) (c : Checkout.t)
    (acc : list (string * list Checkout.t)) :
  List.NoDup (List.map fst acc) ->
  (~ In (dateOf c) (List.map fst acc) -> List.filter (onDate (dateOf c)) processed = []) ->
  Forall (fun g => snd g = List.filter (onDate (fst g)) processed) acc ->
  Forall (fun g => snd g = List.filter (onDate (fst g)) (processed ++ [c]))
    (pushGroup (dateOf c) c acc).
Proof.
  induction acc as [|[d cs] rest IH]; cbn; intros Hnd Hnew Hacc.
  - constructor; [|constructor]. cbn. rewrite filter_onDate_snoc, Hnew by (intros []).
    unfold onDate. now rewrite String.eqb_refl.
  - inversion Hnd as [|? ? Hd Hrest]; subst.
    inversion Hacc as [|? ? Hcs Hothers]; subst. cbn in Hcs.
    destruct (String.eqb_spec d (dateOf c)) as [->|Hne].
    + constructor.
      * cbn. rewrite filter_onDate_snoc, Hcs. unfold onDate at 3.
        now rewrite String.eqb_refl.
      * rewrite List.Forall_forall in Hothers |- *. intros [d' cs'] Hg. cbn.
        pose proof (Hothers _ Hg) as Hcs'. cbn in Hcs'.
        rewrite filter_onDate_snoc, <- Hcs'.
        assert (Hd' : dateOf c <> d').
        { intros Heq. apply Hd. rewrite Heq. now apply (in_map fst _ (d', cs')). }
        unfold onDate. apply String.eqb_neq in Hd'. rewrite Hd'.
        now rewrite app_nil_r.
    + constructor.
      * cbn. rewrite filter_onDate_snoc, Hcs. unfold onDate at 3.
        assert (Hne' : dateOf c <> d) by congruence.
        apply String.eqb_neq in Hne'. rewrite Hne'. now rewrite app_nil_r.
      * apply IH; [assumption| |assumption]. intros Hnot. apply Hnew.
        intros [Heq|Hin]; [now apply Hne|now apply Hnot].
Qed.

Lemma groupedCheckouts_snoc (cs : list Checkout.t) (c : Checkout.t) :
  groupedCheckouts (cs ++ [c]) = pushGroup (dateOf c) c (groupedCheckouts cs).
Proof. unfold groupedCheckouts. now rewrite fold_left_app. Qed.

Lemma groupedCheckouts_groups (cs : list Checkout.t) :
  List.NoDup (List.map fst (groupedCheckouts cs)) /\
  (forall d, In d (List.map fst (groupedCheckouts cs)) <->
             exists c, In c cs /\ dateOf c = d) /\
  Forall (fun g => snd g = List.filter (onDate (fst g)) cs) (groupedCheckouts cs).
Proof.
  induction cs as [|c cs (Hnd & Hkeys & Hgroups)] using rev_ind.
  - cbn. split; [constructor|]. split; [|constructor].
    intros d. split; [contradiction|]. now intros (c & [] & _).
  - rewrite groupedCheckouts_snoc.
    destruct (in_dec string_dec (dateOf c) (List.map fst (groupedCheckouts cs))) as [Hin|Hnot].
    + rewrite pushGroup_keys_known by assumption. split; [assumption|]. split.
      * intros d. rewrite Hkeys. split.
        -- intros (x & Hx & Hd). exists x. split; [apply in_or_app; now left|assumption].
        -- intros (x & Hx & Hd). apply in_app_or in Hx as [Hx|[<-|[]]]; [eauto|].
           subst d. now apply Hkeys.
      * apply pushGroup_groups; [assumption| |assumption].
        intros Hnot. now elim Hnot.
    + rewrite pushGroup_keys_new by assumption. split; [|split].
      * apply List.NoDup_app; [assumption|repeat constructor; auto|].
        intros d Hd [<-|[]]. contradiction.
      * intros d. rewrite in_app_iff, Hkeys. split.
        -- intros [(x & Hx & Hd)|[<-|[]]].
           ++ exists x. split; [apply in_or_app; now left|assumption].
           ++ exists c. split; [apply in_or_app; right; now left|reflexivity].
        -- intros (x & Hx & Hd). apply in_app_or in Hx as [Hx|[<-|[]]]; [left; eauto|].
           right. now left.
      * apply pushGroup_groups; [assumption| |assumption].
        intros _. apply filter_none. intros x Hx. apply String.eqb_neq.
        intros Hd. apply Hnot, Hkeys. eauto.
Qed.

Lemma fetchOrders_groups (db : Db) (uid : string) :
  fetchOrders db uid =
  List.map (orderOfGroup db) (groupedCheckouts (checkoutsOf db uid true)).
Proof.
  unfold fetchOrders. now destruct (checkoutsOf db uid true).
Qed.

Lemma orOne_positive (q : Z) : 1 <= q -> orOne q = q.
Proof.
  intros Hq. unfold orOne. destruct (Z.eqb_spec q 0); [lia|reflexivity].
Qed.

Lemma hydrate_lineItems (db : Db) (lines : list Checkout.t) :
  omap (fun x => x) (List.map (hydrate db) lines) = flat_map (lineItems db) lines.
Proof.
  induction lines as [|c rest IH]; [reflexivity|].
  cbn [List.map flat_map]. unfold hydrate at 1, lineItems at 1.
  destruct (getItemDoc db _) as [itemDoc|]; cbn; now rewrite IH.
Qed.

Lemma sumTotal_lineItems (db : Db) (lines : list Checkout.t) (start : Number.t) :
  List.fold_left
    (fun sum item =>
       Number.add sum
         (Number.mul (Number.ofQ (Item.price (OrderItem.item item)))
            (Number.ofZ (OrderItem.quantity item))))
    (flat_map (lineItems db) lines) start =
  List.fold_left
    (fun acc line => match lineTotal db line with Some x => Number.add acc x | None => acc end)
    lines start.
Proof.
  revert start. induction lines as [|c rest IH]; intros start; [reflexivity|].
  cbn [flat_map List.fold_left]. rewrite fold_left_app, IH. f_equal.
  unfold lineItems, lineTotal.
  destruct (getItemDoc db _) as [itemDoc|]; reflexivity.
Qed.

(** C6, as the code has it: the orders of a user are the completed lines
    of the user grouped by date, one order for each date.  An order
    lists, for each of its lines whose item still exists, that item with
    the quantity of the line, a stored quantity of 0 shown as 1, and
    nothing for a line whose item is gone.  Its total is the sum in
    doubles, from 0 and in the order of its lines, of the item's current
    price times that quantity, a line without item adding nothing. *)
Theorem C6_order_total_over_existing_items (db : Db) (uid : string) :
  let completed := checkoutsOf db uid true in
  let orders := fetchOrders db uid in
  List.NoDup (List.map Order.date orders) /\
  (forall line, In line completed -> In (dateOf line) (List.map Order.date orders)) /\
  Forall (fun order =>
            let lines := List.filter (onDate (Order.date order)) completed in
            lines <> [] /\
            Order.items order = flat_map (lineItems db) lines /\
            Order.total order = sumOver (lineTotal db) lines)
         orders.
Proof.
  intros completed orders. subst orders. rewrite fetchOrders_groups.
  fold completed.
  destruct (groupedCheckouts_groups completed) as (Hnd & Hkeys & Hgroups).
  assert (Hdates : List.map Order.date (List.map (orderOfGroup db) (groupedCheckouts completed))
                   = List.map fst (groupedCheckouts completed)).
  { rewrite List.map_map. apply List.map_ext. now intros [d cs]. }
  rewrite Hdates. split; [assumption|]. split.
  - intros line Hline. apply Hkeys. eauto.
  - rewrite List.Forall_forall in Hgroups |- *. intros order Horder.
    apply in_map_iff in Horder as ([d cs] & <- & Hg).
    pose proof (Hgroups _ Hg) as Hcs. cbn in Hcs. cbn [orderOfGroup Order.date Order.items Order.total].
    rewrite <- Hcs.
    split; [|split].
    + assert (Hd : In d (List.map fst (groupedCheckouts completed)))
        by now apply (in_map fst _ (d, cs)).
      apply Hkeys in Hd as (c & Hc & Hdate). intros Hnil.
      assert (Hin : In c cs).
      { rewrite Hcs. apply filter_In. split; [assumption|].
        unfold onDate. rewrite Hdate. apply String.eqb_refl. }
      rewrite Hnil in Hin. contradiction.
    + apply hydrate_lineItems.
    + rewrite hydrate_lineItems. unfold sumTotal, sumOver. apply sumTotal_lineItems.
Qed.

(** * More of the storefront: properties *)

(** ** The order of the store *)

(** The order in which a collection hands out its documents depends on
    their ids only. *)
Lemma map_to_list_keys {A B : Type} (m1 : gmap string A) (m2 : gmap string B) :
  (forall j, is_Some (m1 !! j) <-> is_Some (m2 !! j)) ->
  List.map fst (map_to_list m1) = List.map fst (map_to_list m2).
Proof.
  intros Hdom.
  assert (Hunit : (fun _ => tt) <$> m1 = (fun _ => tt) <$> m2).
  { apply map_eq. intros j. rewrite !lookup_fmap. specialize (Hdom j).
    destruct (m1 !! j) as [a|], (m2 !! j) as [b|]; cbn; try reflexivity.
    - destruct Hdom as [H _]. destruct H as [? H]; [eauto|discriminate].
    - destruct Hdom as [_ H]. destruct H as [? H]; [eauto|discriminate]. }
  apply (f_equal map_to_list) in Hunit. rewrite !map_to_list_fmap in Hunit.
  apply (f_equal (List.map fst)) in Hunit.
  change (@fmap list _ _ _ ?f ?l) with (List.map f l) in Hunit.
  rewrite !List.map_map in Hunit. exact Hunit.
Qed.

Lemma map_to_list_from_keys {A : Type} (m : gmap string A) :
  map_to_list m =
  omap (fun i => match m !! i with Some x => Some (i, x) | None => None end)
    (List.map fst (map_to_list m)).
Proof.
  assert (H : Forall (fun kv => m !! fst kv = Some (snd kv)) (map_to_list m)).
  { apply List.Forall_forall. intros [i x] Hin. cbn.
    now apply elem_of_map_to_list, list_elem_of_In. }
  induction H as [|[i x] l Hx _ IH]; [reflexivity|].
  cbn in *. rewrite Hx. cbn. now rewrite <- IH.
Qed.

Lemma map_to_list_alter {A : Type} (f : A -> A) (k : string) (m : gmap string A) :
  map_to_list (alter f k m) =
  List.map (fun kv => (fst kv, if String.eqb (fst kv) k then f (snd kv) else snd kv))
    (map_to_list m).
Proof.
  rewrite (map_to_list_from_keys (alter f k m)).
  rewrite (map_to_list_keys (alter f k m) m).
  - assert (H : Forall (fun kv => m !! fst kv = Some (snd kv)) (map_to_list m)).
    { apply List.Forall_forall. intros [i x] Hin. cbn.
      now apply elem_of_map_to_list, list_elem_of_In. }
    induction H as [|[i x] l Hx _ IH]; [reflexivity|].
    cbn in *. rewrite lookup_alter. destruct (String.eqb_spec i k) as [->|Hne].
    + rewrite decide_True by reflexivity. rewrite Hx. cbn. now rewrite IH.
    + rewrite decide_False by congruence. rewrite Hx. cbn. now rewrite IH.
  - intros j. rewrite lookup_alter. case_decide; [|reflexivity].
    subst j. destruct (m !! k); cbn; split; intros [? H]; eauto; discriminate.
Qed.

Lemma updateDoc_alter (docId : string) (patch : Checkout.data -> Checkout.data) (db : Db) :
  db_checkouts (snd (updateDoc docId patch db)) = alter patch docId (db_checkouts db) /\
  db_items (snd (updateDoc docId patch db)) = db_items db.
Proof.
  unfold updateDoc. destruct (db_checkouts db !! docId) as [d|] eqn:Hd; cbn.
  - split; [|reflexivity]. apply map_eq. intros j.
    rewrite lookup_insert, lookup_alter. case_decide; [|reflexivity].
    subst j. now rewrite Hd.
  - split; [|reflexivity]. apply map_eq. intros j. rewrite lookup_alter.
    case_decide; [|reflexivity]. subst j. now rewrite Hd.
Qed.

Lemma allCheckouts_updateDoc (docId : string) (patch : Checkout.data -> Checkout.data)
    (db : Db) :
  allCheckouts (snd (updateDoc docId patch db)) =
  List.map (patched docId patch) (allCheckouts db).
Proof.
  unfold allCheckouts. destruct (updateDoc_alter docId patch db) as [-> _].
  rewrite map_to_list_alter, !List.map_map. apply List.map_ext.
  intros [i x]. unfold patched. cbn. now destruct (String.eqb i docId).
Qed.

Lemma checkoutsOf_allCheckouts (db : Db) (userId : string) (done : bool) :
  checkoutsOf db userId done =
  List.filter
    (fun line => String.eqb (Checkout.user_id (Checkout.fields line)) userId
                 && Bool.eqb (Checkout.is_done (Checkout.fields line)) done)
    (allCheckouts db).
Proof.
  unfold checkoutsOf, allCheckouts.
  induction (map_to_list (db_checkouts db)) as [|[i x] l IH]; [reflexivity|].
  cbn. destruct (_ && _); cbn; now rewrite IH.
Qed.

Lemma allCheckouts_NoDup (db : Db) : List.NoDup (List.map Checkout.id (allCheckouts db)).
Proof.
  unfold allCheckouts. rewrite List.map_map. cbn.
  apply NoDup_ListNoDup. apply (NoDup_fst_map_to_list (db_checkouts db)).
Qed.

Lemma In_allCheckouts (db : Db) (line : Checkout.t) :
  In line (allCheckouts db) <->
  db_checkouts db !! Checkout.id line = Some (Checkout.fields line).
Proof.
  unfold allCheckouts. rewrite in_map_iff. split.
  - intros ([i x] & <- & Hin). cbn. now apply elem_of_map_to_list, list_elem_of_In.
  - intros H. exists (Checkout.id line, Checkout.fields line). split; [now destruct line|].
    now apply list_elem_of_In, elem_of_map_to_list.
Qed.

(** ** The cart and checkout service, one call at a time *)

(** X1: once [removeFromCart] has had its delete performed, the record
    it names is gone, a line is in a user's cart or orders exactly when it
    was there before and is not the removed one, every other record and
    the items are untouched, and removing a record that does not exist
    changes nothing. *)
Theorem X1_removeFromCart_removes_one_record (checkoutId : string) (db : Db) :
  let db' := snd (removeFromCart checkoutId db) in
  db_items db' = db_items db /\
  db_checkouts db' !! checkoutId = None /\
  (forall other, other <> checkoutId ->
     db_checkouts db' !! other = db_checkouts db !! other) /\
  (forall userId done line,
     In line (checkoutsOf db' userId done) <->
     In line (checkoutsOf db userId done) /\ Checkout.id line <> checkoutId) /\
  (db_checkouts db !! checkoutId = None -> db' = db).
Proof.
  unfold removeFromCart, deleteDoc. cbn.
  split; [reflexivity|].
  split; [apply lookup_delete_eq|].
  split; [intros other Hother; now apply lookup_delete_ne|].
  split.
  - intros userId done line. rewrite !In_checkoutsOf. cbn.
    rewrite lookup_delete. case_decide as Hid.
    + split; [intros [H _]; discriminate|]. intros [_ Hne]. now elim Hne.
    + split; [intros (H1 & H2 & H3); repeat split; auto|].
      intros ((H1 & H2 & H3) & _). now repeat split.
  - intros Hmissing. destruct db as [items checkouts]. cbn in *.
    unfold withCheckouts. cbn. f_equal. now apply delete_id.
Qed.

Lemma filter_map_commute {A B : Type} (f : A -> B) (p : B -> bool) (q : A -> bool)
    (l : list A) :
  (forall x, p (f x) = q x) ->
  List.filter p (List.map f l) = List.map f (List.filter q l).
Proof.
  intros Hpq. induction l as [|x t IH]; [reflexivity|].
  cbn. rewrite Hpq. destruct (q x); cbn; now rewrite IH.
Qed.

Lemma checkoutsOf_updateDoc_same_owner (docId : string)
    (patch : Checkout.data -> Checkout.data) (db : Db) (userId : string) (done : bool) :
  (forall d, Checkout.user_id (patch d) = Checkout.user_id d /\
             Checkout.is_done (patch d) = Checkout.is_done d) ->
  checkoutsOf (snd (updateDoc docId patch db)) userId done =
  List.map (patched docId patch) (checkoutsOf db userId done).
Proof.
  intros Hkeep. rewrite !checkoutsOf_allCheckouts, allCheckouts_updateDoc.
  apply filter_map_commute. intros line. unfold patched.
  destruct (String.eqb (Checkout.id line) docId); [|reflexivity].
  cbn. destruct (Hkeep (Checkout.fields line)) as [-> ->]. reflexivity.
Qed.

(** X2: [updateCheckoutStep] writes [last_step] and [updatedAt] of the
    record it names and nothing else; a record that does not exist gives a
    rejection and no write.  It never touches [is_done]: every user's cart
    and orders hold the same lines as before, the named one with its new
    step, so a line stepped to [completed] this way stays in the cart. *)
Theorem X2_updateCheckoutStep_only_moves_the_step (now checkoutId lastStep : string)
    (db : Db) :
  let r := fst (updateCheckoutStep now checkoutId lastStep db) in
  let db' := snd (updateCheckoutStep now checkoutId lastStep db) in
  db_items db' = db_items db /\
  (forall other, other <> checkoutId ->
     db_checkouts db' !! other = db_checkouts db !! other) /\
  (forall userId done,
     List.map Checkout.id (checkoutsOf db' userId done) =
     List.map Checkout.id (checkoutsOf db userId done)) /\
  match db_checkouts db !! checkoutId with
  | Some d =>
      r = Resolved tt /\
      db_checkouts db' !! checkoutId =
        Some {| Checkout.user_id := Checkout.user_id d;
                Checkout.item_id := Checkout.item_id d;
                Checkout.quantity := Checkout.quantity d;
                Checkout.is_done := Checkout.is_done d;
                Checkout.last_step := lastStep;
                Checkout.reason := Checkout.reason d;
                Checkout.createdAt := Checkout.createdAt d;
                Checkout.updatedAt := now |}
  | None => r = Rejected not_found /\ db' = db
  end.
Proof.
  unfold updateCheckoutStep.
  set (patch := fun d : Checkout.data => Checkout.mkData _ _ _ _ _ _ _ _).
  destruct (updateDoc checkoutId patch db) as [r0 db0] eqn:Hupd. cbn [fst snd].
  assert (Hdb : db0 = snd (updateDoc checkoutId patch db)) by now rewrite Hupd.
  assert (Hr : r0 = fst (updateDoc checkoutId patch db)) by now rewrite Hupd.
  rewrite catchRethrow_id. subst db0 r0. clear Hupd.
  destruct (updateDoc_alter checkoutId patch db) as [Hc Hi].
  split; [assumption|]. split.
  { intros other Hother. rewrite Hc. now apply lookup_alter_ne. }
  split.
  { intros userId done. rewrite checkoutsOf_updateDoc_same_owner by (intros d; now split).
    rewrite List.map_map. apply List.map_ext. intros line. unfold patched.
    now destruct (String.eqb (Checkout.id line) checkoutId). }
  unfold updateDoc. destruct (db_checkouts db !! checkoutId) as [d|] eqn:Hd; cbn.
  - split; [reflexivity|]. apply lookup_insert_eq.
  - now split.
Qed.

(** X3: [completeCheckout] on an existing record resolves, sets [is_done],
    the step [completed] and [updatedAt], and keeps the other fields; the
    line leaves the cart of every user and is, with its new fields, among
    the orders of its owner; no other line moves. *)
Theorem X3_completeCheckout_moves_line_to_orders (now checkoutId : string)
    (d : Checkout.data) (db : Db) :
  db_checkouts db !! checkoutId = Some d ->
  let db' := snd (completeCheckout now checkoutId db) in
  let d' := {| Checkout.user_id := Checkout.user_id d;
               Checkout.item_id := Checkout.item_id d;
               Checkout.quantity := Checkout.quantity d;
               Checkout.is_done := true;
               Checkout.last_step := "completed";
               Checkout.reason := Checkout.reason d;
               Checkout.createdAt := Checkout.createdAt d;
               Checkout.updatedAt := now |} in
  fst (completeCheckout now checkoutId db) = Resolved tt /\
  db_items db' = db_items db /\
  db_checkouts db' !! checkoutId = Some d' /\
  (forall other, other <> checkoutId ->
     db_checkouts db' !! other = db_checkouts db !! other) /\
  (forall userId line,
     In line (checkoutsOf db' userId false) <->
     In line (checkoutsOf db userId false) /\ Checkout.id line <> checkoutId) /\
  (forall userId line,
     In line (checkoutsOf db' userId true) <->
     (line = Checkout.mk checkoutId d' /\ userId = Checkout.user_id d) \/
     (In line (checkoutsOf db userId true) /\ Checkout.id line <> checkoutId)).
Proof.
  intros Hd db' d'. subst db'. unfold completeCheckout, updateDoc. rewrite Hd. cbn.
  fold d'.
  split; [reflexivity|]. split; [reflexivity|].
  split; [apply lookup_insert_eq|].
  split; [intros other Hother; now apply lookup_insert_ne|].
  split.
  - intros userId line. rewrite !In_checkoutsOf. cbn. rewrite lookup_insert.
    case_decide as Hid.
    + split.
      * intros (H1 & _ & H3). injection H1 as H1. rewrite <- H1 in H3. discriminate.
      * intros [_ Hne]. now elim Hne.
    + split; [intros (H1 & H2 & H3); repeat split; auto|].
      intros ((H1 & H2 & H3) & _). now repeat split.
  - intros userId line. rewrite !In_checkoutsOf. cbn. rewrite lookup_insert.
    case_decide as Hid.
    + split.
      * intros (H1 & H2 & _). left. injection H1 as H1.
        destruct line as [lid lfields]. cbn in *. subst. now split.
      * intros [[-> ->]|[_ Hne]]; [cbn; now repeat split|now elim Hne].
    + split.
      * intros (H1 & H2 & H3). right. repeat split; auto.
      * intros [[-> _]|((H1 & H2 & H3) & _)]; [now elim Hid|now repeat split].
Qed.

(** X4: [addToCart] under a new id adds one line to the cart of the user
    and leaves every other line of every user where it was.  It never
    merges with a line the user already has for the item: the number of
    cart lines for that item grows by one. *)
Theorem X4_addToCart_adds_one_line (docId nowCreated nowUpdated : string)
    (userId itemId : string) (quantity : Z) (db : Db) :
  db_checkouts db !! docId = None ->
  let db' := snd (addToCart docId nowCreated nowUpdated userId itemId quantity db) in
  let line :=
    {| Checkout.id := docId;
       Checkout.fields :=
         {| Checkout.user_id := userId;
            Checkout.item_id := itemId;
            Checkout.quantity := quantity;
            Checkout.is_done := false;
            Checkout.last_step := "added_to_cart";
            Checkout.reason := EmptyString;
            Checkout.createdAt := nowCreated;
            Checkout.updatedAt := nowUpdated |} |} in
  let forItem := fun l : Checkout.t =>
    String.eqb (Checkout.item_id (Checkout.fields l)) itemId in
  db_items db' = db_items db /\
  (forall other, other <> docId ->
     db_checkouts db' !! other = db_checkouts db !! other) /\
  Permutation (checkoutsOf db' userId false) (line :: checkoutsOf db userId false) /\
  (forall user done, (user = userId /\ done = false -> False) ->
     Permutation (checkoutsOf db' user done) (checkoutsOf db user done)) /\
  length (List.filter forItem (checkoutsOf db' userId false)) =
    S (length (List.filter forItem (checkoutsOf db userId false))).
Proof.
  intros Hfresh db' line forItem.
  assert (Hall : forall user done,
    Permutation (checkoutsOf db' user done)
      (List.filter
         (fun l => String.eqb (Checkout.user_id (Checkout.fields l)) user
                   && Bool.eqb (Checkout.is_done (Checkout.fields l)) done)
         (line :: allCheckouts db))).
  { intros user done. rewrite checkoutsOf_allCheckouts.
    apply Permutation_List_filter. unfold allCheckouts. subst db'.
    unfold addToCart, addDoc. cbn [snd db_checkouts withCheckouts].
    apply (Permutation_map (fun kv => Checkout.mk (fst kv) (snd kv))
             (map_to_list_insert _ _ _ Hfresh)). }
  assert (Hcart : Permutation (checkoutsOf db' userId false)
                    (line :: checkoutsOf db userId false)).
  { rewrite Hall. cbn [List.filter line Checkout.fields Checkout.user_id Checkout.is_done].
    rewrite String.eqb_refl. cbn [andb Bool.eqb].
    now rewrite <- checkoutsOf_allCheckouts. }
  split; [reflexivity|].
  split; [intros other Hother; subst db'; cbn; now apply lookup_insert_ne|].
  split; [assumption|]. split.
  - intros user done Hother. rewrite Hall.
    cbn [List.filter line Checkout.fields Checkout.user_id Checkout.is_done].
    rewrite <- checkoutsOf_allCheckouts.
    destruct (String.eqb_spec userId user) as [->|Hne]; [|reflexivity].
    destruct done; [reflexivity|]. elim Hother. now split.
  - rewrite (Permutation_length (Permutation_List_filter forItem _ _ Hcart)).
    cbn [List.filter]. unfold forItem at 1, line.
    cbn [Checkout.fields Checkout.item_id]. now rewrite String.eqb_refl.
Qed.

(** ** What a search finds *)

Lemma between_prefix_bounds (q n s : string) :
  String.leb q n = true -> String.leb n (q ++ s) = true ->
  exists rest, n = (q ++ rest)%string /\ String.leb rest s = true.
Proof.
  revert n. induction q as [|c q IH]; intros n Hlo Hhi.
  - exists n. now split.
  - destruct n as [|c' n]; [discriminate|].
    unfold String.leb in Hlo, Hhi.
    change (String c q ++ s)%string with (String c (q ++ s)) in Hhi.
    cbn [String.compare] in Hlo, Hhi.
    rewrite (Ascii.compare_antisym c' c) in Hhi.
    destruct (Ascii.compare c c') eqn:Hc; cbn [CompOpp] in Hhi; try discriminate.
    apply Ascii.compare_eq_iff in Hc as <-.
    destruct (IH n) as (rest & -> & Hrest); [exact Hlo|exact Hhi|].
    exists rest. now split.
Qed.

Lemma String_append_cancel (q a b : string) : (q ++ a = q ++ b)%string -> a = b.
Proof.
  induction q as [|c q IH]; intros H; [exact H|].
  injection H as H. auto.
Qed.

Lemma inSearchRange_prefix (q : string) (d : Item.t) :
  inSearchRange q d = true <->
  exists rest, Item.name d = (q ++ rest)%string /\ String.leb rest uF8FF = true.
Proof.
  unfold inSearchRange. rewrite andb_true_iff. split.
  - intros [Hlo Hhi]. now apply between_prefix_bounds.
  - intros (rest & -> & Hrest). split; [apply String_leb_prefix|].
    unfold String.leb in *. now rewrite String_compare_app.
Qed.

(** X5: every item that [searchItems] returns has a name that starts with
    the query, the rest of the name being bytewise at most U+F8FF.  An
    item whose name starts with the query but goes on above U+F8FF (a
    character beyond the private-use area, an emoji) is never returned;
    when the names in range fit the limit, every item whose name goes on
    at or below U+F8FF is returned. *)
Theorem X5_search_finds_names_starting_with_query (store : Policy) (docs : list Item.t)
    (searchQuery : string) (limitCount : Z) :
  0 < limitCount ->
  (forall q, store q = None) ->
  exists found,
    searchItems store docs searchQuery limitCount = Resolved found /\
    (forall d, In d found ->
       exists rest, Item.name d = (searchQuery ++ rest)%string /\
                    String.leb rest uF8FF = true) /\
    (forall d rest, Item.name d = (searchQuery ++ rest)%string ->
       String.leb rest uF8FF = false -> ~ In d found) /\
    (Z.of_nat (length (List.filter (inSearchRange searchQuery) docs)) <= limitCount ->
     forall d rest, In d docs -> Item.name d = (searchQuery ++ rest)%string ->
       String.leb rest uF8FF = true -> In d found).
Proof.
  intros Hn Hserved. eexists. split; [now apply searchItems_served|].
  set (ordered := stableSort (docLe f_name asc) (List.filter (inSearchRange searchQuery) docs)).
  assert (Hin : forall d, In d (firstn (Z.to_nat limitCount) ordered) ->
                          inSearchRange searchQuery d = true).
  { intros d Hd. apply In_firstn_elim, stableSort_In, filter_In in Hd. now destruct Hd. }
  split; [|split].
  - intros d Hd. now apply inSearchRange_prefix, Hin.
  - intros d rest Hname Hrest Hd. apply Hin, inSearchRange_prefix in Hd.
    destruct Hd as (rest' & Hname' & Hrest'). rewrite Hname in Hname'.
    apply String_append_cancel in Hname'. subst rest'. congruence.
  - intros Hfits d rest Hd Hname Hrest.
    rewrite firstn_all2 by (unfold ordered; rewrite stableSort_length; lia).
    apply stableSort_In, filter_In. split; [assumption|].
    apply inSearchRange_prefix. eauto.
Qed.

(** ** The cart page *)

Lemma omap_length_le {A B : Type} (f : A -> option B) (l : list A) :
  (length (omap f l) <= length l)%nat.
Proof.
  induction l as [|x t IH]; cbn; [lia|]. destruct (f x); cbn; lia.
Qed.

Lemma omap_length_all {A B : Type} (f : A -> option B) (l : list A) :
  length (omap f l) = length l <-> (forall x, In x l -> is_Some (f x)).
Proof.
  induction l as [|x t IH]; cbn.
  - split; [intros _ x []|reflexivity].
  - pose proof (omap_length_le f t) as Hle. destruct (f x) as [y|] eqn:Hfx; cbn.
    + split.
      * intros Hlen z [<-|Hz]; [rewrite Hfx; eauto|]. apply IH; [lia|assumption].
      * intros Hall. f_equal. apply IH. intros z Hz. apply Hall. now right.
    + split; [lia|]. intros Hall. destruct (Hall x (or_introl eq_refl)) as [y Hy].
      congruence.
Qed.

Lemma omap_filter_fused {A B : Type} (f : A -> option B) (p : A -> bool) (l : list A) :
  omap f (List.filter p l) = omap (fun x => if p x then f x else None) l.
Proof.
  induction l as [|x t IH]; [reflexivity|].
  cbn. destruct (p x); cbn; now rewrite IH.
Qed.

Lemma omap_ext_In {A B : Type} (f g : A -> option B) (l : list A) :
  (forall x, In x l -> f x = g x) -> omap f l = omap g l.
Proof.
  induction l as [|x t IH]; intros H; [reflexivity|].
  cbn. rewrite (H x (or_introl eq_refl)), IH; [reflexivity|].
  intros y Hy. apply H. now right.
Qed.

Lemma omap_map_fused {A B C : Type} (f : B -> option C) (g : A -> B) (l : list A) :
  omap f (List.map g l) = omap (fun x => f (g x)) l.
Proof.
  induction l as [|x t IH]; [reflexivity|]. cbn. now rewrite IH.
Qed.

Lemma getItemDoc_found (db : Db) (itemId : string) (item : Item.t) :
  getItemDoc db itemId = Some item -> In item (db_items db) /\ Item.id item = itemId.
Proof.
  unfold getItemDoc. intros H. apply find_some in H as [Hin Hid].
  split; [assumption|]. now apply String.eqb_eq.
Qed.

Lemma getItemDoc_missing (db : Db) (itemId : string) :
  getItemDoc db itemId = None <-> (forall item, In item (db_items db) -> Item.id item <> itemId).
Proof.
  unfold getItemDoc. split.
  - intros H item Hin Hid. apply (find_none _ _ H) in Hin.
    apply String.eqb_neq in Hin. contradiction.
  - intros H. destruct (List.find _ _) as [item|] eqn:Hfind; [|reflexivity].
    apply find_some in Hfind as [Hin Hid]. apply String.eqb_eq in Hid.
    elim (H item Hin Hid).
Qed.

Lemma cartRows_of_lines (db : Db) (lines : list Checkout.t) :
  List.Forall2
    (fun row line =>
       CartItem.id row = Checkout.id line /\
       CartItem.item_id row = Checkout.item_id (Checkout.fields line) /\
       CartItem.quantity row = orOne (Checkout.quantity (Checkout.fields line)) /\
       getItemDoc db (Checkout.item_id (Checkout.fields line)) = Some (CartItem.item row))
    (omap (cartRow db) lines)
    (List.filter
       (fun line =>
          match getItemDoc db (Checkout.item_id (Checkout.fields line)) with
          | Some _ => true
          | None => false
          end)
       lines).
Proof.
  induction lines as [|line rest IH]; [constructor|].
  cbn [omap list_omap List.filter]. unfold cartRow at 1.
  destruct (getItemDoc db (Checkout.item_id (Checkout.fields line))) as [item|] eqn:Hitem.
  - constructor; [|exact IH]. cbn. now repeat split.
  - exact IH.
Qed.

(** X6: the cart page shows one row for each active line of the user
    whose item still exists, in the order of the lines, and no row for a
    line whose item is gone.  The row of a line carries the id and the
    [item_id] of the line, its quantity, a stored 0 shown as 1, and the
    item that the catalogue holds under that [item_id].  The badge counts
    every active line, so it is never below the number of rows, and the
    two agree exactly when no active line of the user points at a missing
    item. *)
Theorem X6_cart_rows_are_lines_with_existing_item (db : Db) (uid : string) :
  let rows := fetchCartItems db (Some uid) [] in
  let shownLines :=
    List.filter
      (fun line =>
         match getItemDoc db (Checkout.item_id (Checkout.fields line)) with
         | Some _ => true
         | None => false
         end)
      (checkoutsOf db uid false) in
  List.Forall2
    (fun row line =>
       CartItem.id row = Checkout.id line /\
       CartItem.item_id row = Checkout.item_id (Checkout.fields line) /\
       CartItem.quantity row = orOne (Checkout.quantity (Checkout.fields line)) /\
       getItemDoc db (Checkout.item_id (Checkout.fields line)) = Some (CartItem.item row))
    rows shownLines /\
  List.map CartItem.id rows = List.map Checkout.id shownLines /\
  (forall row, In row rows ->
     In (CartItem.item row) (db_items db) /\
     Item.id (CartItem.item row) = CartItem.item_id row) /\
  (length rows <= fetchCartCount db uid)%nat /\
  (length rows = fetchCartCount db uid <->
   forall line, In line (checkoutsOf db uid false) ->
     is_Some (getItemDoc db (Checkout.item_id (Checkout.fields line)))).
Proof.
  cbn. unfold fetchCartCount.
  set (lines := checkoutsOf db uid false).
  split; [apply cartRows_of_lines|]. split; [|split; [|split]].
  - induction lines as [|line rest IH]; [reflexivity|].
    cbn. unfold cartRow at 1.
    destruct (getItemDoc db _); cbn; now rewrite IH.
  - intros row Hrow. apply list_elem_of_In, list_elem_of_omap in Hrow.
    destruct Hrow as (line & _ & Hrow). unfold cartRow in Hrow.
    destruct (getItemDoc db _) as [item|] eqn:Hitem; [|discriminate].
    injection Hrow as <-. cbn. now apply getItemDoc_found.
  - apply omap_length_le.
  - rewrite omap_length_all. split; intros H line Hline.
    + destruct (H line Hline) as [row Hrow]. unfold cartRow in Hrow.
      destruct (getItemDoc db _); [eauto|discriminate].
    + destruct (H line Hline) as [item Hitem]. unfold cartRow. rewrite Hitem. eauto.
Qed.

Lemma fetchCartItems_rows (db : Db) (uid : string) (cartItems : list CartItem.t) :
  fetchCartItems db (Some uid) cartItems = omap (cartRow db) (checkoutsOf db uid false).
Proof. reflexivity. Qed.

Lemma cartRow_same_items (db db' : Db) (line : Checkout.t) :
  db_items db' = db_items db -> cartRow db' line = cartRow db line.
Proof. intros H. unfold cartRow, getItemDoc. now rewrite H. Qed.

Lemma updateCartItemQuantity_updateDoc (now checkoutId : string) (quantity : Z) (db : Db) :
  exists patch,
    updateCartItemQuantity now checkoutId quantity db = updateDoc checkoutId patch db /\
    forall d,
      Checkout.user_id (patch d) = Checkout.user_id d /\
      Checkout.is_done (patch d) = Checkout.is_done d /\
      Checkout.item_id (patch d) = Checkout.item_id d /\
      Checkout.quantity (patch d) = quantity.
Proof.
  eexists. split.
  - unfold updateCartItemQuantity. destruct (updateDoc _ _ _) as [r db'] eqn:H.
    rewrite catchRethrow_id. symmetry. exact H.
  - intros d. cbn. repeat split.
Qed.

Lemma rows_after_quantity_patch (db db' : Db) (cartItemId : string) (newQuantity : Z)
    (patch : Checkout.data -> Checkout.data) (lines : list Checkout.t) :
  1 <= newQuantity ->
  db_items db' = db_items db ->
  (forall d, Checkout.item_id (patch d) = Checkout.item_id d /\
             Checkout.quantity (patch d) = newQuantity) ->
  omap (cartRow db') (List.map (patched cartItemId patch) lines) =
  List.map
    (fun item =>
       if String.eqb (CartItem.id item) cartItemId
       then withQuantity newQuantity item else item)
    (omap (cartRow db) lines).
Proof.
  intros Hq Hitems Hpatch.
  induction lines as [|line rest IH]; [reflexivity|].
  cbn [List.map omap list_omap].
  rewrite (cartRow_same_items db db') by assumption.
  assert (Hrow : cartRow db (patched cartItemId patch line) =
                 match cartRow db line with
                 | Some row =>
                     Some (if String.eqb (CartItem.id row) cartItemId
                           then withQuantity newQuantity row else row)
                 | None => None
                 end).
  { unfold cartRow, patched.
    destruct (String.eqb_spec (Checkout.id line) cartItemId) as [Hid|Hid]; cbn.
    - destruct (Hpatch (Checkout.fields line)) as (-> & ->).
      destruct (getItemDoc db _); [|reflexivity]. cbn.
      destruct (String.eqb_spec (Checkout.id line) cartItemId); [|contradiction].
      unfold withQuantity. cbn. now rewrite orOne_positive.
    - destruct (getItemDoc db _); [|reflexivity]. cbn.
      destruct (String.eqb_spec (Checkout.id line) cartItemId); [contradiction|].
      reflexivity. }
  rewrite Hrow. destruct (cartRow db line); cbn [List.map]; now rewrite IH.
Qed.

(** X7: [handleQuantityChange] with a quantity below 1 writes nothing and
    changes no row.  With a quantity of at least 1, on rows that show the
    user's cart as the store has it, the rows afterwards are again what a
    reload of the cart would show, whether the write went through or was
    rejected. *)
Theorem X7_handleQuantityChange_keeps_rows_true (now cartItemId : string)
    (newQuantity : Z) (db : Db) (uid : string) (cartItems : list CartItem.t) :
  (newQuantity < 1 ->
   handleQuantityChange now cartItemId newQuantity db cartItems = (db, cartItems)) /\
  (1 <= newQuantity ->
   let after := handleQuantityChange now cartItemId newQuantity db
                  (fetchCartItems db (Some uid) []) in
   snd after = fetchCartItems (fst after) (Some uid) [] /\
   db_items (fst after) = db_items db /\
   (forall d, db_checkouts db !! cartItemId = Some d ->
      exists d', db_checkouts (fst after) !! cartItemId = Some d' /\
                 Checkout.quantity d' = newQuantity)).
Proof.
  split.
  - intros Hlow. unfold handleQuantityChange.
    destruct (Z.ltb_spec newQuantity 1); [reflexivity|lia].
  - intros Hq after. subst after. unfold handleQuantityChange.
    destruct (Z.ltb_spec newQuantity 1); [lia|].
    destruct (updateCartItemQuantity_updateDoc now cartItemId newQuantity db)
      as (patch & -> & Hpatch).
    destruct (updateDoc_alter cartItemId patch db) as [Hc Hi].
    pose proof (checkoutsOf_updateDoc_same_owner cartItemId patch db uid false) as Hlines.
    unfold updateDoc in *.
    destruct (db_checkouts db !! cartItemId) as [d|] eqn:Hd; cbn [fst snd] in *.
    + split; [|split; [reflexivity|]].
      * rewrite !fetchCartItems_rows.
        rewrite Hlines by (intros d0; destruct (Hpatch d0) as (? & ? & _); now split).
        symmetry. apply rows_after_quantity_patch; [assumption|reflexivity|].
        intros d0. destruct (Hpatch d0) as (_ & _ & ? & ?). now split.
      * intros d0 [= <-]. eexists. split; [cbn; apply lookup_insert_eq|].
        now destruct (Hpatch d) as (_ & _ & _ & ->).
    + split; [reflexivity|]. split; [reflexivity|]. intros d0 H0. discriminate.
Qed.

Lemma Permutation_omap {A B : Type} (f : A -> option B) (l l' : list A) :
  Permutation l l' -> Permutation (omap f l) (omap f l').
Proof.
  induction 1 as [|x l l' _ IH|x y l|l l' l'' _ IH1 _ IH2]; cbn.
  - constructor.
  - destruct (f x); [now constructor|assumption].
  - destruct (f x), (f y); try reflexivity. apply perm_swap.
  - now transitivity (omap f l').
Qed.

Lemma filter_omap_commute {A B : Type} (f : A -> option B) (p : A -> bool)
    (q : B -> bool) (l : list A) :
  (forall x y, f x = Some y -> q y = p x) ->
  List.filter q (omap f l) = omap f (List.filter p l).
Proof.
  intros Hpq. induction l as [|x t IH]; [reflexivity|].
  cbn. destruct (f x) as [y|] eqn:Hfx; cbn.
  - rewrite (Hpq x y Hfx). destruct (p x); cbn; rewrite ?Hfx; cbn; now rewrite IH.
  - destruct (p x); cbn; rewrite ?Hfx; cbn; exact IH.
Qed.

Lemma checkoutsOf_NoDup (db : Db) (userId : string) (done : bool) :
  List.NoDup (checkoutsOf db userId done).
Proof.
  rewrite checkoutsOf_allCheckouts. apply List.NoDup_filter.
  apply (NoDup_map_inv Checkout.id). apply allCheckouts_NoDup.
Qed.

(** X8: after [handleRemoveItem], the rows no longer hold the removed
    line and are, up to their order, what a reload of the cart would
    show. *)
Theorem X8_handleRemoveItem_keeps_rows_true (cartItemId : string) (db : Db) (uid : string) :
  let after := handleRemoveItem cartItemId db (fetchCartItems db (Some uid) []) in
  Permutation (snd after) (fetchCartItems (fst after) (Some uid) []) /\
  (forall row, In row (snd after) -> CartItem.id row <> cartItemId) /\
  db_items (fst after) = db_items db /\
  db_checkouts (fst after) !! cartItemId = None.
Proof.
  unfold handleRemoveItem, removeFromCart, deleteDoc. cbn [fst snd catchRethrow].
  set (db' := withCheckouts db (delete cartItemId (db_checkouts db))).
  rewrite !fetchCartItems_rows.
  set (keep := fun line : Checkout.t => negb (String.eqb (Checkout.id line) cartItemId)).
  assert (Hlines : Permutation (List.filter keep (checkoutsOf db uid false))
                     (checkoutsOf db' uid false)).
  { apply Permutation.NoDup_Permutation.
    - apply List.NoDup_filter, checkoutsOf_NoDup.
    - apply checkoutsOf_NoDup.
    - intros line. rewrite filter_In, !In_checkoutsOf. unfold keep, db'. cbn.
      rewrite lookup_delete, negb_true_iff, String.eqb_neq.
      case_decide as Hid.
      + split; [intros [_ Hne]; now elim Hne|intros [H _]; discriminate].
      + split; [intros [H _]; exact H|intros H; split; [exact H|congruence]]. }
  split; [|split; [|split]].
  - rewrite <- (Permutation_omap (cartRow db') _ _ Hlines).
    rewrite (filter_omap_commute (cartRow db) keep); [reflexivity|].
    intros line row Hrow. unfold cartRow in Hrow.
    destruct (getItemDoc db _); [|discriminate]. now injection Hrow as <-.
  - intros row Hrow. apply filter_In in Hrow as [_ Hrow].
    now apply negb_true_iff, String.eqb_neq in Hrow.
  - reflexivity.
  - apply lookup_delete_eq.
Qed.

(** ** Batches of writes *)

Lemma promiseAll_from (writes : list (Db -> Promise unit * Db)) (settled : Promise unit)
    (db : Db) :
  List.fold_left
    (fun acc write =>
       let '(settled, d) := acc in
       let '(r, d') := write d in
       (match settled with Rejected e => Rejected e | Resolved _ => r end, d'))
    writes (settled, db) =
  (settle settled (fst (promiseAll writes db)), snd (promiseAll writes db)).
Proof.
  unfold promiseAll. revert settled db.
  induction writes as [|w ws IH]; intros settled db.
  - cbn. destruct settled as [[]|e]; reflexivity.
  - cbn [List.fold_left]. destruct (w db) as [r d'] eqn:Hw.
    rewrite (IH (match settled with Rejected e => Rejected e | Resolved _ => r end) d').
    rewrite (IH r d'). cbn [fst snd].
    destruct settled as [[]|e], r as [[]|e']; reflexivity.
Qed.

Lemma promiseAll_cons (w : Db -> Promise unit * Db)
    (ws : list (Db -> Promise unit * Db)) (db : Db) :
  promiseAll (w :: ws) db =
  (settle (fst (w db)) (fst (promiseAll ws (snd (w db)))),
   snd (promiseAll ws (snd (w db)))).
Proof.
  unfold promiseAll at 1. cbn [List.fold_left].
  destruct (w db) as [r d'] eqn:Hw. cbn [fst snd].
  rewrite promiseAll_from. destruct r as [[]|e]; reflexivity.
Qed.

Lemma patched_id (docId : string) (patch : Checkout.data -> Checkout.data) (line : Checkout.t) :
  Checkout.id (patched docId patch line) = Checkout.id line.
Proof. unfold patched. now destruct (String.eqb (Checkout.id line) docId). Qed.

Lemma fold_patched (ids : list string) (patch : string -> Checkout.data -> Checkout.data)
    (line : Checkout.t) :
  List.NoDup ids ->
  List.fold_left (fun l i => patched i (patch i) l) ids line = patchedAll ids patch line.
Proof.
  intros Hnd. revert line. induction Hnd as [|i ids Hi Hnd IH]; intros line; [reflexivity|].
  cbn [List.fold_left]. rewrite IH. unfold patchedAll, patched. cbn [existsb].
  destruct (String.eqb_spec (Checkout.id line) i) as [Hid|Hid]; cbn.
  - assert (Hnot : existsb (String.eqb (Checkout.id line)) ids = false).
    { apply not_true_is_false. intros H. apply existsb_exists in H as (j & Hj & Hij).
      apply String.eqb_eq in Hij. congruence. }
    rewrite Hnot. now rewrite Hid.
  - reflexivity.
Qed.

(** A batch of [updateDoc]s on different documents: the items are not
    touched, every named document that exists is rewritten once, and the
    batch resolves when all of them exist. *)
Lemma promiseAll_updateDoc (ids : list string)
    (patch : string -> Checkout.data -> Checkout.data) (db : Db) :
  List.NoDup ids ->
  let after := promiseAll (List.map (fun i => updateDoc i (patch i)) ids) db in
  db_items (snd after) = db_items db /\
  allCheckouts (snd after) = List.map (patchedAll ids patch) (allCheckouts db) /\
  ((forall i, In i ids -> is_Some (db_checkouts db !! i)) -> fst after = Resolved tt).
Proof.
  intros Hnd. cbn zeta.
  assert (Hgen : forall db0,
    db_items (snd (promiseAll (List.map (fun i => updateDoc i (patch i)) ids) db0)) =
      db_items db0 /\
    allCheckouts (snd (promiseAll (List.map (fun i => updateDoc i (patch i)) ids) db0)) =
      List.map (fun line => List.fold_left (fun l i => patched i (patch i) l) ids line)
        (allCheckouts db0) /\
    ((forall i, In i ids -> is_Some (db_checkouts db0 !! i)) ->
     fst (promiseAll (List.map (fun i => updateDoc i (patch i)) ids) db0) = Resolved tt)).
  { clear Hnd. induction ids as [|i ids IH]; intros db0.
    - cbn. split; [reflexivity|]. split; [now rewrite List.map_id|reflexivity].
    - cbn [List.map]. rewrite promiseAll_cons. cbn [fst snd].
      destruct (IH (snd (updateDoc i (patch i) db0))) as (Hitems & Hall & Hres).
      destruct (updateDoc_alter i (patch i) db0) as [Hc Hi].
      split; [now rewrite Hitems|]. split.
      + rewrite Hall, allCheckouts_updateDoc, List.map_map. reflexivity.
      + intros Hexist. rewrite Hres.
        * unfold updateDoc. destruct (Hexist i (or_introl eq_refl)) as [d ->]. reflexivity.
        * intros j Hj. rewrite Hc, lookup_alter. case_decide.
          -- subst j. destruct (Hexist i (or_introl eq_refl)) as [d ->]. cbn. eauto.
          -- apply Hexist. now right. }
  destruct (Hgen db) as (H1 & H2 & H3). split; [assumption|]. split; [|assumption].
  rewrite H2. apply List.map_ext. intros line. now apply fold_patched.
Qed.

Lemma promiseAll_ext (ws ws' : list (Db -> Promise unit * Db)) (db : Db) :
  Forall2 (fun w w' => forall d, w d = w' d) ws ws' ->
  promiseAll ws db = promiseAll ws' db.
Proof.
  intros H. revert db. induction H as [|w w' ws ws' Hw _ IH]; intros db; [reflexivity|].
  rewrite !promiseAll_cons, Hw, IH. reflexivity.
Qed.

(** ** From the cart to the order *)

Lemma cartRow_id (db : Db) (line : Checkout.t) (row : CartItem.t) :
  cartRow db line = Some row ->
  CartItem.id row = Checkout.id line /\
  CartItem.quantity row = orOne (Checkout.quantity (Checkout.fields line)) /\
  getItemDoc db (Checkout.item_id (Checkout.fields line)) = Some (CartItem.item row).
Proof.
  unfold cartRow. destruct (getItemDoc db _) as [item|]; [|discriminate].
  intros [= <-]. cbn. repeat split.
Qed.

Lemma rows_ids (g : Checkout.t -> option CartItem.t) (lines : list Checkout.t) :
  (forall l row, g l = Some row -> CartItem.id row = Checkout.id l) ->
  List.NoDup (List.map Checkout.id lines) ->
  List.NoDup (List.map CartItem.id (omap g lines)) /\
  forall l, In l lines ->
    existsb (String.eqb (Checkout.id l)) (List.map CartItem.id (omap g lines)) =
    match g l with Some _ => true | None => false end.
Proof.
  intros Hid Hnd.
  assert (Hsub : forall ls i, In i (List.map CartItem.id (omap g ls)) ->
                              exists l, In l ls /\ Checkout.id l = i /\ is_Some (g l)).
  { intros ls i Hi. apply in_map_iff in Hi as (row & <- & Hrow).
    apply list_elem_of_In, list_elem_of_omap in Hrow as (l & Hl & Hg).
    exists l. split; [now apply list_elem_of_In|]. split; [|eauto].
    symmetry. now apply Hid. }
  split.
  - induction lines as [|l ls IH]; [constructor|].
    cbn in Hnd. apply List.NoDup_cons_iff in Hnd as [Hnew Hnd].
    cbn. destruct (g l) as [row|] eqn:Hg; cbn; [|now apply IH].
    constructor; [|now apply IH].
    intros Hin. apply Hsub in Hin as (l' & Hl' & Hsame & _).
    apply Hnew. rewrite <- (Hid _ _ Hg), <- Hsame. now apply in_map.
  - intros l Hl. destruct (g l) as [row|] eqn:Hg.
    + apply existsb_exists. exists (CartItem.id row). split.
      * apply in_map. apply list_elem_of_In, list_elem_of_omap. exists l.
        split; [now apply list_elem_of_In|assumption].
      * apply String.eqb_eq. symmetry. now apply Hid.
    + apply not_true_is_false. intros H. apply existsb_exists in H as (i & Hi & Heq).
      apply String.eqb_eq in Heq. apply Hsub in Hi as (l' & Hl' & Hsame & [row Hrow]).
      assert (l' = l); [|congruence].
      clear -Hnd Hl Hl' Hsame Heq.
      induction lines as [|x xs IH]; [contradiction|].
      cbn in Hnd. apply List.NoDup_cons_iff in Hnd as [Hnew Hnd].
      destruct Hl as [->|Hl], Hl' as [->|Hl']; [reflexivity| | |now apply IH].
      * exfalso. apply Hnew. rewrite Heq, <- Hsame. now apply in_map.
      * exfalso. apply Hnew. rewrite Hsame, <- Heq. now apply in_map.
Qed.

Lemma updateCheckoutStep_updateDoc (now : string -> string) (lastStep docId : string)
    (db : Db) :
  updateCheckoutStep (now docId) docId lastStep db =
  updateDoc docId (stepPatch now lastStep docId) db.
Proof.
  unfold updateCheckoutStep, stepPatch. destruct (updateDoc _ _ _) as [r db'] eqn:H.
  rewrite catchRethrow_id. reflexivity.
Qed.

Lemma handleProceedToCheckout_batch (now : string -> string) (cartItems : list CartItem.t)
    (db : Db) :
  handleProceedToCheckout now cartItems db =
  promiseAll
    (List.map (fun i => updateDoc i (stepPatch now "payment" i))
       (List.map CartItem.id cartItems)) db.
Proof.
  unfold handleProceedToCheckout. rewrite List.map_map. apply promiseAll_ext.
  induction cartItems as [|item rest IH]; constructor; [|exact IH].
  intros d. apply updateCheckoutStep_updateDoc.
Qed.

Lemma onSubmit_batch (now : string -> string) (cartItems : list CartItem.t) (db : Db) :
  onSubmit now cartItems db =
  promiseAll
    (List.map (fun i => updateDoc i (submitPatch now i)) (List.map CartItem.id cartItems)) db.
Proof. unfold onSubmit. now rewrite List.map_map. Qed.

Lemma omap_all_None {A B : Type} (f : A -> option B) (l : list A) :
  (forall x, In x l -> f x = None) -> omap f l = [].
Proof.
  induction l as [|x t IH]; intros H; [reflexivity|].
  cbn. rewrite (H x (or_introl eq_refl)). apply IH. intros y Hy. apply H. now right.
Qed.

Lemma omap_fmap_fused {A B C : Type} (f : A -> option B) (g : B -> C) (l : list A) :
  omap (fun x => option_map g (f x)) l = List.map g (omap f l).
Proof.
  induction l as [|x t IH]; [reflexivity|]. cbn. destruct (f x); cbn; now rewrite IH.
Qed.

Lemma cart_rows_from_all (db : Db) (uid : string) :
  omap (cartRow db) (checkoutsOf db uid false) =
  omap (fun line =>
          if String.eqb (Checkout.user_id (Checkout.fields line)) uid
             && Bool.eqb (Checkout.is_done (Checkout.fields line)) false
          then cartRow db line else None)
    (allCheckouts db).
Proof. now rewrite checkoutsOf_allCheckouts, omap_filter_fused. Qed.

Lemma checkout_rows_from_all (db : Db) (uid : string) :
  fetchCheckoutItems db uid =
  omap (fun line =>
          if String.eqb (Checkout.user_id (Checkout.fields line)) uid
             && Bool.eqb (Checkout.is_done (Checkout.fields line)) false
          then if String.eqb (Checkout.last_step (Checkout.fields line)) "payment"
               then cartRow db line else None
          else None)
    (allCheckouts db).
Proof.
  unfold fetchCheckoutItems, paymentLines.
  now rewrite checkoutsOf_allCheckouts, !omap_filter_fused.
Qed.

(** X9: [handleProceedToCheckout] on the rows the cart page has fetched
    resolves, leaves the items alone, and the checkout page then shows
    exactly those rows; the lines of other users and the orders of every
    user stay as they are, and so does a line of the user whose item is
    gone, which stays behind in the cart. *)
Theorem X9_proceed_to_checkout_shows_the_cart_rows (now : string -> string) (db : Db)
    (uid : string) :
  let rows := fetchCartItems db (Some uid) [] in
  let after := handleProceedToCheckout now rows db in
  fst after = Resolved tt /\
  db_items (snd after) = db_items db /\
  fetchCheckoutItems (snd after) uid = rows /\
  (forall other done, other <> uid ->
     checkoutsOf (snd after) other done = checkoutsOf db other done) /\
  (forall user, checkoutsOf (snd after) user true = checkoutsOf db user true) /\
  (forall line, In line (checkoutsOf db uid false) ->
     cartRow db line = None -> In line (checkoutsOf (snd after) uid false)).
Proof.
  cbn zeta. rewrite fetchCartItems_rows, handleProceedToCheckout_batch, cart_rows_from_all.
  set (g := fun line : Checkout.t =>
              if String.eqb (Checkout.user_id (Checkout.fields line)) uid
                 && Bool.eqb (Checkout.is_done (Checkout.fields line)) false
              then cartRow db line else None).
  assert (Hgid : forall l row, g l = Some row -> CartItem.id row = Checkout.id l).
  { intros l row. unfold g. destruct (_ && _); [|discriminate].
    intros H. now apply cartRow_id in H. }
  destruct (rows_ids g (allCheckouts db) Hgid (allCheckouts_NoDup db)) as [Hnd Hex].
  set (ids := List.map CartItem.id (omap g (allCheckouts db))) in *.
  destruct (promiseAll_updateDoc ids (stepPatch now "payment") db Hnd)
    as (Hitems & Hall & Hres).
  set (after := promiseAll _ db) in *.
  split; [|split; [exact Hitems|split; [|split; [|split]]]].
  - apply Hres. intros i Hi. apply in_map_iff in Hi as (row & <- & Hrow).
    apply list_elem_of_In, list_elem_of_omap in Hrow as (l & Hl & Hg).
    apply list_elem_of_In, In_allCheckouts in Hl.
    rewrite (Hgid _ _ Hg), Hl. eauto.
  - rewrite checkout_rows_from_all, Hall, omap_map_fused. apply omap_ext_In.
    intros l Hl. specialize (Hex l Hl). unfold patchedAll. fold ids. rewrite Hex.
    unfold g in *. cbn.
    destruct (String.eqb (Checkout.user_id (Checkout.fields l)) uid
              && Bool.eqb (Checkout.is_done (Checkout.fields l)) false) eqn:Hu.
    + destruct (cartRow db l) as [row|] eqn:Hrow.
      * cbn. rewrite Hu. rewrite (cartRow_same_items db (snd after)) by exact Hitems.
        unfold cartRow in *. cbn. exact Hrow.
      * rewrite Hu. rewrite (cartRow_same_items db (snd after)) by exact Hitems.
        rewrite Hrow. now destruct (String.eqb _ "payment").
    + now rewrite Hu.
  - intros other done Hother. rewrite !checkoutsOf_allCheckouts, Hall.
    rewrite (filter_map_commute _ _
               (fun line => String.eqb (Checkout.user_id (Checkout.fields line)) other
                            && Bool.eqb (Checkout.is_done (Checkout.fields line)) done)).
    + rewrite <- (List.map_id (List.filter _ (allCheckouts db))) at 2.
      apply List.map_ext_in. intros l Hl. apply filter_In in Hl as [Hl Hp].
      unfold patchedAll. fold ids. rewrite (Hex l Hl). unfold g.
      apply andb_true_iff in Hp as [Hp _]. apply String.eqb_eq in Hp.
      destruct (String.eqb_spec (Checkout.user_id (Checkout.fields l)) uid) as [Hu|Hu];
        [congruence|reflexivity].
    + intros l. unfold patchedAll. now destruct (existsb _ ids).
  - intros user. rewrite !checkoutsOf_allCheckouts, Hall.
    rewrite (filter_map_commute _ _
               (fun line => String.eqb (Checkout.user_id (Checkout.fields line)) user
                            && Bool.eqb (Checkout.is_done (Checkout.fields line)) true)).
    + rewrite <- (List.map_id (List.filter _ (allCheckouts db))) at 2.
      apply List.map_ext_in. intros l Hl. apply filter_In in Hl as [Hl Hp].
      unfold patchedAll. fold ids. rewrite (Hex l Hl). unfold g.
      apply andb_true_iff in Hp as [_ Hp]. apply Bool.eqb_prop in Hp.
      rewrite Hp. cbn. now rewrite andb_false_r.
    + intros l. unfold patchedAll. now destruct (existsb _ ids).
  - intros line Hline Hgone. rewrite checkoutsOf_allCheckouts in Hline |- *.
    apply filter_In in Hline as [Hl Hp]. apply filter_In. split; [|exact Hp].
    rewrite Hall. apply in_map_iff. exists line. split; [|exact Hl].
    unfold patchedAll. fold ids. rewrite (Hex line Hl). unfold g. rewrite Hp, Hgone.
    reflexivity.
Qed.

Lemma sumTotal_rows_from (rows : list CartItem.t) (start : Number.t) :
  List.fold_left
    (fun sum item =>
       Number.add sum
         (Number.mul (Number.ofQ (Item.price (OrderItem.item item)))
            (Number.ofZ (OrderItem.quantity item))))
    (List.map orderItemOfRow rows) start =
  List.fold_left
    (fun total item =>
       Number.add total
         (Number.mul (Number.ofQ (Item.price (CartItem.item item)))
            (Number.ofZ (CartItem.quantity item))))
    rows start.
Proof.
  revert start. induction rows as [|row rest IH]; intros start; [reflexivity|].
  cbn. apply IH.
Qed.

Lemma sumTotal_rows (rows : list CartItem.t) :
  sumTotal (List.map orderItemOfRow rows) = calculateTotal rows.
Proof. apply sumTotal_rows_from. Qed.

Lemma filter_filter_map {A B : Type} (f : A -> B) (p q : B -> bool) (r : A -> bool)
    (l : list A) :
  (forall x, In x l -> p (f x) && q (f x) = r x) ->
  List.filter q (List.filter p (List.map f l)) = List.map f (List.filter r l).
Proof.
  induction l as [|x t IH]; intros H; [reflexivity|].
  cbn. specialize (H x (or_introl eq_refl)) as Hx.
  assert (Ht : List.filter q (List.filter p (List.map f t)) = List.map f (List.filter r t)).
  { apply IH. intros y Hy. apply H. now right. }
  destruct (p (f x)) eqn:Hp; cbn in *.
  - rewrite Hx. destruct (r x); cbn; now rewrite Ht.
  - rewrite <- Hx. exact Ht.
Qed.

Lemma filter_map_commute_In {A B : Type} (f : A -> B) (p : B -> bool) (q : A -> bool)
    (l : list A) :
  (forall x, In x l -> p (f x) = q x) ->
  List.filter p (List.map f l) = List.map f (List.filter q l).
Proof.
  induction l as [|x t IH]; intros Hpq; [reflexivity|].
  cbn. rewrite (Hpq x (or_introl eq_refl)).
  assert (Ht : List.filter p (List.map f t) = List.map f (List.filter q t)).
  { apply IH. intros y Hy. apply Hpq. now right. }
  destruct (q x); cbn; now rewrite Ht.
Qed.

Lemma group_of_date (cs : list Checkout.t) (date : string) (c : Checkout.t) :
  In c cs -> dateOf c = date ->
  In (date, List.filter (onDate date) cs) (groupedCheckouts cs) /\
  forall g, In g (groupedCheckouts cs) -> fst g = date ->
            g = (date, List.filter (onDate date) cs).
Proof.
  intros Hc Hdate. destruct (groupedCheckouts_groups cs) as (_ & Hkeys & Hgroups).
  assert (Hshape : forall g, In g (groupedCheckouts cs) -> fst g = date ->
                             g = (date, List.filter (onDate date) cs)).
  { intros [d x] Hg Hd. cbn in Hd. subst d.
    rewrite List.Forall_forall in Hgroups. specialize (Hgroups _ Hg). cbn in Hgroups.
    now rewrite Hgroups. }
  split; [|exact Hshape].
  assert (Hkey : In date (List.map fst (groupedCheckouts cs))).
  { apply Hkeys. now exists c. }
  apply in_map_iff in Hkey as (g & Hd & Hg).
  now rewrite <- (Hshape g Hg Hd).
Qed.

(** X10: [onSubmit] on the rows the checkout page shows resolves and
    leaves the items alone; the record of every row is the old one with
    [is_done] true, the step [completed] and a new [updatedAt]; the
    checkout page of the user then has nothing left to show, and the lines
    of other users stay as they are. *)
Theorem X10_onSubmit_completes_the_shown_rows (now : string -> string) (db : Db)
    (uid : string) :
  let rows := fetchCheckoutItems db uid in
  let after := onSubmit now rows db in
  fst after = Resolved tt /\
  db_items (snd after) = db_items db /\
  (forall row, In row rows ->
     exists d, db_checkouts db !! CartItem.id row = Some d /\
               db_checkouts (snd after) !! CartItem.id row =
               Some (submitPatch now (CartItem.id row) d)) /\
  fetchCheckoutItems (snd after) uid = [] /\
  (forall other done, other <> uid ->
     checkoutsOf (snd after) other done = checkoutsOf db other done).
Proof.
  cbn zeta. rewrite onSubmit_batch, checkout_rows_from_all.
  set (g := fun line : Checkout.t =>
              if String.eqb (Checkout.user_id (Checkout.fields line)) uid
                 && Bool.eqb (Checkout.is_done (Checkout.fields line)) false
              then if String.eqb (Checkout.last_step (Checkout.fields line)) "payment"
                   then cartRow db line else None
              else None).
  assert (Hgid : forall l row, g l = Some row -> CartItem.id row = Checkout.id l).
  { intros l row. unfold g. destruct (_ && _); [|discriminate].
    destruct (String.eqb _ "payment"); [|discriminate].
    intros H. now apply cartRow_id in H. }
  destruct (rows_ids g (allCheckouts db) Hgid (allCheckouts_NoDup db)) as [Hnd Hex].
  set (ids := List.map CartItem.id (omap g (allCheckouts db))) in *.
  destruct (promiseAll_updateDoc ids (submitPatch now) db Hnd) as (Hitems & Hall & Hres).
  set (after := promiseAll _ db) in *.
  split; [|split; [exact Hitems|split; [|split]]].
  - apply Hres. intros i Hi. apply in_map_iff in Hi as (row & <- & Hrow).
    apply list_elem_of_In, list_elem_of_omap in Hrow as (l & Hl & Hg).
    apply list_elem_of_In, In_allCheckouts in Hl.
    rewrite (Hgid _ _ Hg), Hl. eauto.
  - intros row Hrow.
    apply list_elem_of_In, list_elem_of_omap in Hrow as (l & Hl & Hg).
    apply list_elem_of_In in Hl. rewrite (Hgid _ _ Hg).
    exists (Checkout.fields l). split; [now apply In_allCheckouts|].
    apply (In_allCheckouts (snd after)
             (Checkout.mk (Checkout.id l) (submitPatch now (Checkout.id l) (Checkout.fields l)))).
    rewrite Hall. apply in_map_iff. exists l. split; [|exact Hl].
    unfold patchedAll. fold ids. now rewrite (Hex l Hl), Hg.
  - rewrite checkout_rows_from_all, Hall, omap_map_fused. apply omap_all_None.
    intros l Hl. specialize (Hex l Hl). unfold patchedAll. fold ids. rewrite Hex.
    destruct (g l) as [row|] eqn:Hg.
    + cbn. now rewrite andb_false_r.
    + unfold g in Hg. rewrite (cartRow_same_items db (snd after)) by exact Hitems.
      exact Hg.
  - intros other done Hother. rewrite !checkoutsOf_allCheckouts, Hall.
    rewrite <- (List.map_id (List.filter _ (allCheckouts db))).
    set (p := fun line : Checkout.t =>
                String.eqb (Checkout.user_id (Checkout.fields line)) other
                && Bool.eqb (Checkout.is_done (Checkout.fields line)) done).
    assert (Hsame : forall l, In l (allCheckouts db) ->
                      String.eqb (Checkout.user_id (Checkout.fields l)) other = true ->
                      patchedAll ids (submitPatch now) l = l).
    { intros l Hl Hu. unfold patchedAll. rewrite (Hex l Hl). unfold g.
      apply String.eqb_eq in Hu.
      destruct (String.eqb_spec (Checkout.user_id (Checkout.fields l)) uid) as [Hu'|Hu'];
        [congruence|reflexivity]. }
    assert (Huser : forall l, Checkout.user_id (Checkout.fields (patchedAll ids (submitPatch now) l))
                              = Checkout.user_id (Checkout.fields l)).
    { intros l. unfold patchedAll. now destruct (existsb _ ids). }
    rewrite (filter_map_commute_In (patchedAll ids (submitPatch now)) p p).
    + apply List.map_ext_in. intros l Hl. apply filter_In in Hl as [Hl Hp].
      apply Hsame; [exact Hl|]. unfold p in Hp. now apply andb_true_iff in Hp as [Hp _].
    + intros l Hl. destruct (String.eqb (Checkout.user_id (Checkout.fields l)) other) eqn:Hu.
      * now rewrite (Hsame l Hl Hu).
      * unfold p. now rewrite Huser, Hu.
Qed.

(** X11: the first purchase of a day.  When the user has no completed
    line dated [date] and the clock puts every write of [onSubmit] on
    [date], the profile page afterwards has exactly one order for [date]:
    its items are the rows of the checkout page, and its total is the
    total the checkout page showed. *)
Theorem X11_order_of_the_day_is_the_checkout (now : string -> string) (db : Db)
    (uid date : string) :
  let rows := fetchCheckoutItems db uid in
  let after := onSubmit now rows db in
  let order := {| Order.id := date;
                  Order.items := List.map orderItemOfRow rows;
                  Order.total := calculateTotal rows;
                  Order.date := date;
                  Order.status := "Completed" |} in
  rows <> [] ->
  (forall row, In row rows -> toLocaleDateString (now (CartItem.id row)) = date) ->
  (forall line, In line (checkoutsOf db uid true) -> dateOf line <> date) ->
  In order (fetchOrders (snd after) uid) /\
  forall o, In o (fetchOrders (snd after) uid) -> Order.id o = date -> o = order.
Proof.
  cbn zeta. rewrite onSubmit_batch, checkout_rows_from_all.
  set (g := fun line : Checkout.t =>
              if String.eqb (Checkout.user_id (Checkout.fields line)) uid
                 && Bool.eqb (Checkout.is_done (Checkout.fields line)) false
              then if String.eqb (Checkout.last_step (Checkout.fields line)) "payment"
                   then cartRow db line else None
              else None).
  intros Hrows Hclock Hfresh.
  assert (Hgid : forall l row, g l = Some row -> CartItem.id row = Checkout.id l).
  { intros l row. unfold g. destruct (_ && _); [|discriminate].
    destruct (String.eqb _ "payment"); [|discriminate].
    intros H. now apply cartRow_id in H. }
  destruct (rows_ids g (allCheckouts db) Hgid (allCheckouts_NoDup db)) as [Hnd Hex].
  set (ids := List.map CartItem.id (omap g (allCheckouts db))) in *.
  destruct (promiseAll_updateDoc ids (submitPatch now) db Hnd) as (Hitems & Hall & _).
  set (after := promiseAll _ db) in *.
  set (inIds := fun l : Checkout.t => existsb (String.eqb (Checkout.id l)) ids).
  set (f := patchedAll ids (submitPatch now)).
  (* the lines of the day's order *)
  assert (Hday : List.filter (onDate date) (checkoutsOf (snd after) uid true) =
                 List.map f (List.filter inIds (allCheckouts db))).
  { rewrite checkoutsOf_allCheckouts, Hall. apply filter_filter_map.
    intros l Hl. unfold f, patchedAll, inIds. fold ids. specialize (Hex l Hl).
    destruct (existsb (String.eqb (Checkout.id l)) ids) eqn:Hin.
    - destruct (g l) as [row|] eqn:Hg; [|discriminate]. cbn.
      assert (Hu : String.eqb (Checkout.user_id (Checkout.fields l)) uid = true).
      { unfold g in Hg. destruct (String.eqb _ uid); [reflexivity|discriminate]. }
      rewrite Hu. cbn. unfold onDate, dateOf. cbn. apply String.eqb_eq.
      rewrite <- (Hgid _ _ Hg). apply Hclock.
      apply list_elem_of_In, list_elem_of_omap. exists l.
      split; [now apply list_elem_of_In|exact Hg].
    - destruct (String.eqb (Checkout.user_id (Checkout.fields l)) uid
                && Bool.eqb (Checkout.is_done (Checkout.fields l)) true) eqn:Hp;
        [|reflexivity].
      cbn. unfold onDate. apply not_true_is_false. intros Hd. apply String.eqb_eq in Hd.
      apply (Hfresh l); [|exact Hd].
      rewrite checkoutsOf_allCheckouts. apply filter_In. now split. }
  (* its items *)
  assert (Hitems' : omap (fun x => x)
                      (List.map (hydrate (snd after))
                         (List.map f (List.filter inIds (allCheckouts db)))) =
                    List.map orderItemOfRow (omap g (allCheckouts db))).
  { rewrite !omap_map_fused, omap_filter_fused, <- omap_fmap_fused. apply omap_ext_In.
    intros l Hl. unfold f, patchedAll, inIds. fold ids. specialize (Hex l Hl). rewrite Hex.
    destruct (g l) as [row|] eqn:Hg; [|reflexivity].
    unfold g in Hg. destruct (_ && _); [|discriminate].
    destruct (String.eqb _ "payment"); [|discriminate].
    apply cartRow_id in Hg as (_ & Hq & Hitem).
    unfold hydrate, getItemDoc in *. cbn. rewrite Hitems, Hitem. cbn.
    unfold orderItemOfRow. now rewrite Hq. }
  (* a line of the day exists *)
  destruct (omap g (allCheckouts db)) as [|row rest] eqn:Homap; [contradiction|].
  assert (Hrow : In row (omap g (allCheckouts db))) by (rewrite Homap; now left).
  apply list_elem_of_In, list_elem_of_omap in Hrow as (l & Hl & Hg).
  apply list_elem_of_In in Hl.
  assert (Hmember : In (f l) (List.filter (onDate date) (checkoutsOf (snd after) uid true))).
  { rewrite Hday. apply in_map. apply filter_In. split; [exact Hl|].
    unfold inIds. fold ids. now rewrite (Hex l Hl), Hg. }
  apply filter_In in Hmember as [Hmember Hdate]. apply String.eqb_eq in Hdate.
  destruct (group_of_date _ date (f l) Hmember Hdate) as [Hgroup Honly].
  rewrite fetchOrders_groups.
  assert (Horder : orderOfGroup (snd after)
                     (date, List.filter (onDate date) (checkoutsOf (snd after) uid true)) =
                   {| Order.id := date;
                      Order.items := List.map orderItemOfRow (row :: rest);
                      Order.total := calculateTotal (row :: rest);
                      Order.date := date;
                      Order.status := "Completed" |}).
  { unfold orderOfGroup. rewrite Hday, Hitems'. now rewrite sumTotal_rows. }
  split.
  - rewrite <- Horder. now apply in_map.
  - intros o Ho Hid. apply in_map_iff in Ho as (grp & <- & Hgrp).
    rewrite <- Horder. f_equal. apply Honly; [exact Hgrp|].
    destruct grp as [d x]. exact Hid.
Qed.

(** ** The listing page *)

(** Every request of a listing lands on a window of the whole listing:
    the first one at its start, one with a cursor right after the
    cursor. *)
Lemma getAllItems_windows (store : Policy) (docs : list Item.t)
    (categoryId : option string) (sortBy : SortBy) (limitCount : Z) :
  List.NoDup (List.map Item.id docs) ->
  (forall q, store q = None) ->
  0 < limitCount ->
  let whole := wholeListing docs categoryId sortBy in
  let window s := firstn (Z.to_nat limitCount) (skipn s whole) in
  getAllItems store docs categoryId sortBy limitCount None =
    Resolved {| Page.items := window 0%nat; Page.lastVisible := lastElement (window 0%nat) |} /\
  forall l1 x l2, whole = l1 ++ x :: l2 ->
    getAllItems store docs categoryId sortBy limitCount (Some x) =
    Resolved {| Page.items := window (S (length l1));
                Page.lastVisible := lastElement (window (S (length l1))) |}.
Proof.
  intros Hnd Hserved Hn. cbn zeta. unfold wholeListing.
  destruct (truthy categoryId) as [c|] eqn:Hc.
  - rewrite runQuery_categoryQuery.
    set (snapshot := List.filter (inCategory c) docs).
    set (sorted := sort (compareItems sortBy) snapshot).
    assert (Hnd_snapshot : List.NoDup (List.map Item.id snapshot)) by now apply NoDup_ids_filter.
    assert (Hnd_sorted : List.NoDup (List.map Item.id sorted)) by now apply NoDup_ids_stableSort.
    assert (Hwindow : forall cursor s, cursorIndex cursor sorted + 1 = Z.of_nat s ->
      getAllItems store docs categoryId sortBy limitCount cursor =
      Resolved {| Page.items := firstn (Z.to_nat limitCount) (skipn s sorted);
                  Page.lastVisible :=
                    lastElement (firstn (Z.to_nat limitCount) (skipn s sorted)) |}).
    { intros cursor s Hpos.
      rewrite (getAllItems_category _ _ _ c) by assumption.
      rewrite getItemsByCategory_served by (apply Hserved || lia).
      fold snapshot sorted. rewrite Hpos, Nat2Z.id. f_equal. f_equal.
      destruct (lastElement _) as [x|] eqn:Hlast; [|reflexivity].
      apply find_of_member; [assumption|].
      apply lastElement_some in Hlast as [front Hpage].
      assert (Hin : In x (firstn (Z.to_nat limitCount) (skipn s sorted))).
      { rewrite Hpage. apply in_or_app. right. now left. }
      apply In_firstn_elim, In_skipn_elim in Hin.
      subst sorted. unfold sort in Hin. now apply stableSort_In in Hin. }
    split.
    + now apply Hwindow.
    + intros l1 x l2 Hsplit. apply Hwindow. simpl. rewrite Hsplit in Hnd_sorted |- *.
      rewrite findIndex_of_member by assumption. lia.
  - set (f := fst (orderOf sortBy)). set (dir := snd (orderOf sortBy)).
    set (ordered := stableSort (docLe f dir) docs).
    assert (Hwhole : runQuery (listQuery sortBy None) docs = ordered).
    { unfold runQuery, listQuery, ordered, f, dir.
      destruct sortBy; cbn; rewrite (filter_all (fun _ => true)); auto. }
    rewrite Hwhole.
    assert (Hsorted : StronglySorted (fun a b => docLe f dir a b = true) ordered)
      by apply stableSort_docLe_sorted.
    assert (Hnd' : List.NoDup (List.map Item.id ordered)) by now apply NoDup_ids_stableSort.
    assert (Hwindow : forall cursor s, resumedFrom sortBy cursor docs = skipn s ordered ->
      getAllItems store docs categoryId sortBy limitCount cursor =
      Resolved {| Page.items := firstn (Z.to_nat limitCount) (skipn s ordered);
                  Page.lastVisible :=
                    lastElement (firstn (Z.to_nat limitCount) (skipn s ordered)) |}).
    { intros cursor s Hpos.
      destruct (limit_positive limitCount (listQuery sortBy cursor) Hn) as [q Hq].
      rewrite (getAllItems_uncategorised _ _ _ _ _ _ q) by auto.
      now rewrite Hpos. }
    split.
    + now apply Hwindow.
    + intros l1 x l2 Hsplit. apply Hwindow. unfold resumedFrom. fold f dir ordered.
      rewrite Hsplit in Hsorted, Hnd' |- *.
      rewrite startAfter_suffix by assumption.
      change (x :: l2) with ([x] ++ l2). rewrite app_assoc.
      rewrite skipn_app.
      rewrite skipn_all2 by (rewrite length_app; simpl; lia).
      rewrite length_app. simpl.
      replace (S (length l1) - (length l1 + 1))%nat with 0%nat by lia. reflexivity.
Qed.

Lemma firstn_plus {A : Type} (a b : nat) (l : list A) :
  firstn (a + b) l = firstn a l ++ firstn b (skipn a l).
Proof.
  revert l. induction a as [|a IH]; intros l; [reflexivity|].
  destruct l as [|x t]; [now rewrite !firstn_nil|].
  cbn. now rewrite IH.
Qed.

Lemma lastElement_app {A : Type} (l1 l2 : list A) :
  l2 <> [] -> lastElement (l1 ++ l2) = lastElement l2.
Proof.
  intros Hne. destruct l2 as [|x t] using rev_ind; [contradiction|].
  now rewrite app_assoc, !lastElement_snoc.
Qed.

Lemma loaded_split {A : Type} (k : nat) (l : list A) :
  (1 <= k <= length l)%nat ->
  exists l1 x, lastElement (firstn k l) = Some x /\
               l = l1 ++ x :: skipn k l /\ S (length l1) = k.
Proof.
  intros Hk.
  destruct (lastElement (firstn k l)) as [x|] eqn:Hlast.
  - apply lastElement_some in Hlast as [l1 Hl1]. exists l1, x.
    split; [reflexivity|]. split.
    + rewrite <- (firstn_skipn k l) at 1. rewrite Hl1, <- app_assoc. reflexivity.
    + apply (f_equal (@length A)) in Hl1. rewrite length_firstn, length_app in Hl1.
      cbn in Hl1. lia.
  - apply lastElement_empty in Hlast. apply (f_equal (@length A)) in Hlast.
    rewrite length_firstn in Hlast. cbn in Hlast. lia.
Qed.

Lemma fetchItems_first (store : Policy) (docs : list Item.t)
    (categoryId : option string) (sortBy : SortBy) :
  List.NoDup (List.map Item.id docs) ->
  (forall q, store q = None) ->
  let whole := wholeListing docs categoryId sortBy in
  fetchItems store docs (firstView categoryId sortBy) =
  match whole with
  | [] => emptied 1 None categoryId sortBy
  | _ :: _ => shown whole 1 categoryId sortBy
  end.
Proof.
  intros Hnd Hserved whole.
  destruct (getAllItems_windows store docs categoryId sortBy ITEMS_PER_PAGE Hnd Hserved)
    as [Hfirst _]; [reflexivity|].
  unfold fetchItems, firstView.
  cbn [ItemsView.selectedCategory ItemsView.sortBy ItemsView.currentPage
       ItemsView.lastVisible ItemsView.items ItemsView.hasMore].
  change (1 <? 1) with false. cbv iota. rewrite Hfirst. fold whole.
  unfold shownResult.
  cbn [Page.items Page.lastVisible skipn ItemsView.selectedCategory ItemsView.sortBy
       ItemsView.currentPage ItemsView.lastVisible ItemsView.items ItemsView.hasMore].
  destruct whole as [|x t] eqn:Hw; [reflexivity|].
  unfold shown, hasMore. cbn [Page.items skipn].
  change (Z.to_nat ITEMS_PER_PAGE * 1)%nat with (Z.to_nat ITEMS_PER_PAGE).
  change (1 =? 1) with true. cbv iota.
  assert (Hlen : (Z.of_nat (length (firstn (Z.to_nat ITEMS_PER_PAGE) (x :: t))) =? 0) = false).
  { apply Z.eqb_neq. change (Z.to_nat ITEMS_PER_PAGE) with 8%nat. cbn [firstn length]. lia. }
  rewrite Hlen. f_equal.
  rewrite length_firstn. change (Z.to_nat ITEMS_PER_PAGE) with 8%nat.
  unfold ITEMS_PER_PAGE.
  destruct (Nat.leb_spec 8 (length (x :: t))); [apply Z.eqb_eq|apply Z.eqb_neq]; lia.
Qed.

Lemma turnPage_next_shown (store : Policy) (docs : list Item.t)
    (categoryId : option string) (sortBy : SortBy) (pages : nat) :
  List.NoDup (List.map Item.id docs) ->
  (forall q, store q = None) ->
  let whole := wholeListing docs categoryId sortBy in
  (1 <= pages)%nat ->
  (8 * pages <= length whole)%nat ->
  turnPage store docs loadNextPage (shown whole pages categoryId sortBy) =
  if (8 * pages <? length whole)%nat
  then shown whole (S pages) categoryId sortBy
  else emptied (Z.of_nat (S pages)) (lastElement whole) categoryId sortBy.
Proof.
  intros Hnd Hserved whole Hpages Hloaded.
  destruct (getAllItems_windows store docs categoryId sortBy ITEMS_PER_PAGE Hnd Hserved)
    as [_ Hnext]; [reflexivity|].
  fold whole in Hnext. cbv zeta in Hnext.
  destruct (loaded_split (8 * pages) whole) as (l1 & x & Hlast & Hsplit & Hl1); [lia|].
  specialize (Hnext l1 x _ Hsplit). rewrite Hl1 in Hnext.
  unfold turnPage, loadNextPage, shown.
  change (Z.to_nat ITEMS_PER_PAGE) with 8%nat in *.
  cbn [ItemsView.hasMore].
  assert (Hmore : (8 * pages <=? length whole)%nat = true) by now apply Nat.leb_le.
  rewrite Hmore. cbv zeta.
  cbn [setPage ItemsView.selectedCategory ItemsView.sortBy ItemsView.currentPage
       ItemsView.lastVisible ItemsView.items ItemsView.hasMore].
  assert (Hturned : (Z.of_nat pages + 1 =? Z.of_nat pages) = false) by (apply Z.eqb_neq; lia).
  rewrite Hturned. unfold fetchItems, setPage.
  cbn [ItemsView.selectedCategory ItemsView.sortBy ItemsView.currentPage
       ItemsView.lastVisible ItemsView.items ItemsView.hasMore].
  assert (Hlater : (1 <? Z.of_nat pages + 1) = true) by (apply Z.ltb_lt; lia).
  assert (Hnotfirst : (Z.of_nat pages + 1 =? 1) = false) by (apply Z.eqb_neq; lia).
  rewrite Hlater, Hlast, Hnext. unfold shownResult.
  cbn [Page.items Page.lastVisible ItemsView.selectedCategory ItemsView.sortBy
       ItemsView.currentPage ItemsView.lastVisible ItemsView.items ItemsView.hasMore].
  rewrite Hnotfirst.
  set (page := firstn 8 (skipn (8 * pages) whole)).
  assert (Hpage : length page = Nat.min 8 (length whole - 8 * pages)).
  { unfold page. now rewrite length_firstn, length_skipn. }
  destruct (Nat.ltb_spec (8 * pages) (length whole)) as [Hlt|Hge].
  - assert (Hne : (Z.of_nat (length page) =? 0) = false) by (apply Z.eqb_neq; lia).
    rewrite Hne. unfold hasMore. cbn [Page.items].
    replace (8 * S pages)%nat with (8 * pages + 8)%nat by lia.
    rewrite firstn_plus. fold page.
    rewrite lastElement_app
      by (intros Hnil; apply (f_equal (@length Item.t)) in Hnil; cbn [length] in Hnil; lia).
    f_equal; [|lia].
    unfold ITEMS_PER_PAGE.
    destruct (Nat.leb_spec (8 * pages + 8) (length whole));
      [apply Z.eqb_eq|apply Z.eqb_neq]; lia.
  - assert (Hnil : page = []).
    { destruct page; [reflexivity|cbn [length] in Hpage; lia]. }
    rewrite Hnil. cbn [length Z.of_nat Z.eqb]. unfold emptied.
    assert (Hx : lastElement whole = Some x).
    { rewrite <- Hlast. now rewrite firstn_all2 by lia. }
    rewrite Hx, Nat2Z.inj_succ. reflexivity.
Qed.

Lemma turnPage_next_idle (store : Policy) (docs : list Item.t) (v : ItemsView.t) :
  ItemsView.hasMore v = false -> turnPage store docs loadNextPage v = v.
Proof.
  intros H. unfold turnPage, loadNextPage. rewrite H. cbv zeta. now rewrite Z.eqb_refl.
Qed.

Lemma browse_shown (store : Policy) (docs : list Item.t)
    (categoryId : option string) (sortBy : SortBy) (clicks : nat) :
  List.NoDup (List.map Item.id docs) ->
  (forall q, store q = None) ->
  let whole := wholeListing docs categoryId sortBy in
  (8 * clicks < length whole)%nat ->
  browse store docs categoryId sortBy clicks = shown whole (S clicks) categoryId sortBy.
Proof.
  intros Hnd Hserved. cbv zeta. induction clicks as [|j IH]; intros Hlen.
  - cbn [browse]. rewrite fetchItems_first by assumption.
    destruct (wholeListing docs categoryId sortBy); [cbn in Hlen; lia|reflexivity].
  - cbn [browse]. rewrite IH by lia.
    rewrite turnPage_next_shown by (assumption || lia).
    destruct (Nat.ltb_spec (8 * S j) (length (wholeListing docs categoryId sortBy)));
      [reflexivity|lia].
Qed.

(** X12: browsing forward.  Over items with distinct ids and a store that
    serves its queries, after the first fetch and [clicks] clicks on next,
    as long as the listing goes on, the page holds the first
    [8 * (clicks + 1)] items of the whole listing, in its order; the
    cursor is the last of them, the pager is on page [clicks + 1], and a
    next page is offered exactly when the last page came back full. *)
Theorem X12_browsing_forward_accumulates_the_listing (store : Policy) (docs : list Item.t)
    (categoryId : option string) (sortBy : SortBy) (clicks : nat) :
  List.NoDup (List.map Item.id docs) ->
  (forall q, store q = None) ->
  let whole := wholeListing docs categoryId sortBy in
  let loaded := (Z.to_nat ITEMS_PER_PAGE * S clicks)%nat in
  let v := browse store docs categoryId sortBy clicks in
  (Z.to_nat ITEMS_PER_PAGE * clicks < length whole)%nat ->
  ItemsView.items v = firstn loaded whole /\
  ItemsView.lastVisible v = lastElement (ItemsView.items v) /\
  ItemsView.hasMore v = (loaded <=? length whole)%nat /\
  ItemsView.currentPage v = Z.of_nat clicks + 1 /\
  ItemsView.selectedCategory v = categoryId /\
  ItemsView.sortBy v = sortBy.
Proof.
  intros Hnd Hserved. cbv zeta. intros Hlen.
  rewrite browse_shown by assumption. unfold shown.
  cbn [ItemsView.items ItemsView.lastVisible ItemsView.hasMore ItemsView.currentPage
       ItemsView.selectedCategory ItemsView.sortBy].
  repeat split. lia.
Qed.

(** X13: the end of the listing.  Once the clicks on next have gone past
    the last page, more clicks change nothing and no next page is offered.
    The page then holds the whole listing when the number of its items is
    not a multiple of 8.  When it is a multiple of 8, the last full page
    still offers a next one, the fetch behind it finds nothing, and the
    page is left with an empty list. *)
Theorem X13_end_of_listing (store : Policy) (docs : list Item.t)
    (categoryId : option string) (sortBy : SortBy) (clicks : nat) :
  List.NoDup (List.map Item.id docs) ->
  (forall q, store q = None) ->
  let whole := wholeListing docs categoryId sortBy in
  let v := browse store docs categoryId sortBy clicks in
  (length whole / 8 <= clicks)%nat ->
  ItemsView.items v = (if (length whole mod 8 =? 0)%nat then [] else whole) /\
  ItemsView.hasMore v = false /\
  ItemsView.currentPage v = Z.of_nat (length whole / 8) + 1.
Proof.
  intros Hnd Hserved. cbv zeta.
  pose proof (fetchItems_first store docs categoryId sortBy Hnd Hserved) as Hfirst.
  pose proof (fun j => browse_shown store docs categoryId sortBy j Hnd Hserved) as Hshown.
  pose proof (fun j => turnPage_next_shown store docs categoryId sortBy j Hnd Hserved)
    as Hturn.
  cbv zeta in Hfirst, Hshown, Hturn.
  remember (wholeListing docs categoryId sortBy) as whole eqn:Hwhole.
  pose proof (Nat.div_mod_eq (length whole) 8) as Hdiv.
  pose proof (Nat.mod_upper_bound (length whole) 8 ltac:(lia)) as Hmod.
  remember (length whole / 8)%nat as m eqn:Hm.
  assert (Hend :
    ItemsView.items (browse store docs categoryId sortBy m) =
      (if (length whole mod 8 =? 0)%nat then [] else whole) /\
    ItemsView.hasMore (browse store docs categoryId sortBy m) = false /\
    ItemsView.currentPage (browse store docs categoryId sortBy m) = Z.of_nat m + 1).
  { destruct (Nat.eqb_spec (length whole mod 8) 0) as [Hfull|Hshort].
    - destruct m as [|m'].
      + cbn [browse]. rewrite Hfirst.
        destruct whole; [repeat split|cbn [length] in *; lia].
      + cbn [browse]. rewrite Hshown by lia. rewrite Hturn by lia.
        destruct (Nat.ltb_spec (8 * S m') (length whole)); [lia|].
        unfold emptied.
        cbn [ItemsView.items ItemsView.hasMore ItemsView.currentPage].
        repeat split. lia.
    - rewrite Hshown by lia. unfold shown.
      cbn [ItemsView.items ItemsView.hasMore ItemsView.currentPage].
      change (Z.to_nat ITEMS_PER_PAGE) with 8%nat.
      split; [apply firstn_all2; lia|]. split; [apply Nat.leb_gt; lia|lia]. }
  intros Hclicks. induction Hclicks as [|j Hj IH]; [exact Hend|].
  cbn [browse]. rewrite turnPage_next_idle; [exact IH|]. apply IH.
Qed.

(** X14: going back.  From a page after the first, when the store serves
    the first page, a click on previous, and a click on the number of any
    page up to the current one, both put the page in the state of its
    first fetch: page one alone is shown, whatever page was asked for.
    And whatever page [goToPage] is asked for, the pager lands on page one
    or on the page after the current one. *)
Theorem X14_going_back_restarts_at_page_one (store : Policy) (docs : list Item.t)
    (v : ItemsView.t) (page : Z) (result : Page.t) :
  1 < ItemsView.currentPage v ->
  page <= ItemsView.currentPage v ->
  getAllItems store docs (ItemsView.selectedCategory v) (ItemsView.sortBy v)
    ITEMS_PER_PAGE None = Resolved result ->
  let first :=
    fetchItems store docs (firstView (ItemsView.selectedCategory v) (ItemsView.sortBy v)) in
  turnPage store docs loadPreviousPage v = first /\
  turnPage store docs (goToPage page) v = first /\
  forall asked,
    ItemsView.currentPage (goToPage asked v) = 1 \/
    ItemsView.currentPage (goToPage asked v) = ItemsView.currentPage v + 1.
Proof.
  intros Hlater Hpage Hserved. cbv zeta.
  assert (Hback : goToPage page v = setPage 1 None v).
  { unfold goToPage. destruct (page =? 1); [reflexivity|].
    destruct (Z.ltb_spec (ItemsView.currentPage v) page); [lia|reflexivity]. }
  assert (Hprevious : loadPreviousPage v = setPage 1 None v).
  { unfold loadPreviousPage. destruct (Z.ltb_spec 1 (ItemsView.currentPage v)); [reflexivity|lia]. }
  assert (Hfetch : turnPage store docs (fun _ => setPage 1 None v) v =
                   fetchItems store docs
                     (firstView (ItemsView.selectedCategory v) (ItemsView.sortBy v))).
  { unfold turnPage. cbv zeta. cbn [setPage ItemsView.currentPage].
    destruct (Z.eqb_spec 1 (ItemsView.currentPage v)) as [Hone|_]; [lia|].
    unfold fetchItems, firstView, setPage.
    cbn [ItemsView.selectedCategory ItemsView.sortBy ItemsView.currentPage
         ItemsView.lastVisible ItemsView.items ItemsView.hasMore].
    change (1 <? 1) with false. cbv iota. rewrite Hserved. unfold shownResult.
    cbn [ItemsView.selectedCategory ItemsView.sortBy ItemsView.currentPage
         ItemsView.lastVisible ItemsView.items ItemsView.hasMore].
    change (1 =? 1) with true. reflexivity. }
  split; [|split].
  - unfold turnPage in *. cbv zeta in *. now rewrite Hprevious.
  - unfold turnPage in *. cbv zeta in *. now rewrite Hback.
  - intros asked. unfold goToPage. destruct (asked =? 1); [now left|].
    destruct (ItemsView.currentPage v <? asked); [now right|now left].
Qed.

(** ** The administration pages *)

Lemma getItemDoc_deleteItemDoc (db : Db) (deleted other : string) :
  other <> deleted ->
  getItemDoc (deleteItemDoc deleted db) other = getItemDoc db other.
Proof.
  intros Hne. unfold getItemDoc, deleteItemDoc. cbn [db_items].
  induction (db_items db) as [|d t IH]; [reflexivity|].
  cbn [List.filter List.find].
  destruct (String.eqb_spec (Item.id d) deleted) as [Hd|Hd]; cbn [negb List.find].
  - destruct (String.eqb_spec (Item.id d) other) as [Ho|Ho]; [congruence|exact IH].
  - destruct (String.eqb (Item.id d) other); [reflexivity|exact IH].
Qed.

Lemma getItemDoc_deleted (db : Db) (deleted : string) :
  getItemDoc (deleteItemDoc deleted db) deleted = None.
Proof.
  unfold getItemDoc, deleteItemDoc. cbn [db_items].
  induction (db_items db) as [|d t IH]; [reflexivity|].
  cbn [List.filter]. destruct (String.eqb (Item.id d) deleted) eqn:Hd; cbn [negb List.find].
  - exact IH.
  - now rewrite Hd.
Qed.

(** X15: [handleDeleteItem] never writes to the checkouts, and it leaves
    every cart and every checkout page as it was: an item that a line
    still to be paid points at is not deleted at all.  An item without
    such a line is deleted, no other item is, and the completed lines
    that point at it no longer find it, so it drops out of the orders
    they belong to. *)
Theorem X15_handleDeleteItem_spares_the_carts (selectedItem : option Item.t) (db : Db) :
  let db' := handleDeleteItem selectedItem db in
  db_checkouts db' = db_checkouts db /\
  (forall uid, fetchCartItems db' (Some uid) [] = fetchCartItems db (Some uid) []) /\
  (forall uid, fetchCheckoutItems db' uid = fetchCheckoutItems db uid) /\
  (forall item line, selectedItem = Some item ->
     In line (activeCheckoutsOfItem db (Item.id item)) -> db' = db) /\
  (forall item, selectedItem = Some item ->
     activeCheckoutsOfItem db (Item.id item) = [] ->
     getItemDoc db' (Item.id item) = None /\
     (forall other, other <> Item.id item -> getItemDoc db' other = getItemDoc db other) /\
     (forall line, Checkout.item_id (Checkout.fields line) = Item.id item ->
        hydrate db' line = None)).
Proof.
  cbn zeta.
  assert (Hrows : forall item uid line,
            activeCheckoutsOfItem db (Item.id item) = [] ->
            In line (checkoutsOf db uid false) ->
            cartRow (deleteItemDoc (Item.id item) db) line = cartRow db line).
  { intros item uid line Hnone Hline. unfold cartRow.
    rewrite getItemDoc_deleteItemDoc; [reflexivity|].
    intros Hsame. apply In_checkoutsOf in Hline as (Hlookup & _ & Hdone).
    assert (Hin : In line (activeCheckoutsOfItem db (Item.id item))).
    { unfold activeCheckoutsOfItem. apply filter_In. split; [now apply In_allCheckouts|].
      rewrite Hsame, Hdone, String.eqb_refl. reflexivity. }
    now rewrite Hnone in Hin. }
  unfold handleDeleteItem. destruct selectedItem as [item|].
  - destruct (activeCheckoutsOfItem db (Item.id item)) as [|l ls] eqn:Hactive.
    + split; [reflexivity|]. split; [|split; [|split]].
      * intros uid. rewrite !fetchCartItems_rows.
        change (checkoutsOf (deleteItemDoc (Item.id item) db) uid false)
          with (checkoutsOf db uid false).
        apply omap_ext_In. intros line Hline. now apply (Hrows item uid).
      * intros uid. unfold fetchCheckoutItems, paymentLines.
        change (checkoutsOf (deleteItemDoc (Item.id item) db) uid false)
          with (checkoutsOf db uid false).
        apply omap_ext_In. intros line Hline. apply filter_In in Hline as [Hline _].
        now apply (Hrows item uid).
      * intros item' line [= <-] Hin. rewrite Hactive in Hin. contradiction.
      * intros item' [= <-] _. split; [apply getItemDoc_deleted|]. split.
        -- intros other Hother. now apply getItemDoc_deleteItemDoc.
        -- intros line Hline. unfold hydrate. rewrite Hline.
           now rewrite getItemDoc_deleted.
    + split; [reflexivity|]. split; [reflexivity|]. split; [reflexivity|].
      split; [reflexivity|]. intros item' [= <-] Hnone. rewrite Hactive in Hnone. discriminate.
  - split; [reflexivity|]. split; [reflexivity|]. split; [reflexivity|].
    split; [intros item line Hsel; discriminate|intros item Hsel; discriminate].
Qed.

(** X16: [handleUpdateOrderStatus].  Marking a line completed is the
    write of [completeCheckout].  Marking an existing line pending clears
    [is_done] and sets the step [processing], which is none of the steps
    of the shop: the line leaves the orders of its owner and is back in
    the owner's cart, with a row on the cart page when its item exists,
    and the checkout page does not show it. *)
Theorem X16_pending_order_returns_to_the_cart (now orderId : string)
    (d : Checkout.data) (db : Db) :
  db_checkouts db !! orderId = Some d ->
  let pending := handleUpdateOrderStatus now orderId false db in
  let d' := {| Checkout.user_id := Checkout.user_id d;
               Checkout.item_id := Checkout.item_id d;
               Checkout.quantity := Checkout.quantity d;
               Checkout.is_done := false;
               Checkout.last_step := "processing";
               Checkout.reason := Checkout.reason d;
               Checkout.createdAt := Checkout.createdAt d;
               Checkout.updatedAt := now |} in
  handleUpdateOrderStatus now orderId true db = snd (completeCheckout now orderId db) /\
  db_checkouts pending !! orderId = Some d' /\
  stepRank (Checkout.last_step d') = None /\
  In (Checkout.mk orderId d') (checkoutsOf pending (Checkout.user_id d) false) /\
  (forall uid line, In line (checkoutsOf pending uid true) -> Checkout.id line <> orderId) /\
  (forall uid row, In row (fetchCheckoutItems pending uid) -> CartItem.id row <> orderId) /\
  (forall item, getItemDoc db (Checkout.item_id d) = Some item ->
     In {| CartItem.id := orderId;
           CartItem.item_id := Checkout.item_id d;
           CartItem.quantity := orOne (Checkout.quantity d);
           CartItem.item := item |}
        (fetchCartItems pending (Some (Checkout.user_id d)) [])).
Proof.
  intros Hd. cbn zeta.
  assert (Hpending : db_checkouts (handleUpdateOrderStatus now orderId false db) !! orderId =
                     Some {| Checkout.user_id := Checkout.user_id d;
                             Checkout.item_id := Checkout.item_id d;
                             Checkout.quantity := Checkout.quantity d;
                             Checkout.is_done := false;
                             Checkout.last_step := "processing";
                             Checkout.reason := Checkout.reason d;
                             Checkout.createdAt := Checkout.createdAt d;
                             Checkout.updatedAt := now |}).
  { unfold handleUpdateOrderStatus, updateDoc. rewrite Hd. cbn. apply lookup_insert_eq. }
  assert (Hitems : db_items (handleUpdateOrderStatus now orderId false db) = db_items db).
  { unfold handleUpdateOrderStatus, updateDoc. now rewrite Hd. }
  split; [|split; [exact Hpending|split; [reflexivity|split; [|split; [|split]]]]].
  - unfold handleUpdateOrderStatus, completeCheckout. cbv iota.
    now destruct (updateDoc orderId _ db) as [r db'].
  - apply In_checkoutsOf. cbn. now split.
  - intros uid line Hline Hid. apply In_checkoutsOf in Hline as (Hlookup & _ & Hdone).
    rewrite Hid, Hpending in Hlookup. injection Hlookup as Hfields.
    rewrite <- Hfields in Hdone. discriminate.
  - intros uid row Hrow Hid. unfold fetchCheckoutItems, paymentLines in Hrow.
    apply list_elem_of_In, list_elem_of_omap in Hrow as (line & Hline & Hcart).
    apply list_elem_of_In, filter_In in Hline as [Hline Hstep].
    apply cartRow_id in Hcart as (Hrowid & _).
    apply In_checkoutsOf in Hline as (Hlookup & _).
    rewrite <- Hrowid, Hid, Hpending in Hlookup. injection Hlookup as Hfields.
    rewrite <- Hfields in Hstep. discriminate.
  - intros item Hitem. rewrite fetchCartItems_rows.
    apply list_elem_of_In, list_elem_of_omap.
    exists (Checkout.mk orderId
              {| Checkout.user_id := Checkout.user_id d;
                 Checkout.item_id := Checkout.item_id d;
                 Checkout.quantity := Checkout.quantity d;
                 Checkout.is_done := false;
                 Checkout.last_step := "processing";
                 Checkout.reason := Checkout.reason d;
                 Checkout.createdAt := Checkout.createdAt d;
                 Checkout.updatedAt := now |}).
    split.
    + apply list_elem_of_In, In_checkoutsOf. cbn. now split.
    + unfold cartRow, getItemDoc in *. cbn. rewrite Hitems, Hitem. reflexivity.
Qed.

(** X17: [handleDeleteCategory] only ever removes the selected category,
    and removes it only when nothing points at it: the category of every
    item and the parent of every category that remains exist afterwards
    if they existed before. *)
Theorem X17_handleDeleteCategory_orphans_nothing (selectedCategory : option Category.t)
    (items : list Item.t) (categories : list Category.t) :
  let categories' := handleDeleteCategory selectedCategory items categories in
  (forall c, In c categories' -> In c categories) /\
  (forall c, In c categories -> ~ In c categories' ->
     exists selected, selectedCategory = Some selected /\
                      Category.id c = Category.id selected /\
                      List.filter (inCategory (Category.id selected)) items = [] /\
                      subcategoriesOf categories (Category.id selected) = []) /\
  (forall item, In item items ->
     categoryExists categories (Item.category_id item) ->
     categoryExists categories' (Item.category_id item)) /\
  (forall c parent, In c categories' ->
     Category.parent_category_id c = Some parent ->
     categoryExists categories parent -> categoryExists categories' parent).
Proof.
  cbn zeta. unfold handleDeleteCategory.
  destruct selectedCategory as [selected|];
    [|repeat split; auto; intros; contradiction].
  destruct (List.filter (inCategory (Category.id selected)) items) as [|i is_] eqn:Hitems;
    [|repeat split; auto; intros; contradiction].
  destruct (subcategoriesOf categories (Category.id selected)) as [|s ss] eqn:Hsubs;
    [|repeat split; auto; intros; contradiction].
  assert (Hkept : forall categoryId, categoryId <> Category.id selected ->
            categoryExists categories categoryId ->
            categoryExists
              (List.filter (fun c => negb (String.eqb (Category.id c) (Category.id selected)))
                 categories) categoryId).
  { intros categoryId Hne (c & Hc & Hid). exists c. split; [|exact Hid].
    apply filter_In. split; [exact Hc|].
    apply negb_true_iff, String.eqb_neq. congruence. }
  split; [|split; [|split]].
  - intros c Hc. now apply filter_In in Hc.
  - intros c Hc Hgone. exists selected. split; [reflexivity|]. split; [|now split].
    destruct (String.eqb_spec (Category.id c) (Category.id selected)) as [Hid|Hid];
      [exact Hid|].
    elim Hgone. apply filter_In. split; [exact Hc|].
    now apply negb_true_iff, String.eqb_neq.
  - intros item Hitem Hexists. apply Hkept; [|exact Hexists].
    intros Hsame.
    assert (Hin : In item (List.filter (inCategory (Category.id selected)) items)).
    { apply filter_In. split; [exact Hitem|]. unfold inCategory.
      rewrite Hsame. apply String.eqb_refl. }
    now rewrite Hitems in Hin.
  - intros c parent Hc Hparent Hexists. apply Hkept; [|exact Hexists].
    intros Hsame. apply filter_In in Hc as [Hc _].
    assert (Hin : In c (subcategoriesOf categories (Category.id selected))).
    { unfold subcategoriesOf. apply filter_In. split; [exact Hc|].
      rewrite Hparent, Hsame. apply String.eqb_refl. }
    now rewrite Hsubs in Hin.
Qed.

(** ** The page of one item *)

Lemma setQuantity_keeps (values : list Z) (v : DetailView.t) :
  1 <= DetailView.quantity v ->
  let v' := List.fold_left (fun s value => setQuantity value s) values v in
  1 <= DetailView.quantity v' /\ DetailView.item v' = DetailView.item v.
Proof.
  revert v. induction values as [|value rest IH]; intros v Hq; [now split|].
  cbn [List.fold_left]. cbv zeta.
  assert (Hstep : 1 <= DetailView.quantity (setQuantity value v) /\
                  DetailView.item (setQuantity value v) = DetailView.item v).
  { unfold setQuantity. destruct (Z.ltb_spec value 1); [now split|]. cbn. now split. }
  destruct Hstep as [Hq' Hitem]. destruct (IH _ Hq') as [H1 H2].
  split; [exact H1|]. now rewrite H2.
Qed.

(** X18: the page of one item, from its fetch through any changes of the
    quantity to the cart button.  The quantity it sends is never below 1,
    so the cart page shows it as it is.  For a signed-in user and an item
    that the fetch found, the cart page then has a row for the new line,
    with that item and that quantity; without a user, or when the item was
    not found, nothing is written. *)
Theorem X18_item_page_adds_a_row_to_the_cart (docId nowCreated nowUpdated : string)
    (paramsId : option string) (itemId uid : string) (values : list Z) (db : Db) :
  truthy paramsId = Some itemId ->
  let v := List.fold_left (fun s value => setQuantity value s) values
             (fetchItemDetails db paramsId detailView) in
  let db' := handleAddToCart docId nowCreated nowUpdated (Some uid) v db in
  1 <= DetailView.quantity v /\
  DetailView.item v = getItemDoc db itemId /\
  handleAddToCart docId nowCreated nowUpdated None v db = db /\
  match getItemDoc db itemId with
  | Some item =>
      db_items db' = db_items db /\
      In {| CartItem.id := docId;
            CartItem.item_id := itemId;
            CartItem.quantity := DetailView.quantity v;
            CartItem.item := item |}
         (fetchCartItems db' (Some uid) [])
  | None => db' = db
  end.
Proof.
  intros Hid. cbn zeta.
  assert (Hfetch : DetailView.quantity (fetchItemDetails db paramsId detailView) = 1 /\
                   DetailView.item (fetchItemDetails db paramsId detailView) =
                   getItemDoc db itemId).
  { unfold fetchItemDetails, getItemById. rewrite Hid, catchRethrow_id. cbn.
    destruct (getItemDoc db itemId); now split. }
  destruct Hfetch as [Hone Hitem].
  destruct (setQuantity_keeps values (fetchItemDetails db paramsId detailView)) as [Hq Hsame];
    [lia|].
  cbv zeta in Hq, Hsame. rewrite Hitem in Hsame.
  remember (List.fold_left (fun s value => setQuantity value s) values
              (fetchItemDetails db paramsId detailView)) as v eqn:Hv.
  split; [exact Hq|]. split; [exact Hsame|]. split; [reflexivity|].
  unfold handleAddToCart. rewrite Hsame.
  destruct (getItemDoc db itemId) as [item|] eqn:Hdoc; [|reflexivity].
  apply getItemDoc_found in Hdoc as Hfound. destruct Hfound as [_ Hitemid].
  unfold addToCart, addDoc. cbn [snd]. split; [reflexivity|].
  rewrite fetchCartItems_rows. apply list_elem_of_In, list_elem_of_omap.
  eexists (Checkout.mk docId _). split.
  - apply list_elem_of_In, In_checkoutsOf. cbn.
    split; [apply lookup_insert_eq|]. now split.
  - unfold cartRow. cbn [Checkout.fields Checkout.item_id Checkout.quantity Checkout.id].
    rewrite Hitemid.
    change (getItemDoc (withCheckouts db _) itemId) with (getItemDoc db itemId).
    rewrite Hdoc. now rewrite orOne_positive.
Qed.

End Platform.

(** * The services on the small shop *)

Lemma C1_witness :
  exists page,
    getAllItems seedGetTime healthy seedItems (Some "phones") newest 1 (Some galaxy) =
      Resolved page /\
    Page.items page = [iPhone].
Proof.
  destruct (C1_category_page_is_window_of_sorted seedGetTime healthy seedItems
              (Some "phones") "phones" newest 1 (Some galaxy))
    as (_ & _ & page & Hpage & Hitems & _).
  - reflexivity.
  - reflexivity.
  - lia.
  - repeat constructor; eexists; reflexivity.
  - exists page. split; [assumption|]. rewrite Hitems. vm_compute. reflexivity.
Defined.

Lemma C3_short_page_keeps_cursor :
  getAllItems seedGetTime healthy seedItems None price_asc 8 None =
    Resolved {| Page.items := [galaxy; iPhone; dellXps; macBook];
                Page.lastVisible := Some macBook |}.
Proof. vm_compute. reflexivity. Qed.

Lemma C4_rewind_breaks_the_sequence :
  db_checkouts (afterCalls rewind (emptyDb seedItems)) !! "line1" =
    Some {| Checkout.user_id := "alice";
            Checkout.item_id := "item1";
            Checkout.quantity := 2;
            Checkout.is_done := true;
            Checkout.last_step := "added_to_cart";
            Checkout.reason := EmptyString;
            Checkout.createdAt := "2024-02-01T10:00:00.000Z";
            Checkout.updatedAt := "2024-02-01T10:06:00.000Z" |}.
Proof. vm_compute. reflexivity. Qed.

(** A store that cannot run the query of a category at all: the error
    reaches the caller. *)
Example refused_category_query_reaches_the_caller :
  getAllItems seedGetTime filterIndexOff seedItems (Some "phones") price_asc 8 None =
    Rejected failed_precondition.
Proof. vm_compute. reflexivity. Qed.

Lemma seedItems_distinct : List.NoDup (List.map Item.id seedItems).
Proof.
  repeat (constructor; [cbn; intuition discriminate|]).
  constructor.
Qed.

Lemma C2_witness :
  collectPages seedGetTime 5 healthy seedItems (Some "laptops") price_desc 1 =
    Resolved [macBook; dellXps].
Proof.
  destruct (C2_pages_concatenate_to_whole_listing seedGetTime healthy seedItems
              (Some "laptops") price_desc 1 5) as (Hpages & _).
  - apply seedItems_distinct.
  - reflexivity.
  - lia.
  - cbn. lia.
  - rewrite Hpages. vm_compute. reflexivity.
Defined.

Lemma C3_witness :
  exists page,
    getAllItems seedGetTime healthy seedItems None newest 3 None = Resolved page /\
    Page.lastVisible page = lastElement (Page.items page).
Proof.
  destruct (C3_cursor_is_last_item_of_page seedGetTime healthy seedItems
              None newest 3 None) as (page & Hpage & Hlast & _).
  - reflexivity.
  - lia.
  - reflexivity.
  - exists page. now split.
Defined.

Lemma C4_witness :
  neverBackward (afterCalls visit (emptyDb seedItems))
    (afterCalls (visit ++ payment) (emptyDb seedItems)).
Proof.
  apply (C4_steps_forward_when_callers_ask_forward (emptyDb seedItems) visit payment).
  - intros id d Hd. cbn in Hd. rewrite lookup_empty in Hd. discriminate.
  - vm_compute. reflexivity.
Defined.

Lemma C5_witness :
  exists cart,
    getCartItems
      (snd (addToCart "line1" "2024-02-01T10:00:00.000Z" "2024-02-01T10:00:00.001Z"
              "alice" "item1" 2 (emptyDb seedItems))) "alice" = Resolved cart /\
    length (List.filter
              (fun line => String.eqb (Checkout.item_id (Checkout.fields line)) "item1")
              cart) = 1%nat.
Proof.
  destruct (C5_addToCart_then_getCartItems "line1" "2024-02-01T10:00:00.000Z"
              "2024-02-01T10:00:00.001Z" "alice" "item1" 2 (emptyDb seedItems))
    as (_ & cart & Hcart & Hline).
  - reflexivity.
  - intros id d Hd. cbn in Hd. rewrite lookup_empty in Hd. discriminate.
  - exists cart. split; [assumption|]. now rewrite Hline.
Defined.

Lemma C6_total_is_not_the_sum_of_price_times_quantity :
  (* a line stored with the quantity 0 counts once *)
  (let db := afterCalls gift (emptyDb seedItems) in
   List.map Checkout.quantity (List.map Checkout.fields (checkoutsOf db "alice" true)) = [0] /\
   exactSum db (checkoutsOf db "alice" true) == 0 /\
   List.map (fun order => (Order.items order, Order.total order))
     (fetchOrders seedLocaleDate db "alice") =
   [ ([ {| OrderItem.item := iPhone; OrderItem.quantity := 1 |} ],
      Number.ofQ (Item.price iPhone)) ] /\
   Number.ofQ (Item.price iPhone) <> Number.zero) /\
  (* two phones and three phones: 999.99 * 2 + 899.99 * 3 comes to
     4699.950000000001, the double above the one nearest to 4699.95 *)
  (let db := afterCalls (visit ++ payment) (emptyDb seedItems) in
   exactSum db (checkoutsOf db "alice" true) == 93999 # 20 /\
   List.map Order.total (fetchOrders seedLocaleDate db "alice") =
     [ S754_finite false 5167649674965812 (-40) ] /\
   Number.ofQ (93999 # 20) = S754_finite false 5167649674965811 (-40) /\
   Number.toQ (S754_finite false 5167649674965812 (-40)) <> Some (93999 # 20))%Q.
Proof.
  split; cbv zeta.
  - split; [vm_compute; reflexivity|]. split; [vm_compute; reflexivity|].
    split; [vm_compute; reflexivity|]. vm_compute. discriminate.
  - split; [vm_compute; reflexivity|]. split; [vm_compute; reflexivity|].
    split; [vm_compute; reflexivity|]. vm_compute. discriminate.
Qed.

Lemma C7_witness :
  exists found,
    searchItems healthy seedItems "iPhone" 8 = Resolved found /\
    (forall d, In d found -> String.leb "iPhone" (Item.name d) = true).
Proof.
  destruct (C7_search_returns_prefix_range healthy seedItems "iPhone" 8)
    as (found & Hfound & _ & _ & Hrange & _).
  - lia.
  - reflexivity.
  - exists found. split; [assumption|]. intros d Hd. now apply Hrange.
Defined.


Lemma C10_witness :
  exists page,
    getAllItems seedGetTime healthy seedItems (Some "phones") price_asc 1 (Some macBook) =
      Resolved page /\
    Page.items page = [galaxy].
Proof.
  destruct (C10_unknown_cursor_restarts seedGetTime healthy seedItems
              (Some "phones") "phones" price_asc 1 (Some macBook))
    as (page & Hpage & _ & Hrestart).
  - reflexivity.
  - reflexivity.
  - lia.
  - exists page. split; [assumption|].
    rewrite (Hrestart macBook eq_refl); [vm_compute; reflexivity|].
    intros d Hd. vm_compute in Hd.
    repeat destruct Hd as [<-|Hd]; try discriminate. contradiction.
Defined.

(** The order history when an item has been deleted since the purchase:
    the line of the deleted item shows nothing and adds nothing. *)
Example order_history_without_deleted_item :
  fetchOrders seedLocaleDate
    {| db_items := [iPhone];
       db_checkouts := db_checkouts (afterCalls (visit ++ payment) (emptyDb seedItems)) |}
    "alice" =
  [ {| Order.id := "2024-02-01";
       Order.items := [ {| OrderItem.item := iPhone; OrderItem.quantity := 2 |} ];
       Order.total := Number.mul (Number.ofQ (99999 # 100)) (Number.ofZ 2);
       Order.date := "2024-02-01";
       Order.status := "Completed" |} ].
Proof. vm_compute. reflexivity. Qed.

(** ** Small runs *)

Example slice_counts_from_the_end : slice [1; 2; 3; 4] 1 (-1) = [2; 3].
Proof. reflexivity. Qed.

Example slice_stops_at_the_end : slice [1; 2; 3; 4] 2 10 = [3; 4].
Proof. reflexivity. Qed.

Example findIndex_missing : findIndex (Z.eqb 5) [1; 2; 3] = -1.
Proof. reflexivity. Qed.

Example sort_keeps_ties_in_order :
  sort (fun a b : Z * string => Some (inject_Z (fst a - fst b)))
    [(2, "b"); (1, "x"); (2, "a"); (1, "y")] =
  [(1, "x"); (1, "y"); (2, "b"); (2, "a")].
Proof. vm_compute. reflexivity. Qed.

Example phones_first_page :
  getAllItems seedGetTime healthy seedItems (Some "phones") price_asc 1 None =
    Resolved {| Page.items := [galaxy]; Page.lastVisible := Some galaxy |}.
Proof. vm_compute. reflexivity. Qed.

Example phones_second_page :
  getAllItems seedGetTime healthy seedItems (Some "phones") price_asc 1 (Some galaxy) =
    Resolved {| Page.items := [iPhone]; Page.lastVisible := Some iPhone |}.
Proof. vm_compute. reflexivity. Qed.

Example phones_last_page :
  getAllItems seedGetTime healthy seedItems (Some "phones") price_asc 1 (Some iPhone) =
    Resolved {| Page.items := []; Page.lastVisible := None |}.
Proof. vm_compute. reflexivity. Qed.

Example newest_without_category :
  getAllItems seedGetTime healthy seedItems None newest 3 None =
    Resolved {| Page.items := [dellXps; macBook; galaxy]; Page.lastVisible := Some galaxy |}.
Proof. vm_compute. reflexivity. Qed.

Example empty_category_id_lists_everything :
  getAllItems seedGetTime healthy seedItems (Some EmptyString) price_desc 2 None =
    Resolved {| Page.items := [macBook; dellXps]; Page.lastVisible := Some dellXps |}.
Proof. vm_compute. reflexivity. Qed.

Example limit_zero_is_refused :
  getAllItems seedGetTime healthy seedItems None newest 0 None = Rejected invalid_argument.
Proof. reflexivity. Qed.

Example search_iPhone :
  searchItems healthy
    (seedItems ++
       [ seedItem "item5" "iPhone" (1 # 1) "phones" "2024-01-05T00:00:00.000Z";
         seedItem "item6" "iPhonf" (1 # 1) "phones" "2024-01-06T00:00:00.000Z" ])
    "iPhone" 8 =
  Resolved [ seedItem "item5" "iPhone" (1 # 1) "phones" "2024-01-05T00:00:00.000Z"; iPhone ].
Proof. vm_compute. reflexivity. Qed.

Example cart_after_visit :
  getCartItems (afterCalls visit (emptyDb seedItems)) "alice" =
  Resolved (checkoutsOf (afterCalls visit (emptyDb seedItems)) "alice" false)
  /\ length (checkoutsOf (afterCalls visit (emptyDb seedItems)) "alice" false) = 2%nat
  /\ checkoutsOf (afterCalls (visit ++ payment) (emptyDb seedItems)) "alice" false = [].
Proof. vm_compute. repeat split. Qed.

(** 999.99 * 2 + 899.99 * 3 in doubles: 4699.950000000001. *)
Example order_history_after_payment :
  List.map (fun order => (Order.date order, Order.total order))
    (fetchOrders seedLocaleDate (afterCalls (visit ++ payment) (emptyDb seedItems)) "alice") =
  [ ("2024-02-01", S754_finite false 5167649674965812 (-40)) ].
Proof. vm_compute. reflexivity. Qed.

Example short_page_offers_no_next_page :
  hasMore {| Page.items := [galaxy; iPhone; dellXps; macBook];
             Page.lastVisible := Some macBook |} = false.
Proof. reflexivity. Qed.

(** ** The further properties at work on the sample data *)

Lemma X3_witness :
  fst (completeCheckout "2024-02-01T10:05:00.000Z" "line1" atPayment) = Resolved tt /\
  db_checkouts (snd (completeCheckout "2024-02-01T10:05:00.000Z" "line1" atPayment))
    !! "line1" = Some line1Completed.
Proof.
  pose proof (X3_completeCheckout_moves_line_to_orders "2024-02-01T10:05:00.000Z" "line1"
                line1AtPayment atPayment) as H.
  cbv zeta in H. destruct H as (Hresolved & _ & Hline & _).
  - vm_compute. reflexivity.
  - split; [exact Hresolved|exact Hline].
Defined.

Lemma X4_witness :
  Permutation
    (checkoutsOf
       (snd (addToCart "line3" "2024-02-01T10:04:00.000Z" "2024-02-01T10:04:00.000Z"
               "alice" "item1" 1 atPayment)) "bob" false)
    (checkoutsOf atPayment "bob" false).
Proof.
  pose proof (X4_addToCart_adds_one_line "line3" "2024-02-01T10:04:00.000Z"
                "2024-02-01T10:04:00.000Z" "alice" "item1" 1 atPayment) as H.
  cbv zeta in H. destruct H as (_ & _ & _ & Hothers & _).
  - vm_compute. reflexivity.
  - apply Hothers. intros [Huser _]. discriminate.
Defined.

Lemma X5_witness :
  exists found,
    searchItems healthy seedItems "Mac" 8 = Resolved found /\
    forall d, In d found -> exists rest, Item.name d = ("Mac" ++ rest)%string.
Proof.
  destruct (X5_search_finds_names_starting_with_query healthy seedItems "Mac" 8)
    as (found & Hfound & Hnames & _).
  - lia.
  - reflexivity.
  - exists found. split; [exact Hfound|].
    intros d Hd. destruct (Hnames d Hd) as (rest & Hname & _). now exists rest.
Defined.

Lemma X7_witness :
  snd (handleQuantityChange "2024-02-01T10:04:00.000Z" "line1" 3 atPayment
         (fetchCartItems atPayment (Some "alice") [])) =
  fetchCartItems
    (fst (handleQuantityChange "2024-02-01T10:04:00.000Z" "line1" 3 atPayment
            (fetchCartItems atPayment (Some "alice") [])))
    (Some "alice") [].
Proof.
  destruct (X7_handleQuantityChange_keeps_rows_true "2024-02-01T10:04:00.000Z" "line1" 3
              atPayment "alice" []) as [_ Hwritten].
  destruct Hwritten as [Hrows _]; [lia|exact Hrows].
Defined.

Lemma X11_witness :
  exists order,
    In order
      (fetchOrders seedLocaleDate
         (snd (onSubmit (fun _ => "2024-02-01T10:05:00.000Z")
                 (fetchCheckoutItems atPayment "alice") atPayment)) "alice") /\
    Order.total order = calculateTotal (fetchCheckoutItems atPayment "alice").
Proof.
  pose proof (X11_order_of_the_day_is_the_checkout seedLocaleDate
                (fun _ => "2024-02-01T10:05:00.000Z") atPayment "alice" "2024-02-01") as H.
  cbv zeta in H. destruct H as [Horder _].
  - vm_compute. discriminate.
  - intros row _. reflexivity.
  - intros line Hline. vm_compute in Hline. contradiction.
  - eexists. split; [exact Horder|reflexivity].
Defined.

Lemma eightItems_distinct : List.NoDup (List.map Item.id eightItems).
Proof.
  repeat (constructor; [cbn; intuition discriminate|]).
  constructor.
Qed.

Lemma X12_witness :
  ItemsView.items (browse seedGetTime healthy seedItems (Some "phones") price_asc 0) =
  [galaxy; iPhone].
Proof.
  pose proof (X12_browsing_forward_accumulates_the_listing seedGetTime healthy seedItems
                (Some "phones") price_asc 0) as H.
  cbv zeta in H. destruct H as (Hitems & _).
  - apply seedItems_distinct.
  - reflexivity.
  - vm_compute. lia.
  - rewrite Hitems. vm_compute. reflexivity.
Defined.

Lemma X13_witness :
  ItemsView.items (browse seedGetTime healthy eightItems None price_asc 1) = [] /\
  ItemsView.currentPage (browse seedGetTime healthy eightItems None price_asc 1) = 2.
Proof.
  pose proof (X13_end_of_listing seedGetTime healthy eightItems None price_asc 1) as H.
  cbv zeta in H. destruct H as (Hitems & _ & Hpage).
  - apply eightItems_distinct.
  - reflexivity.
  - vm_compute. lia.
  - split; [rewrite Hitems|rewrite Hpage]; vm_compute; reflexivity.
Defined.

Lemma X14_witness :
  ItemsView.currentPage (turnPage seedGetTime healthy seedItems (goToPage 2) onPageTwo) = 1.
Proof.
  pose proof (X14_going_back_restarts_at_page_one seedGetTime healthy seedItems onPageTwo 2
                {| Page.items := [galaxy; iPhone; dellXps; macBook];
                   Page.lastVisible := Some macBook |}) as H.
  cbv zeta in H. destruct H as (_ & Hback & _).
  - reflexivity.
  - cbn. lia.
  - vm_compute. reflexivity.
  - rewrite Hback. vm_compute. reflexivity.
Defined.

Lemma X16_witness :
  In {| CartItem.id := "line1";
        CartItem.item_id := "item1";
        CartItem.quantity := 2;
        CartItem.item := iPhone |}
     (fetchCartItems
        (handleUpdateOrderStatus "2024-02-02T09:00:00.000Z" "line1" false afterPayment)
        (Some "alice") []).
Proof.
  pose proof (X16_pending_order_returns_to_the_cart "2024-02-02T09:00:00.000Z" "line1"
                line1Completed afterPayment) as H.
  cbv zeta in H. destruct H as (_ & _ & _ & _ & _ & _ & Hrow).
  - vm_compute. reflexivity.
  - apply (Hrow iPhone). vm_compute. reflexivity.
Defined.

Lemma X18_witness :
  In {| CartItem.id := "line3";
        CartItem.item_id := "item3";
        CartItem.quantity := 2;
        CartItem.item := macBook |}
     (fetchCartItems
        (handleAddToCart "line3" "2024-02-01T10:04:00.000Z" "2024-02-01T10:04:00.000Z"
           (Some "alice")
           (List.fold_left (fun s value => setQuantity value s) [3; 0; 2]
              (fetchItemDetails atPayment (Some "item3") detailView))
           atPayment)
        (Some "alice") []).
Proof.
  pose proof (X18_item_page_adds_a_row_to_the_cart "line3" "2024-02-01T10:04:00.000Z"
                "2024-02-01T10:04:00.000Z" (Some "item3") "item3" "alice" [3; 0; 2]
                atPayment) as H.
  cbv zeta in H. destruct H as (_ & _ & _ & Hrow).
  - reflexivity.
  - change (getItemDoc atPayment "item3") with (Some macBook) in Hrow.
    destruct Hrow as [_ Hrow]. exact Hrow.
Defined.

Example full_page_offers_a_next_page :
  length (ItemsView.items (browse seedGetTime healthy eightItems None price_asc 0)) = 8%nat /\
  ItemsView.hasMore (browse seedGetTime healthy eightItems None price_asc 0) = true /\
  ItemsView.items (browse seedGetTime healthy eightItems None price_asc 1) = [].
Proof. vm_compute. repeat split. Qed.

Example cart_becomes_the_order :
  let cart :=
    afterCalls
      [ CallAddToCart "line1" "2024-02-01T10:00:00.000Z" "2024-02-01T10:00:00.000Z"
          "alice" "item1" 2;
        CallAddToCart "line2" "2024-02-01T10:01:00.000Z" "2024-02-01T10:01:00.000Z"
          "alice" "item9" 1 ]
      (emptyDb seedItems) in
  let rows := fetchCartItems cart (Some "alice") [] in
  let atCheckout :=
    snd (handleProceedToCheckout (fun _ => "2024-02-01T10:03:00.000Z") rows cart) in
  let paid :=
    snd (onSubmit (fun _ => "2024-02-01T10:05:00.000Z")
           (fetchCheckoutItems atCheckout "alice") atCheckout) in
  List.map CartItem.id rows = ["line1"] /\
  fetchCartCount cart "alice" = 2%nat /\
  List.map (fun order => (Order.date order, Order.total order))
    (fetchOrders seedLocaleDate paid "alice") =
    [ ("2024-02-01", Number.mul (Number.ofQ (99999 # 100)) (Number.ofZ 2)) ] /\
  List.map Checkout.id (checkoutsOf paid "alice" false) = ["line2"].
Proof. vm_compute. repeat split. Qed.

(** A store that cannot run the query of a category: the page clears the
    category and settles on the whole listing. *)
Example refused_category_settles_on_the_whole_listing :
  fetchItems seedGetTime filterIndexOff seedItems (firstView (Some "phones") price_asc) =
  {| ItemsView.items := [galaxy; iPhone; dellXps; macBook];
     ItemsView.lastVisible := Some macBook;
     ItemsView.hasMore := false;
     ItemsView.currentPage := 1;
     ItemsView.selectedCategory := None;
     ItemsView.sortBy := price_asc |}.
Proof. vm_compute. reflexivity. Qed.
